(** * Lobby: the waiting-room controller of modules/xmpp/Lobby.js

    A shallow embedding of the [Lobby] class: the controller's fields, the
    stanzas it builds, the listeners it registers on the main room and on
    the lobby room, and what those listeners do when the room abstraction
    fires them.  Calls on the collaborators (connection, main room, lobby
    room, logger) are recorded in a trace; callbacks and listeners are kept
    as data and run by an explicit dispatcher, since the source is
    single-threaded and event-driven. *)

From Stdlib Require Import String Ascii List Bool Arith Lia.
Import ListNotations.
Local Open Scope string_scope.
Local Open Scope list_scope.

Set Warnings "-register-all".

(** ** JavaScript values used by the controller *)

(** Optional string arguments ([displayName], [email], [password], the
    lobby component address): [None] is [undefined] (or [null]). *)
Definition JsString := option string.

(** [if (x)] on an optional string: [undefined] and the empty string are
    falsy, every other string is truthy. *)
Definition truthy (x : JsString) : bool :=
  match x with
  | None => false
  | Some s => negb (s =? "")
  end.

(** ** JIDs (strophe.js helpers) *)

Module Strophe.

(** The text before the first occurrence of [c]; [None] when [c] does not
    occur. *)
Fixpoint before_first (c : ascii) (s : string) : option string :=
  match s with
  | EmptyString => None
  | String a rest =>
      if Ascii.eqb a c then Some EmptyString
      else option_map (String a) (before_first c rest)
  end.

(** The text after the first occurrence of [c]; [None] when [c] does not
    occur. *)
Fixpoint after_first (c : ascii) (s : string) : option string :=
  match s with
  | EmptyString => None
  | String a rest =>
      if Ascii.eqb a c then Some rest else after_first c rest
  end.

(** [Strophe.getNodeFromJid]: [null] without an "@", otherwise
    [jid.split("@")[0]]. *)
Definition getNodeFromJid (jid : string) : option string :=
  before_first "@"%char jid.

(** [Strophe.getResourceFromJid]: [null] without a "/", otherwise
    everything after the first "/". *)
Definition getResourceFromJid (jid : string) : option string :=
  after_first "/"%char jid.

End Strophe.

(** ** Stanzas *)

Inductive Xml : Type :=
| Elem (tag : string) (attrs : list (string * string)) (children : list Xml)
| Text (text : string).

(** What a rejected promise or an error callback carries: an [Error]
    object made by the controller, the [TypeError] of a property access on
    [undefined], or the error stanza handed over by the connection
    ([None] on a timeout). *)
Inductive JsError : Type :=
| Error (message : string)
| TypeError (message : string)
| ErrorStanza (stanza : option Xml).

Definition attr (name : string) (x : Xml) : option string :=
  match x with
  | Elem _ attrs _ =>
      option_map snd (find (fun kv => fst kv =? name) attrs)
  | Text _ => None
  end.

Definition tag_of (x : Xml) : option string :=
  match x with
  | Elem tag _ _ => Some tag
  | Text _ => None
  end.

Definition children_of (x : Xml) : list Xml :=
  match x with
  | Elem _ _ children => children
  | Text _ => []
  end.

Definition option_string_eqb (a : option string) (b : string) : bool :=
  match a with
  | Some s => s =? b
  | None => false
  end.

(** [toLowerCase] on the letters A to Z; every other character is kept.
    The element names the source selects ([query], [x] and [field]) are the
    lower-case form of no name that has a letter outside A to Z, so for
    them this decides as JavaScript's [toLowerCase] does. *)
Definition lower (c : ascii) : ascii :=
  if (Ascii.leb "A" c && Ascii.leb c "Z")%char
  then ascii_of_nat (nat_of_ascii c + 32)
  else c.

Fixpoint toLowerCase (s : string) : string :=
  match s with
  | EmptyString => EmptyString
  | String c rest => String (lower c) (toLowerCase rest)
  end.

(** The element-name test of a jQuery selector: the name in the selector
    and the element's [nodeName] are compared in lower case, so [<FIELD>]
    and [<Field>] are selected by [field].  (Attribute names and values are
    compared as they are.) *)
Definition tag_matches (tag : string) (c : Xml) : bool :=
  option_string_eqb (option_map toLowerCase (tag_of c)) (toLowerCase tag).

(** One step [>tag[name="value"]] of a jQuery child selector. *)
Definition select_children (tag : string) (cond : option (string * string))
    (xs : list Xml) : list Xml :=
  flat_map
    (fun x =>
       filter
         (fun c =>
            tag_matches tag c
            && match cond with
               | Some (name, value) => option_string_eqb (attr name c) value
               | None => true
               end)
         (children_of x))
    xs.

(** [Strophe.Builder]: the stack of the elements that are still open,
    innermost first; [c] opens a child and moves into it, [text] (the
    builder's [t]) adds a text child and stays, [up] closes the current
    element.  The source never
    calls [up] on the root. *)
Module Builder.

Record Frame : Type := mkFrame {
  frame_tag : string;
  frame_attrs : list (string * string);
  frame_children : list Xml
}.

Record t : Type := mk {
  current : Frame;
  outer : list Frame
}.

Definition close (f : Frame) : Xml :=
  Elem (frame_tag f) (frame_attrs f) (frame_children f).

Definition add_child (x : Xml) (f : Frame) : Frame :=
  mkFrame (frame_tag f) (frame_attrs f) (frame_children f ++ [x]).

Definition create (tag : string) (attrs : list (string * string)) : t :=
  mk (mkFrame tag attrs []) [].

Definition c (tag : string) (attrs : list (string * string)) (b : t) : t :=
  mk (mkFrame tag attrs []) (current b :: outer b).

Definition text (s : string) (b : t) : t :=
  mk (add_child (Text s) (current b)) (outer b).

Definition up (b : t) : t :=
  match outer b with
  | parent :: rest => mk (add_child (close (current b)) parent) rest
  | [] => b
  end.

(** The whole stanza, as [sendIQ] serialises it: every open element is
    closed. *)
Fixpoint tree_from (f : Frame) (open : list Frame) : Xml :=
  match open with
  | [] => close f
  | parent :: rest => tree_from (add_child (close f) parent) rest
  end.

Definition tree (b : t) : Xml := tree_from (current b) (outer b).

End Builder.

Notation "b |> f" := (f b) (at level 71, left associativity, only parsing).

Definition iq (attrs : list (string * string)) : Builder.t :=
  Builder.create "iq" attrs.

Definition msg (attrs : list (string * string)) : Builder.t :=
  Builder.create "message" attrs.

(** ** Events, notifications and listeners *)

(** The [XMPPEvents] the controller listens to. *)
Inductive XMPPEvent : Type :=
| MUC_MEMBER_JOINED
| KICKED
| INVITE_MESSAGE_RECEIVED
| MUC_JOINED
| ROOM_JOIN_ERROR
| ROOM_CONNECT_NOT_ALLOWED_ERROR
| ROOM_CONNECT_ERROR.

Definition XMPPEvent_eqb (a b : XMPPEvent) : bool :=
  match a, b with
  | MUC_MEMBER_JOINED, MUC_MEMBER_JOINED
  | KICKED, KICKED
  | INVITE_MESSAGE_RECEIVED, INVITE_MESSAGE_RECEIVED
  | MUC_JOINED, MUC_JOINED
  | ROOM_JOIN_ERROR, ROOM_JOIN_ERROR
  | ROOM_CONNECT_NOT_ALLOWED_ERROR, ROOM_CONNECT_NOT_ALLOWED_ERROR
  | ROOM_CONNECT_ERROR, ROOM_CONNECT_ERROR => true
  | _, _ => false
  end.

(** The [XMPPEvents] the controller emits on [mainRoom.eventEmitter], with
    their arguments. *)
Inductive Notification : Type :=
| MUC_LOBBY_MEMBER_UPDATED (from : string) (email : JsString)
| MUC_LOBBY_MEMBER_JOINED (id : option string) (nick : JsString)
    (avatar : JsString)
| MUC_DENIED_ACCESS.

(** The command type for updating a lobby participant's e-mail address. *)
Definition EMAIL_COMMAND : string := "email".

Record Identity : Type := mkIdentity { avatar : JsString }.

Record PresenceNode : Type := mkNode {
  tagName : string;
  value : JsString
}.

(** What the room abstraction hands to the listeners when it fires. *)
Inductive Fired : Type :=
| Presence (node : PresenceNode) (from : string)
| MemberJoined (from : string) (nick role : JsString)
    (isHiddenDomain : bool) (statsID status : JsString)
    (identity : option Identity)
| Kicked (isSelfPresence : bool)
| InviteMessageReceived (roomJid from : string) (txt : JsString)
| MucJoined
| RoomJoinError (e : JsError)
| RoomConnectNotAllowedError (e : JsError)
| RoomConnectError (e : JsError).

(** The closures of the source, with the variables they capture.  All of
    them also capture [this]. *)
Inductive Handler : Type :=
| OnEmailCommand
| OnMemberJoined
| OnKicked
| OnInvite
| OnLobbyJoined (resolve : nat) (email : JsString) (isModerator : bool)
| OnJoinFailed (reject : nat).

(** The success and error callbacks given to [sendIQ], pairwise. *)
Inductive IqCallback : Type :=
| ConfigFormReply (promise : nat) (password : JsString)
| ConfigSubmitReply (promise : nat)
| InviteReply (jid : string).

(** ** The controller and its collaborators *)

Record XMPP : Type := mkXMPP {
  lobbyroomComponentAddress : JsString;
  (* connection.sendIQ: the callbacks still waiting for their reply, by
     request number *)
  pendingIQ : list (option IqCallback)
}.

Record MainRoom : Type := mkMainRoom {
  roomjid : string;
  joined : bool;
  (* what isModerator() answers at the moment *)
  isModerator : bool;
  mainListeners : list (XMPPEvent * Handler)
}.

Record Member : Type := mkMember { jid : string }.

Record RoomOptions : Type := mkOptions {
  disableDiscoInfo : bool;
  disableFocus : bool;
  customDomain : JsString
}.

Record ChatRoom : Type := mkChatRoom {
  roomName : option string;
  options : RoomOptions;
  (* room-scoped address -> member, in the order of Object.keys *)
  members : list (string * Member);
  eventListeners : list (XMPPEvent * Handler);
  presenceListeners : list (string * Handler)
}.

Inductive Outcome : Type :=
| Fulfilled
| Rejected (e : JsError).

Inductive PromiseState : Type :=
| Pending
| Settled (o : Outcome).

(** A promise handed to the caller: one made by the controller with
    [new Promise], or the one returned by the [mainRoom.join] call recorded
    at position [call] of the trace. *)
Inductive PromiseRef : Type :=
| Own (p : nat)
| MainJoin (call : nat).

Inductive Action : Type :=
| SendIQ (stanza : Xml)
| CreateRoom (name : option string) (opts : RoomOptions)
| MainRoomJoin (password : JsString)
| RemoveFromPresence (room : nat) (key : string)
| AddToPresence (room : nat) (key : string) (val : JsString)
    (attributes : list (string * string))
| SendPresence (room : nat)
| Join (room : nat)
| Leave (room : nat)
| Kick (room : nat) (jid : string)
| Clean (room : nat)
| Emit (n : Notification).

Inductive LogLine : Type :=
| LogDebug (text : string)
| LogError (text : string).

Record World : Type := mkWorld {
  xmpp : XMPP;
  mainRoom : MainRoom;
  (* this.lobbyRoom: undefined, or a reference into [rooms] *)
  lobbyRoom : option nat;
  (* the room objects made by xmpp.createRoom *)
  rooms : list ChatRoom;
  (* the promises made with new Promise *)
  promises : list PromiseState;
  (* source.then(resolve).catch(reject), for the [resolve]/[reject] of the
     promise on the right *)
  links : list (PromiseRef * nat);
  trace : list Action;
  log : list LogLine
}.

(** [new Lobby(room)]. *)
Definition constructor (x : XMPP) (room : MainRoom) : World :=
  mkWorld x room None [] [] [] [] [].

(** ** Effects: state and exceptions *)

Inductive Completion (A : Type) : Type :=
| Normal (a : A)
| Throw (e : JsError).

Arguments Normal {A} a.
Arguments Throw {A} e.

Definition Js (A : Type) : Type := World -> Completion A * World.

Definition ret {A : Type} (a : A) : Js A := fun w => (Normal a, w).

Definition bind {A B : Type} (m : Js A) (k : A -> Js B) : Js B :=
  fun w =>
    match m w with
    | (Normal a, w') => k a w'
    | (Throw e, w') => (Throw e, w')
    end.

Notation "x <- m ;; k" := (bind m (fun x => k))
  (at level 100, m at next level, right associativity).
Notation "m ;; k" := (bind m (fun _ => k))
  (at level 100, right associativity).

Definition get : Js World := fun w => (Normal w, w).

Definition modify (f : World -> World) : Js unit := fun w => (Normal tt, f w).

Definition throw {A : Type} (e : JsError) : Js A := fun w => (Throw e, w).

Definition when (b : bool) (m : Js unit) : Js unit := if b then m else ret tt.

Fixpoint for_each {A : Type} (f : A -> Js unit) (l : list A) : Js unit :=
  match l with
  | [] => ret tt
  | a :: rest => f a ;; for_each f rest
  end.

(** *** Field updates *)

Definition with_xmpp (f : XMPP -> XMPP) (w : World) : World :=
  mkWorld (f (xmpp w)) (mainRoom w) (lobbyRoom w) (rooms w) (promises w)
    (links w) (trace w) (log w).

Definition with_mainRoom (f : MainRoom -> MainRoom) (w : World) : World :=
  mkWorld (xmpp w) (f (mainRoom w)) (lobbyRoom w) (rooms w) (promises w)
    (links w) (trace w) (log w).

Definition with_lobbyRoom (r : option nat) (w : World) : World :=
  mkWorld (xmpp w) (mainRoom w) r (rooms w) (promises w) (links w) (trace w)
    (log w).

Definition with_rooms (f : list ChatRoom -> list ChatRoom) (w : World)
    : World :=
  mkWorld (xmpp w) (mainRoom w) (lobbyRoom w) (f (rooms w)) (promises w)
    (links w) (trace w) (log w).

Definition with_promises (f : list PromiseState -> list PromiseState)
    (w : World) : World :=
  mkWorld (xmpp w) (mainRoom w) (lobbyRoom w) (rooms w) (f (promises w))
    (links w) (trace w) (log w).

Definition with_links (f : list (PromiseRef * nat) -> list (PromiseRef * nat))
    (w : World) : World :=
  mkWorld (xmpp w) (mainRoom w) (lobbyRoom w) (rooms w) (promises w)
    (f (links w)) (trace w) (log w).

Definition with_trace (f : list Action -> list Action) (w : World) : World :=
  mkWorld (xmpp w) (mainRoom w) (lobbyRoom w) (rooms w) (promises w) (links w)
    (f (trace w)) (log w).

Definition with_log (f : list LogLine -> list LogLine) (w : World) : World :=
  mkWorld (xmpp w) (mainRoom w) (lobbyRoom w) (rooms w) (promises w) (links w)
    (trace w) (f (log w)).

Fixpoint update_nth {A : Type} (n : nat) (f : A -> A) (l : list A) : list A :=
  match l, n with
  | [], _ => []
  | a :: rest, O => f a :: rest
  | a :: rest, S n' => a :: update_nth n' f rest
  end.

(** *** Calls on the collaborators *)

Definition act (a : Action) : Js unit :=
  modify (with_trace (fun t => t ++ [a])).

Definition logger_debug (text : string) : Js unit :=
  modify (with_log (fun l => l ++ [LogDebug text])).

Definition logger_error (text : string) : Js unit :=
  modify (with_log (fun l => l ++ [LogError text])).

(** [connection.sendIQ(stanza, onSuccess, onError)]. *)
Definition sendIQ (stanza : Builder.t) (cb : IqCallback) : Js unit :=
  act (SendIQ (Builder.tree stanza)) ;;
  modify (with_xmpp (fun x =>
    mkXMPP (lobbyroomComponentAddress x) (pendingIQ x ++ [Some cb]))).

(** Modelled from the spec: the room factory [xmpp.createRoom(localName,
    options)], whose code is not part of this unit; it makes a new room
    instance, which has no member and no listener yet. *)
Definition createRoom (name : option string) (opts : RoomOptions) : Js nat :=
  w <- get ;;
  act (CreateRoom name opts) ;;
  modify (with_rooms (fun rs => rs ++ [mkChatRoom name opts [] [] []])) ;;
  ret (length (rooms w)).

(** [this.mainRoom.join(password)]: the promise it returns is the room
    abstraction's. *)
Definition mainRoom_join (password : JsString) : Js PromiseRef :=
  w <- get ;;
  act (MainRoomJoin password) ;;
  ret (MainJoin (length (trace w))).

(** Modelled from the spec: [mainRoom.addEventListener(eventName, handler)]
    of the room abstraction, which keeps the handlers in the order of their
    registration. *)
Definition mainRoom_addEventListener (name : XMPPEvent) (h : Handler)
    : Js unit :=
  modify (with_mainRoom (fun m =>
    mkMainRoom (roomjid m) (joined m) (isModerator m)
      (mainListeners m ++ [(name, h)]))).

(** Reading [this.lobbyRoom.something]: a [TypeError] when the field is
    [undefined]. *)
Definition this_lobbyRoom : Js (nat * ChatRoom) :=
  w <- get ;;
  match lobbyRoom w with
  | Some r =>
      match nth_error (rooms w) r with
      | Some room => ret (r, room)
      | None => throw (TypeError "Cannot read properties of undefined")
      end
  | None => throw (TypeError "Cannot read properties of undefined")
  end.

Definition lobbyRoom_act (a : nat -> Action) : Js unit :=
  r <- this_lobbyRoom ;;
  act (a (fst r)).

Definition lobbyRoom_update (f : ChatRoom -> ChatRoom) : Js unit :=
  r <- this_lobbyRoom ;;
  modify (with_rooms (update_nth (fst r) f)).

(** Modelled from the spec: [addEventListener] and [addPresenceListener] of
    the room abstraction, as for the main room. *)
Definition lobbyRoom_addEventListener (name : XMPPEvent) (h : Handler)
    : Js unit :=
  lobbyRoom_update (fun room =>
    mkChatRoom (roomName room) (options room) (members room)
      (eventListeners room ++ [(name, h)]) (presenceListeners room)).

Definition lobbyRoom_addPresenceListener (cmd : string) (h : Handler)
    : Js unit :=
  lobbyRoom_update (fun room =>
    mkChatRoom (roomName room) (options room) (members room)
      (eventListeners room) (presenceListeners room ++ [(cmd, h)])).

Definition emit (n : Notification) : Js unit := act (Emit n).

(** *** Promises *)

Definition PromiseRef_eqb (a b : PromiseRef) : bool :=
  match a, b with
  | Own p, Own q => p =? q
  | MainJoin p, MainJoin q => p =? q
  | _, _ => false
  end%nat.

(** [new Promise(...)]: the number of the new, pending promise. *)
Definition new_promise : Js nat :=
  w <- get ;;
  modify (with_promises (fun ps => ps ++ [Pending])) ;;
  ret (length (promises w)).

(** [Promise.reject(e)]. *)
Definition Promise_reject (e : JsError) : Js PromiseRef :=
  w <- get ;;
  modify (with_promises (fun ps => ps ++ [Settled (Rejected e)])) ;;
  ret (Own (length (promises w))).

(** [resolve] and [reject] do nothing on a promise that is settled. *)
Definition settle_state (o : Outcome) (s : PromiseState) : PromiseState :=
  match s with
  | Pending => Settled o
  | Settled first => Settled first
  end.

Definition settle_only (p : nat) (o : Outcome) (w : World) : World :=
  with_promises (update_nth p (settle_state o)) w.

(** [source.then(onFulfilled)] and [derived.catch(onRejected)], for
    handlers that return nothing and do not throw: the outcome of the
    derived promise and the world after the handler. *)
Definition then_ (onFulfilled : World -> World) (o : Outcome) (w : World)
    : Outcome * World :=
  match o with
  | Fulfilled => (Fulfilled, onFulfilled w)
  | Rejected e => (Rejected e, w)
  end.

Definition catch_ (onRejected : JsError -> World -> World)
    (ow : Outcome * World) : Outcome * World :=
  match fst ow with
  | Fulfilled => ow
  | Rejected e => (Fulfilled, onRejected e (snd ow))
  end.

(** [source.then(resolve).catch(reject)] once [source] has settled with
    [o], for the [resolve] and [reject] of promise [p]. *)
Definition then_resolve_catch_reject (p : nat) (o : Outcome) (w : World)
    : World :=
  snd (catch_ (fun e => settle_only p (Rejected e))
         (then_ (settle_only p Fulfilled) o w)).

(** The reactions registered on [source] run when it settles.  The promises
    on the right of a link are those of [enableLobby], on which the
    controller registers no reaction of its own. *)
Definition run_reactions (source : PromiseRef) (o : Outcome) (w : World)
    : World :=
  fold_left
    (fun w' l =>
       if PromiseRef_eqb (fst l) source
       then then_resolve_catch_reject (snd l) o w'
       else w')
    (links w) w.

Definition settle (p : nat) (o : Outcome) : Js unit :=
  w <- get ;;
  match nth_error (promises w) p with
  | Some Pending =>
      modify (settle_only p o) ;;
      modify (run_reactions (Own p) o)
  | _ => ret tt
  end.

Definition resolve (p : nat) : Js unit := settle p Fulfilled.

Definition reject (p : nat) (e : JsError) : Js unit := settle p (Rejected e).

(** Registering [source.then(resolve).catch(reject)]: at once when [source]
    has settled already. *)
Definition link (source : PromiseRef) (p : nat) : Js unit :=
  w <- get ;;
  match source with
  | Own s =>
      match nth_error (promises w) s with
      | Some (Settled o) => modify (then_resolve_catch_reject p o)
      | _ => modify (with_links (fun ls => ls ++ [(source, p)]))
      end
  | MainJoin _ => modify (with_links (fun ls => ls ++ [(source, p)]))
  end.

(** ** The methods of [Lobby] *)

Definition js_to_string (x : option string) : string :=
  match x with
  | Some s => s
  | None => "undefined"
  end.

Definition muc_owner : string := "http://jabber.org/protocol/muc#owner".

(** Whether lobby is supported on backend. *)
Definition isLobbySupported : Js bool :=
  w <- get ;;
  ret (truthy (lobbyroomComponentAddress (xmpp w))).

(** The query sent first by [enableLobby]. *)
Definition config_query (room : string) : Builder.t :=
  iq [("to", room); ("type", "get")]
  |> Builder.c "query" [("xmlns", muc_owner)].

(** [$(res).find('>query>x[xmlns="jabber:x:data"]>field[var="muc#roomconfig_membersonly"]').length]. *)
Definition membersonly_fields (res : Xml) : list Xml :=
  [res]
  |> select_children "query" None
  |> select_children "x" (Some ("xmlns", "jabber:x:data"))
  |> select_children "field" (Some ("var", "muc#roomconfig_membersonly")).

(** The [formsubmit] stanza of [enableLobby]. *)
Definition formsubmit (room : string) (password : JsString) : Builder.t :=
  let formsubmit :=
    iq [("to", room); ("type", "set")]
    |> Builder.c "query" [("xmlns", muc_owner)] in
  let formsubmit :=
    formsubmit |> Builder.c "x" [("xmlns", "jabber:x:data"); ("type", "submit")] in
  let formsubmit :=
    formsubmit
    |> Builder.c "field" [("var", "FORM_TYPE")]
    |> Builder.c "value" []
    |> Builder.text "http://jabber.org/protocol/muc#roomconfig"
    |> Builder.up
    |> Builder.up in
  let formsubmit :=
    formsubmit
    |> Builder.c "field" [("var", "muc#roomconfig_membersonly")]
    |> Builder.c "value" []
    |> Builder.text "true"
    |> Builder.up
    |> Builder.up in
  if truthy password then
    formsubmit
    |> Builder.c "field" [("var", "muc#roomconfig_lobbypassword")]
    |> Builder.c "value" []
    |> Builder.text (js_to_string password)
    |> Builder.up
    |> Builder.up
  else formsubmit.

(** Enables lobby by setting the main room to be members only and joins the
    lobby chat room.  The two callbacks of the query are
    [ConfigFormReply]. *)
Definition enableLobby (password : JsString) : Js PromiseRef :=
  supported <- isLobbySupported ;;
  if negb supported then Promise_reject (Error "Lobby not supported!")
  else
    p <- new_promise ;;
    w <- get ;;
    sendIQ (config_query (roomjid (mainRoom w))) (ConfigFormReply p password) ;;
    ret (Own p).

(** Joins a lobby room setting display name and eventually avatar (using
    the email provided). *)
Definition joinLobbyRoom (displayName email password : JsString)
    : Js PromiseRef :=
  w <- get ;;
  let isModerator := joined (mainRoom w) && isModerator (mainRoom w) in
  if truthy password && negb isModerator then mainRoom_join password
  else
    let roomName := Strophe.getNodeFromJid (roomjid (mainRoom w)) in
    r <- createRoom roomName
           (mkOptions true true (lobbyroomComponentAddress (xmpp w))) ;;
    modify (with_lobbyRoom (Some r)) ;;
    when (truthy displayName)
      (lobbyRoom_act (fun r => RemoveFromPresence r "nick") ;;
       lobbyRoom_act (fun r =>
         AddToPresence r "nick" displayName
           [("xmlns", "http://jabber.org/protocol/nick")])) ;;
    (if isModerator then
       lobbyRoom_addPresenceListener EMAIL_COMMAND OnEmailCommand ;;
       lobbyRoom_addEventListener MUC_MEMBER_JOINED OnMemberJoined
     else
       lobbyRoom_addEventListener KICKED OnKicked ;;
       mainRoom_addEventListener INVITE_MESSAGE_RECEIVED OnInvite) ;;
    p <- new_promise ;;
    lobbyRoom_addEventListener MUC_JOINED (OnLobbyJoined p email isModerator) ;;
    lobbyRoom_addEventListener ROOM_JOIN_ERROR (OnJoinFailed p) ;;
    lobbyRoom_addEventListener ROOM_CONNECT_NOT_ALLOWED_ERROR (OnJoinFailed p) ;;
    lobbyRoom_addEventListener ROOM_CONNECT_ERROR (OnJoinFailed p) ;;
    lobbyRoom_act Join ;;
    ret (Own p).

(** [Object.keys(this.lobbyRoom.members).find(j => Strophe.getResourceFromJid(j) === id)]. *)
Definition find_member (id : string) (room : ChatRoom) : option string :=
  find (fun j => option_string_eqb (Strophe.getResourceFromJid j) id)
    (map fst (members room)).

(** [members[roomJid]]. *)
Definition member_at (roomJid : string) (room : ChatRoom) : option Member :=
  option_map snd (find (fun kv => fst kv =? roomJid) (members room)).

Definition not_found (jid : option string) : string :=
  "Not found member for " ++ js_to_string jid ++ " in lobby room.".

(** Should be possible only for moderators. *)
Definition denyAccess (id : string) : Js unit :=
  supported <- isLobbySupported ;;
  w <- get ;;
  if negb supported || negb (isModerator (mainRoom w)) then ret tt
  else
    r <- this_lobbyRoom ;;
    let jid := find_member id (snd r) in
    if truthy jid then act (Kick (fst r) (js_to_string jid))
    else logger_error (not_found jid).

(** The [msgToSend] stanza of [approveAccess]. *)
Definition invite (room jid : string) : Builder.t :=
  msg [("to", room)]
  |> Builder.c "x" [("xmlns", "http://jabber.org/protocol/muc#user")]
  |> Builder.c "invite" [("to", jid)].

(** Should be possible only for moderators. *)
Definition approveAccess (id : string) : Js unit :=
  supported <- isLobbySupported ;;
  w <- get ;;
  if negb supported || negb (isModerator (mainRoom w)) then ret tt
  else
    r <- this_lobbyRoom ;;
    let roomJid := find_member id (snd r) in
    if truthy roomJid then
      match member_at (js_to_string roomJid) (snd r) with
      | Some member =>
          sendIQ (invite (roomjid (mainRoom w)) (jid member))
            (InviteReply (jid member))
      | None => throw (TypeError "Cannot read properties of undefined")
      end
    else logger_error (not_found roomJid).

(** ** Callbacks and listeners *)

(** The success callback given to [sendIQ]. *)
Definition on_success (cb : IqCallback) (res : Xml) : Js unit :=
  match cb with
  | ConfigFormReply p password =>
      if (0 <? length (membersonly_fields res))%nat then
        w <- get ;;
        sendIQ (formsubmit (roomjid (mainRoom w)) password)
          (ConfigSubmitReply p)
      else reject p (Error "Setting members only room not supported!")
  | ConfigSubmitReply p =>
      j <- joinLobbyRoom None None None ;;
      link j p
  | InviteReply _ => ret tt
  end.

(** The error callback given to [sendIQ]. *)
Definition on_error (cb : IqCallback) (e : JsError) : Js unit :=
  match cb with
  | ConfigFormReply p _ => reject p e
  | ConfigSubmitReply p => reject p e
  | InviteReply jid => logger_error ("Error sending invite for " ++ jid)
  end.

(** [this.lobbyRoom.leave().then(() => { }).catch(() => { })] once the
    leave has settled with [o]: the outcome of the last promise of the chain
    and the world. *)
Definition leave_settled (o : Outcome) (w : World) : Outcome * World :=
  catch_ (fun _ w' => w') (then_ (fun w' => w') o w).

(** The listeners, on the arguments they are fired with. *)
Definition run_handler (h : Handler) (f : Fired) : Js unit :=
  match h, f with
  | OnEmailCommand, Presence node from =>
      emit (MUC_LOBBY_MEMBER_UPDATED from (value node))
  | OnMemberJoined, MemberJoined from nick _ _ _ _ identity =>
      emit (MUC_LOBBY_MEMBER_JOINED (Strophe.getResourceFromJid from) nick
              (match identity with
               | Some i => avatar i
               | None => None
               end))
  | OnKicked, Kicked isSelfPresence =>
      when isSelfPresence
        (emit MUC_DENIED_ACCESS ;;
         lobbyRoom_act Clean)
  | OnInvite, InviteMessageReceived roomJid from txt =>
      logger_debug ("Received approval to join " ++ roomJid ++ " " ++ from
                    ++ " " ++ js_to_string txt) ;;
      w <- get ;;
      when (roomJid =? roomjid (mainRoom w))
        (mainRoom_join None ;;
         lobbyRoom_act Leave)
  | OnLobbyJoined p email isModerator, MucJoined =>
      resolve p ;;
      when (truthy email && negb isModerator)
        (lobbyRoom_act (fun r => RemoveFromPresence r EMAIL_COMMAND) ;;
         lobbyRoom_act (fun r => AddToPresence r EMAIL_COMMAND email []) ;;
         lobbyRoom_act SendPresence)
  | OnJoinFailed p, RoomJoinError e => reject p e
  | OnJoinFailed p, RoomConnectNotAllowedError e => reject p e
  | OnJoinFailed p, RoomConnectError e => reject p e
  | _, _ => ret tt
  end.

Definition event_of (f : Fired) : option XMPPEvent :=
  match f with
  | Presence _ _ => None
  | MemberJoined _ _ _ _ _ _ _ => Some MUC_MEMBER_JOINED
  | Kicked _ => Some KICKED
  | InviteMessageReceived _ _ _ => Some INVITE_MESSAGE_RECEIVED
  | MucJoined => Some MUC_JOINED
  | RoomJoinError _ => Some ROOM_JOIN_ERROR
  | RoomConnectNotAllowedError _ => Some ROOM_CONNECT_NOT_ALLOWED_ERROR
  | RoomConnectError _ => Some ROOM_CONNECT_ERROR
  end.

Definition listening (f : Fired) (ls : list (XMPPEvent * Handler))
    : list Handler :=
  match event_of f with
  | Some name => map snd (filter (fun l => XMPPEvent_eqb (fst l) name) ls)
  | None => []
  end.

(** Modelled from the spec: the event dispatch of the room abstraction.  A
    room calls the listeners registered for the event (for a presence
    command, those registered for the node's tag) in the order of their
    registration. *)
Definition listeners_of (f : Fired) (room : ChatRoom) : list Handler :=
  match f with
  | Presence node _ =>
      map snd (filter (fun l => fst l =? tagName node) (presenceListeners room))
  | _ => listening f (eventListeners room)
  end.

Definition fire (r : nat) (f : Fired) : Js unit :=
  w <- get ;;
  match nth_error (rooms w) r with
  | Some room => for_each (fun h => run_handler h f) (listeners_of f room)
  | None => ret tt
  end.

Definition fire_main (f : Fired) : Js unit :=
  w <- get ;;
  for_each (fun h => run_handler h f) (listening f (mainListeners (mainRoom w))).

(** The reply to request [n] reaches its callback once. *)
Definition take_callback (n : nat) : Js (option IqCallback) :=
  w <- get ;;
  match nth_error (pendingIQ (xmpp w)) n with
  | Some (Some cb) =>
      modify (with_xmpp (fun x =>
        mkXMPP (lobbyroomComponentAddress x)
          (update_nth n (fun _ => None) (pendingIQ x)))) ;;
      ret (Some cb)
  | _ => ret None
  end.

(** ** The event loop *)

Inductive Input : Type :=
(* calls of the application *)
| CallEnableLobby (password : JsString)
| CallJoinLobbyRoom (displayName email password : JsString)
| CallDenyAccess (id : string)
| CallApproveAccess (id : string)
(* replies of the connection *)
| IqResult (n : nat) (res : Xml)
| IqError (n : nat) (e : JsError)
(* events of the rooms *)
| Fires (room : nat) (f : Fired)
| MainFires (f : Fired)
| LeaveSettled (o : Outcome)
| MainJoinSettled (call : nat) (o : Outcome)
(* the rooms' own state *)
| MainRoomState (joined moderator : bool)
| MembersState (room : nat) (ms : list (string * Member)).

Definition handle (i : Input) : Js unit :=
  match i with
  | CallEnableLobby password => enableLobby password ;; ret tt
  | CallJoinLobbyRoom displayName email password =>
      joinLobbyRoom displayName email password ;; ret tt
  | CallDenyAccess id => denyAccess id
  | CallApproveAccess id => approveAccess id
  | IqResult n res =>
      cb <- take_callback n ;;
      match cb with
      | Some cb => on_success cb res
      | None => ret tt
      end
  | IqError n e =>
      cb <- take_callback n ;;
      match cb with
      | Some cb => on_error cb e
      | None => ret tt
      end
  | Fires r f => fire r f
  | MainFires f => fire_main f
  | LeaveSettled o => modify (fun w => snd (leave_settled o w))
  | MainJoinSettled call o => modify (run_reactions (MainJoin call) o)
  | MainRoomState j m =>
      modify (with_mainRoom (fun r =>
        mkMainRoom (roomjid r) j m (mainListeners r)))
  | MembersState r ms =>
      modify (with_rooms (update_nth r (fun room =>
        mkChatRoom (roomName room) (options room) ms (eventListeners room)
          (presenceListeners room))))
  end.

(** One turn of the event loop; an exception ends the turn. *)
Definition step (w : World) (i : Input) : World := snd (handle i w).

Definition run (w : World) (inputs : list Input) : World :=
  fold_left step inputs w.

Definition state_of (p : PromiseRef) (w : World) : option PromiseState :=
  match p with
  | Own n => nth_error (promises w) n
  | MainJoin _ => None
  end.

(** * The vocabulary of the properties *)

(** ** Moderator actions *)

(** "No stanza is sent and no state changes": everything but the log is as
    before. *)
Definition same_but_log (w w' : World) : Prop :=
  xmpp w' = xmpp w /\ mainRoom w' = mainRoom w /\ lobbyRoom w' = lobbyRoom w
  /\ rooms w' = rooms w /\ promises w' = promises w /\ links w' = links w
  /\ trace w' = trace w.

(** The stanza of [approveAccess], as sent. *)
Definition invite_message (room jid : string) : Xml :=
  Elem "message" [("to", room)]
    [Elem "x" [("xmlns", "http://jabber.org/protocol/muc#user")]
       [Elem "invite" [("to", jid)] []]].

(** ** Addresses in a room *)



(** ** Joining the lobby *)

(** The [isModerator] constant of [joinLobbyRoom]. *)
Definition joined_moderator (w : World) : bool :=
  joined (mainRoom w) && isModerator (mainRoom w).

(** The listeners that the promise of [joinLobbyRoom] adds. *)
Definition join_listeners (p : nat) (email : JsString) (moderator : bool)
    : list (XMPPEvent * Handler) :=
  [(MUC_JOINED, OnLobbyJoined p email moderator);
   (ROOM_JOIN_ERROR, OnJoinFailed p);
   (ROOM_CONNECT_NOT_ALLOWED_ERROR, OnJoinFailed p);
   (ROOM_CONNECT_ERROR, OnJoinFailed p)].

(** The lobby room as [joinLobbyRoom] leaves it. *)
Definition lobby_room_of (w : World) (email : JsString) : ChatRoom :=
  mkChatRoom
    (Strophe.getNodeFromJid (roomjid (mainRoom w)))
    (mkOptions true true (lobbyroomComponentAddress (xmpp w)))
    []
    ((if joined_moderator w then [(MUC_MEMBER_JOINED, OnMemberJoined)]
      else [(KICKED, OnKicked)])
     ++ join_listeners (length (promises w)) email (joined_moderator w))
    (if joined_moderator w then [(EMAIL_COMMAND, OnEmailCommand)] else []).

(** The calls that [joinLobbyRoom] makes on the way. *)
Definition lobby_join_calls (w : World) (displayName : JsString)
    : list Action :=
  let r := length (rooms w) in
  [CreateRoom (Strophe.getNodeFromJid (roomjid (mainRoom w)))
     (mkOptions true true (lobbyroomComponentAddress (xmpp w)))]
  ++ (if truthy displayName then
        [RemoveFromPresence r "nick";
         AddToPresence r "nick" displayName
           [("xmlns", "http://jabber.org/protocol/nick")]]
      else [])
  ++ [Join r].

Definition approval_received (roomJid from : string) (txt : JsString)
    : LogLine :=
  LogDebug ("Received approval to join " ++ roomJid ++ " " ++ from ++ " "
            ++ js_to_string txt).

(** The three events that reject the promise of [joinLobbyRoom]. *)
Inductive JoinFailure : Fired -> JsError -> Prop :=
| join_error e : JoinFailure (RoomJoinError e) e
| connect_not_allowed e : JoinFailure (RoomConnectNotAllowedError e) e
| connect_error e : JoinFailure (RoomConnectError e) e.

(** ** Promises *)

(** Settling with [o] takes a promise that is pending or settled with [o]
    to such a state again. *)
Definition pending_or (o : Outcome) (s : option PromiseState) : Prop :=
  s = Some Pending \/ s = Some (Settled o).

(** ** What a turn of the event loop keeps *)

(** A computation whose final world is related by [R] to its first one,
    whether it returns or throws. *)
Definition respects (R : World -> World -> Prop) {A : Type} (m : Js A)
    : Prop :=
  forall w, R w (snd (m w)).

Definition same_listeners (room room' : ChatRoom) : Prop :=
  eventListeners room' = eventListeners room
  /\ presenceListeners room' = presenceListeners room.

(** [this.lobbyRoom], when set, refers to a room that was made. *)
Definition lobbyRoom_valid (w : World) : Prop :=
  forall r, lobbyRoom w = Some r -> r < length (rooms w).

(** The listeners on the main room are those of the waiting participants'
    [joinLobbyRoom] calls. *)
Definition invite_listeners_only (w : World) : Prop :=
  Forall (fun l => l = (INVITE_MESSAGE_RECEIVED, OnInvite))
    (mainListeners (mainRoom w)).

(** From [w] to [w']: the main room keeps its identifier, its listeners are
    not removed, and no listener other than the invite listener is
    added. *)
Definition main_room_kept (w w' : World) : Prop :=
  roomjid (mainRoom w') = roomjid (mainRoom w)
  /\ (invite_listeners_only w -> invite_listeners_only w')
  /\ length (mainListeners (mainRoom w))
     <= length (mainListeners (mainRoom w')).

(** From [w] to [w']: a lobby room reference is not given up and stays
    valid, every room that exists keeps its listeners, and the main room is
    kept. *)
Definition keeps (w w' : World) : Prop :=
  (lobbyRoom w <> None -> lobbyRoom w' <> None)
  /\ (lobbyRoom_valid w -> lobbyRoom_valid w')
  /\ (forall r room,
        nth_error (rooms w) r = Some room ->
        exists room', nth_error (rooms w') r = Some room'
                      /\ same_listeners room room')
  /\ main_room_kept w w'.

(** ** Enabling the lobby *)

(** The query for the configuration form, as sent. *)
Definition config_query_stanza (room : string) : Xml :=
  Elem "iq" [("to", room); ("type", "get")]
    [Elem "query" [("xmlns", muc_owner)] []].

Definition field (var val : string) : Xml :=
  Elem "field" [("var", var)] [Elem "value" [] [Text val]].

(** The configuration submission, as sent. *)
Definition config_submission (room : string) (password : JsString) : Xml :=
  Elem "iq" [("to", room); ("type", "set")]
    [Elem "query" [("xmlns", muc_owner)]
       [Elem "x" [("xmlns", "jabber:x:data"); ("type", "submit")]
          ([field "FORM_TYPE" "http://jabber.org/protocol/muc#roomconfig";
            field "muc#roomconfig_membersonly" "true"]
           ++ (if truthy password
               then [field "muc#roomconfig_lobbypassword"
                       (js_to_string password)]
               else []))]].

(** The fields named [var] of a configuration stanza. *)
Definition fields_named (var : string) (stanza : Xml) : list Xml :=
  [stanza]
  |> select_children "query" None
  |> select_children "x" (Some ("xmlns", "jabber:x:data"))
  |> select_children "field" (Some ("var", var)).

(** The error of [enableLobby] on a form without the members-only field. *)
Definition ConfigurationError : JsError :=
  Error "Setting members only room not supported!".

(** The world when the submission has been acknowledged and its callback
    is about to run: both requests of [enableLobby] are answered. *)
Definition submitted (password : JsString) (w : World) : World :=
  mkWorld
    (mkXMPP (lobbyroomComponentAddress (xmpp w))
       ((pendingIQ (xmpp w) ++ [None]) ++ [None]))
    (mainRoom w) (lobbyRoom w) (rooms w) (promises w ++ [Pending]) (links w)
    ((trace w ++ [SendIQ (config_query_stanza (roomjid (mainRoom w)))])
     ++ [SendIQ (config_submission (roomjid (mainRoom w)) password)])
    (log w).

(** A configuration submission: an [iq] of type [set] handed to
    [sendIQ]. *)
Definition is_submission (a : Action) : bool :=
  match a with
  | SendIQ x =>
      option_string_eqb (tag_of x) "iq"
      && option_string_eqb (attr "type" x) "set"
  | _ => false
  end.

Definition submissions (w : World) : list Action :=
  filter is_submission (trace w).

(** A request whose reply is still awaited by the first callback of
    [enableLobby]. *)
Definition awaits_form (cb : option IqCallback) : bool :=
  match cb with
  | Some (ConfigFormReply _ _) => true
  | _ => false
  end.

Definition no_form_awaited (w : World) : Prop :=
  existsb awaits_form (pendingIQ (xmpp w)) = false.

(** From [w] to [w']: if no configuration form is awaited, none is awaited
    afterwards and no submission has been sent in between. *)
Definition quiet (w w' : World) : Prop :=
  no_form_awaited w ->
  no_form_awaited w' /\ submissions w' = submissions w.

Definition is_enableLobby (i : Input) : bool :=
  match i with
  | CallEnableLobby _ => true
  | _ => false
  end.

(** ** Further vocabulary *)

(** From [w] to [w']: every promise that is settled keeps its outcome. *)
Definition settled_kept (w w' : World) : Prop :=
  forall p o,
    nth_error (promises w) p = Some (Settled o) ->
    nth_error (promises w') p = Some (Settled o).

(** [this.lobbyRoom] is [undefined] as long as no room was made, and the
    room made last otherwise. *)
Definition latest_room (w : World) : Prop :=
  match lobbyRoom w with
  | Some r => S r = length (rooms w)
  | None => rooms w = []
  end.

Definition latest_kept (w w' : World) : Prop :=
  latest_room w -> latest_room w'.

(** [this.lobbyRoom] is a room. *)
Definition lobby_defined (w : World) : Prop :=
  exists r room, lobbyRoom w = Some r /\ nth_error (rooms w) r = Some room.

(** A listener on the main room comes with a lobby room. *)
Definition listeners_have_lobby (w : World) : Prop :=
  mainListeners (mainRoom w) <> [] -> lobbyRoom w <> None.

Definition listeners_kept (w w' : World) : Prop :=
  listeners_have_lobby w -> listeners_have_lobby w'.

Definition is_access (i : Input) : bool :=
  match i with
  | CallDenyAccess _ | CallApproveAccess _ => true
  | _ => false
  end.

(** * Scenarios *)

Module Scenario.

Definition backend : XMPP := mkXMPP (Some "lobby.example") [].

Definition no_lobby_backend : XMPP := mkXMPP None [].

(** The controller of somebody who is not in the main room. *)
Definition participant : World :=
  constructor backend (mkMainRoom "room1@conference.example" false false []).

(** The controller of a moderator of the main room. *)
Definition moderator : World :=
  constructor backend (mkMainRoom "room1@conference.example" true true []).

Definition unsupported : World :=
  constructor no_lobby_backend
    (mkMainRoom "room1@conference.example" true true []).

(** The moderator has joined the lobby room, where Alice waits. *)
Definition alice : string * Member :=
  ("room1@lobby.example/res123", mkMember "alice@example.com/res123").

Definition moderator_with_alice : World :=
  run moderator
    [CallJoinLobbyRoom None None None; Fires 0 MucJoined;
     MembersState 0 [alice]].

Definition lobby_options : RoomOptions :=
  mkOptions true true (Some "lobby.example").

(** A configuration form with the members-only field, and one without. *)
Definition form (fields : list Xml) : Xml :=
  Elem "iq" [("type", "result")]
    [Elem "query" [("xmlns", muc_owner)]
       [Elem "x" [("xmlns", "jabber:x:data"); ("type", "form")] fields]].

Definition members_only_form : Xml :=
  form [Elem "field" [("var", "muc#roomconfig_membersonly")] []].

Definition other_form : Xml :=
  form [Elem "field" [("var", "muc#roomconfig_roomname")] []].

End Scenario.

Import Scenario.

(** Three members wait in the moderator's lobby room; two of them have the
    resource res123. *)
Definition bob : string * Member :=
  ("room1@lobby.example/res456", mkMember "bob@example.com/res456").

Definition mallory : string * Member :=
  ("room2@lobby.example/res123", mkMember "mallory@example.com/res123").

Definition crowded_room : ChatRoom :=
  mkChatRoom (Some "room1") Scenario.lobby_options
    [bob; Scenario.alice; mallory]
    (eventListeners (lobby_room_of Scenario.moderator None))
    (presenceListeners (lobby_room_of Scenario.moderator None)).

Definition crowded_lobby : World :=
  run Scenario.moderator
    [CallJoinLobbyRoom None None None;
     MembersState 0 [bob; Scenario.alice; mallory]].

(** A configuration form whose element names are written in upper case. *)
Definition upper_case_form : Xml :=
  Elem "IQ" [("type", "result")]
    [Elem "QUERY" [("xmlns", muc_owner)]
       [Elem "X" [("xmlns", "jabber:x:data"); ("type", "form")]
          [Elem "FIELD" [("var", "muc#roomconfig_membersonly")] []]]].

(** * Properties *)

(** ** Lists and strings *)

Lemma nth_error_last {A : Type} (l : list A) (x : A) :
  nth_error (l ++ [x]) (length l) = Some x.
Proof.
  induction l as [|a l IH]; [reflexivity | exact IH].
Qed.

Lemma update_nth_last {A : Type} (f : A -> A) (l : list A) (x : A) :
  update_nth (length l) f (l ++ [x]) = l ++ [f x].
Proof.
  induction l as [|a l IH]; cbn; [reflexivity | now rewrite IH].
Qed.

Lemma nth_error_update_nth {A : Type} (f : A -> A) (n r : nat) (l : list A) :
  nth_error (update_nth n f l) r
  = if (r =? n)%nat then option_map f (nth_error l r) else nth_error l r.
Proof.
  revert n r. induction l as [|a l IH]; intros [|n] [|r]; cbn; auto.
  now destruct (r =? n)%nat.
Qed.

Lemma update_nth_length {A : Type} (f : A -> A) (n : nat) (l : list A) :
  length (update_nth n f l) = length l.
Proof.
  revert n; induction l as [|a l IH]; intros [|n]; cbn; auto.
Qed.

Lemma after_first_nonempty (c : ascii) (s rest : string) :
  Strophe.after_first c s = Some rest -> s <> "".
Proof.
  destruct s; cbn; [discriminate | intros _; discriminate].
Qed.

Lemma option_string_eqb_eq (a : option string) (b : string) :
  option_string_eqb a b = true <-> a = Some b.
Proof.
  destruct a as [s|]; cbn.
  - rewrite String.eqb_eq. split; [intros -> | intros [= ->]]; reflexivity.
  - split; discriminate.
Qed.

(** ** Looking a member up by its room-local identifier *)

(** The key that [find_member] yields is a key of the membership map whose
    resource part is [id]; being a key with a resource, it is truthy. *)
Lemma find_member_some (id : string) (room : ChatRoom) (j : string) :
  find_member id room = Some j ->
  In j (map fst (members room))
  /\ Strophe.getResourceFromJid j = Some id
  /\ truthy (Some j) = true.
Proof.
  unfold find_member. intros H.
  apply find_some in H. destruct H as [Hin Hres].
  apply option_string_eqb_eq in Hres.
  repeat split; try assumption.
  cbn. apply after_first_nonempty in Hres.
  destruct (String.eqb_spec j ""); [contradiction | reflexivity].
Qed.

Lemma find_member_none (id : string) (room : ChatRoom) :
  find_member id room = None <->
  forall j, In j (map fst (members room)) ->
            Strophe.getResourceFromJid j <> Some id.
Proof.
  unfold find_member. split.
  - intros H j Hin Hres.
    apply (find_none _ _ H) in Hin.
    apply option_string_eqb_eq in Hres. congruence.
  - intros H.
    destruct (find _ _) as [j|] eqn:E; [|reflexivity].
    apply find_some in E. destruct E as [Hin Hres].
    apply option_string_eqb_eq in Hres. now apply H in Hin.
Qed.

Lemma find_member_exists (id : string) (room : ChatRoom) :
  (exists j, In j (map fst (members room))
             /\ Strophe.getResourceFromJid j = Some id) ->
  exists j, find_member id room = Some j.
Proof.
  intros [j [Hin Hres]].
  destruct (find_member id room) as [k|] eqn:E; [now exists k|].
  exfalso. exact (proj1 (find_member_none id room) E j Hin Hres).
Qed.

(** A key of the map has an entry. *)
Lemma member_at_key (j : string) (room : ChatRoom) :
  In j (map fst (members room)) ->
  exists m, member_at j room = Some m /\ In (j, m) (members room).
Proof.
  unfold member_at. intros Hin.
  destruct (find (fun kv => fst kv =? j) (members room)) as [[k m]|] eqn:E.
  - apply find_some in E. destruct E as [Hin' Hk]. cbn in Hk.
    apply String.eqb_eq in Hk. subst k. now exists m.
  - apply in_map_iff in Hin. destruct Hin as [[k m] [Hk Hin]]. cbn in Hk.
    subst k. apply (find_none _ _ E) in Hin. cbn in Hin.
    now rewrite String.eqb_refl in Hin.
Qed.

(** ** Moderator actions *)

Ltac world_unfold :=
  unfold with_xmpp, with_mainRoom, with_lobbyRoom, with_rooms, with_promises,
    with_links, with_trace, with_log in *.

Ltac js_unfold :=
  unfold isLobbySupported, lobbyRoom_act, lobbyRoom_update, this_lobbyRoom,
    sendIQ, emit, act, logger_error, logger_debug, Promise_reject,
    new_promise, when, bind, get, modify, throw, ret in *.

(** Without lobby support the two actions return at once. *)
Lemma denyAccess_unsupported (id : string) (w : World) :
  truthy (lobbyroomComponentAddress (xmpp w)) = false ->
  denyAccess id w = (Normal tt, w).
Proof.
  intros H. unfold denyAccess. js_unfold. now rewrite H.
Qed.

Lemma approveAccess_unsupported (id : string) (w : World) :
  truthy (lobbyroomComponentAddress (xmpp w)) = false ->
  approveAccess id w = (Normal tt, w).
Proof.
  intros H. unfold approveAccess. js_unfold. now rewrite H.
Qed.

Lemma denyAccess_not_moderator (id : string) (w : World) :
  isModerator (mainRoom w) = false ->
  denyAccess id w = (Normal tt, w).
Proof.
  intros H. unfold denyAccess. js_unfold. rewrite H.
  now rewrite orb_true_r.
Qed.

Lemma approveAccess_not_moderator (id : string) (w : World) :
  isModerator (mainRoom w) = false ->
  approveAccess id w = (Normal tt, w).
Proof.
  intros H. unfold approveAccess. js_unfold. rewrite H.
  now rewrite orb_true_r.
Qed.

(** [denyAccess] with a lobby room, lobby support and a moderator. *)
Lemma denyAccess_moderator (id : string) (w : World) (r : nat)
    (room : ChatRoom) :
  truthy (lobbyroomComponentAddress (xmpp w)) = true ->
  isModerator (mainRoom w) = true ->
  lobbyRoom w = Some r ->
  nth_error (rooms w) r = Some room ->
  denyAccess id w =
    match find_member id room with
    | Some j => (Normal tt, with_trace (fun t => t ++ [Kick r j]) w)
    | None =>
        (Normal tt, with_log (fun l => l ++ [LogError (not_found None)]) w)
    end.
Proof.
  intros Hs Hm Hr Hroom. unfold denyAccess. js_unfold.
  rewrite Hs, Hm. cbn. rewrite Hr, Hroom. cbn.
  destruct (find_member id room) as [j|] eqn:E; [|reflexivity].
  destruct (find_member_some _ _ _ E) as [_ [_ Ht]]. now rewrite Ht.
Qed.

(** [approveAccess] with a lobby room, lobby support and a moderator. *)
Lemma approveAccess_moderator (id : string) (w : World) (r : nat)
    (room : ChatRoom) :
  truthy (lobbyroomComponentAddress (xmpp w)) = true ->
  isModerator (mainRoom w) = true ->
  lobbyRoom w = Some r ->
  nth_error (rooms w) r = Some room ->
  approveAccess id w =
    match find_member id room with
    | Some j =>
        match member_at j room with
        | Some member =>
            (Normal tt,
             with_xmpp
               (fun x =>
                  mkXMPP (lobbyroomComponentAddress x)
                    (pendingIQ x ++ [Some (InviteReply (jid member))]))
               (with_trace
                  (fun t =>
                     t ++ [SendIQ (invite_message (roomjid (mainRoom w))
                                     (jid member))])
                  w))
        | None =>
            (Throw (TypeError "Cannot read properties of undefined"), w)
        end
    | None =>
        (Normal tt, with_log (fun l => l ++ [LogError (not_found None)]) w)
    end.
Proof.
  intros Hs Hm Hr Hroom. unfold approveAccess. js_unfold.
  rewrite Hs, Hm. cbn. rewrite Hr, Hroom. cbn.
  destruct (find_member id room) as [j|] eqn:E; [|reflexivity].
  destruct (find_member_some _ _ _ E) as [_ [_ Ht]]. rewrite Ht.
  cbn [js_to_string].
  destruct (member_at j room) as [member|]; reflexivity.
Qed.

Lemma same_but_log_refl (w : World) : same_but_log w w.
Proof. repeat split. Qed.

Lemma same_but_log_logged (w : World) (f : list LogLine -> list LogLine) :
  same_but_log w (with_log f w).
Proof. repeat split. Qed.

(** C1. [denyAccess(id)] and [approveAccess(id)]: called by someone who is
    not a moderator of the main room they return with the world as it was;
    when no key of the lobby room's membership map has the resource [id],
    they send nothing and change nothing (at most an error is logged); when
    a key has it (with lobby support and a moderator), [denyAccess] kicks
    that member from the lobby room and [approveAccess] sends one message
    to the main room's address whose invite element names the member's
    full [jid]. *)
Theorem deny_approve_access (id : string) (w : World) :
  (isModerator (mainRoom w) = false ->
   denyAccess id w = (Normal tt, w) /\ approveAccess id w = (Normal tt, w))
  /\
  (forall (r : nat) (room : ChatRoom),
     lobbyRoom w = Some r ->
     nth_error (rooms w) r = Some room ->
     ((forall j, In j (map fst (members room)) ->
                 Strophe.getResourceFromJid j <> Some id) ->
      (exists w', denyAccess id w = (Normal tt, w') /\ same_but_log w w')
      /\ (exists w', approveAccess id w = (Normal tt, w')
                     /\ same_but_log w w'))
     /\
     ((exists j, In j (map fst (members room))
                 /\ Strophe.getResourceFromJid j = Some id) ->
      truthy (lobbyroomComponentAddress (xmpp w)) = true ->
      isModerator (mainRoom w) = true ->
      exists j member,
        In (j, member) (members room)
        /\ Strophe.getResourceFromJid j = Some id
        /\ denyAccess id w
           = (Normal tt, with_trace (fun t => t ++ [Kick r j]) w)
        /\ approveAccess id w
           = (Normal tt,
              with_xmpp
                (fun x =>
                   mkXMPP (lobbyroomComponentAddress x)
                     (pendingIQ x ++ [Some (InviteReply (jid member))]))
                (with_trace
                   (fun t =>
                      t ++ [SendIQ (invite_message (roomjid (mainRoom w))
                                      (jid member))])
                   w)))).
Proof.
  split.
  - intros H. split.
    + now apply denyAccess_not_moderator.
    + now apply approveAccess_not_moderator.
  - intros r room Hr Hroom. split.
    + intros Hnone. apply find_member_none in Hnone.
      destruct (truthy (lobbyroomComponentAddress (xmpp w))) eqn:Hs.
      * destruct (isModerator (mainRoom w)) eqn:Hm.
        -- rewrite (denyAccess_moderator id w r room Hs Hm Hr Hroom).
           rewrite (approveAccess_moderator id w r room Hs Hm Hr Hroom).
           rewrite Hnone. split; eexists; split; try reflexivity;
             apply same_but_log_logged.
        -- rewrite (denyAccess_not_moderator id w Hm).
           rewrite (approveAccess_not_moderator id w Hm).
           split; eexists; split; try reflexivity; apply same_but_log_refl.
      * rewrite (denyAccess_unsupported id w Hs).
        rewrite (approveAccess_unsupported id w Hs).
        split; eexists; split; try reflexivity; apply same_but_log_refl.
    + intros Hex Hs Hm.
      destruct (find_member_exists id room Hex) as [j Hj].
      destruct (find_member_some _ _ _ Hj) as [Hin [Hres _]].
      destruct (member_at_key j room Hin) as [member [Hat Hmem]].
      exists j, member.
      rewrite (denyAccess_moderator id w r room Hs Hm Hr Hroom).
      rewrite (approveAccess_moderator id w r room Hs Hm Hr Hroom).
      rewrite Hj, Hat. repeat split; assumption.
Qed.

(** C9. On a backend without a lobby component address
    [isLobbySupported()] is false, [enableLobby] returns a promise that is
    rejected already, with nothing sent, and [denyAccess] and
    [approveAccess] return with the world as it was. *)
Theorem unsupported_backend (w : World) :
  truthy (lobbyroomComponentAddress (xmpp w)) = false ->
  isLobbySupported w = (Normal false, w)
  /\ (forall password,
        enableLobby password w
        = (Normal (Own (length (promises w))),
           with_promises
             (fun ps => ps ++ [Settled (Rejected (Error "Lobby not supported!"))])
             w))
  /\ (forall id,
        denyAccess id w = (Normal tt, w)
        /\ approveAccess id w = (Normal tt, w)).
Proof.
  intros H. repeat split.
  - unfold isLobbySupported. js_unfold. now rewrite H.
  - intros password. unfold enableLobby. js_unfold. now rewrite H.
  - now apply denyAccess_unsupported.
  - now apply approveAccess_unsupported.
Qed.

(** C10. With lobby support and a moderator, but no lobby room yet
    ([this.lobbyRoom] is [undefined]), [denyAccess] and [approveAccess]
    throw a [TypeError] at the member lookup; nothing has been sent or
    changed. *)
Theorem access_without_lobby_room_throws (id : string) (w : World) :
  truthy (lobbyroomComponentAddress (xmpp w)) = true ->
  isModerator (mainRoom w) = true ->
  lobbyRoom w = None ->
  (exists message, denyAccess id w = (Throw (TypeError message), w))
  /\ (exists message, approveAccess id w = (Throw (TypeError message), w)).
Proof.
  intros Hs Hm Hr. split; eexists.
  - unfold denyAccess. js_unfold. rewrite Hs, Hm. cbn. rewrite Hr.
    reflexivity.
  - unfold approveAccess. js_unfold. rewrite Hs, Hm. cbn. rewrite Hr.
    reflexivity.
Qed.

(** ** Joining the lobby *)

(** Past the shared-password test, [joinLobbyRoom] makes a room, keeps it in
    [this.lobbyRoom], registers its listeners, asks to join and returns a
    pending promise. *)
Lemma joinLobbyRoom_lobby (displayName email password : JsString)
    (w : World) :
  truthy password && negb (joined_moderator w) = false ->
  joinLobbyRoom displayName email password w =
    (Normal (Own (length (promises w))),
     mkWorld (xmpp w)
       (if joined_moderator w then mainRoom w
        else mkMainRoom (roomjid (mainRoom w)) (joined (mainRoom w))
               (isModerator (mainRoom w))
               (mainListeners (mainRoom w)
                ++ [(INVITE_MESSAGE_RECEIVED, OnInvite)]))
       (Some (length (rooms w)))
       (rooms w ++ [lobby_room_of w email])
       (promises w ++ [Pending])
       (links w)
       (trace w ++ lobby_join_calls w displayName)
       (log w)).
Proof.
  destruct w as [x [jid0 j m mls] lr rs ps ls t lg].
  unfold lobby_room_of, lobby_join_calls, joined_moderator. cbn.
  intros H. unfold joinLobbyRoom, createRoom, lobbyRoom_addEventListener,
    lobbyRoom_addPresenceListener, mainRoom_addEventListener. js_unfold.
  cbn. rewrite H.
  destruct (truthy displayName), (j && m);
    world_unfold; cbn;
    repeat (first [ rewrite nth_error_last
                  | rewrite update_nth_last
                  | rewrite <- app_assoc
                  | progress cbn ]);
    reflexivity.
Qed.

(** With a shared password and no moderator, [joinLobbyRoom] hands out the
    promise of [mainRoom.join(password)] and does nothing else. *)
Lemma joinLobbyRoom_shared_password (displayName email password : JsString)
    (w : World) :
  truthy password = true ->
  joined_moderator w = false ->
  joinLobbyRoom displayName email password w =
    (Normal (MainJoin (length (trace w))),
     with_trace (fun t => t ++ [MainRoomJoin password]) w).
Proof.
  unfold joined_moderator. intros Hp Hm.
  unfold joinLobbyRoom, mainRoom_join. js_unfold. cbn.
  now rewrite Hp, Hm.
Qed.

(** ** Promises *)

Lemma settle_only_settled (q : nat) (o' : Outcome) (ps : list PromiseState)
    (p : nat) (o : Outcome) :
  nth_error ps p = Some (Settled o) ->
  nth_error (update_nth q (settle_state o') ps) p = Some (Settled o).
Proof.
  revert p q. induction ps as [|s ps IH]; intros [|p] [|q]; cbn; auto.
  intros [= ->]. reflexivity.
Qed.

Lemma settle_only_pending (p : nat) (o : Outcome) (ps : list PromiseState) :
  nth_error ps p = Some Pending ->
  nth_error (update_nth p (settle_state o) ps) p = Some (Settled o).
Proof.
  revert p. induction ps as [|s ps IH]; intros [|p]; cbn; auto;
    try discriminate.
  intros [= ->]. reflexivity.
Qed.

(** Reactions only touch the promises. *)
Lemma then_resolve_catch_reject_promises (p : nat) (o : Outcome) (w : World) :
  then_resolve_catch_reject p o w
  = with_promises (fun _ => update_nth p (settle_state o) (promises w)) w.
Proof.
  destruct w, o; reflexivity.
Qed.

Lemma PromiseRef_eqb_eq (a b : PromiseRef) :
  PromiseRef_eqb a b = true <-> a = b.
Proof.
  destruct a as [p|p], b as [q|q]; cbn; rewrite ?Nat.eqb_eq;
    split; try discriminate; try congruence.
Qed.

Lemma settle_only_pending_or (q p : nat) (o : Outcome)
    (ps : list PromiseState) :
  pending_or o (nth_error ps p) ->
  pending_or o (nth_error (update_nth q (settle_state o) ps) p).
Proof.
  unfold pending_or. rewrite nth_error_update_nth.
  destruct (p =? q)%nat; [|auto].
  intros [-> | ->]; cbn; auto.
Qed.

Lemma settle_only_hit (p : nat) (o : Outcome) (ps : list PromiseState) :
  pending_or o (nth_error ps p) ->
  nth_error (update_nth p (settle_state o) ps) p = Some (Settled o).
Proof.
  unfold pending_or. rewrite nth_error_update_nth, Nat.eqb_refl.
  intros [-> | ->]; reflexivity.
Qed.

(** The reactions on [source] only touch the promises: a settled promise
    stays as it is, and a promise linked to [source] that was pending is
    settled with the outcome of [source]. *)
Lemma run_reactions_promises (source : PromiseRef) (o : Outcome) (w : World) :
  exists ps, run_reactions source o w = with_promises (fun _ => ps) w
             /\ (forall p o', nth_error (promises w) p = Some (Settled o') ->
                              nth_error ps p = Some (Settled o'))
             /\ (forall p, In (source, p) (links w) ->
                           pending_or o (nth_error (promises w) p) ->
                           nth_error ps p = Some (Settled o)).
Proof.
  unfold run_reactions.
  assert (G : forall (ls : list (PromiseRef * nat)) (v : World),
             exists ps,
               fold_left
                 (fun w' l =>
                    if PromiseRef_eqb (fst l) source
                    then then_resolve_catch_reject (snd l) o w'
                    else w') ls v
               = with_promises (fun _ => ps) v
               /\ (forall p o', nth_error (promises v) p = Some (Settled o') ->
                                nth_error ps p = Some (Settled o'))
               /\ (forall p, In (source, p) ls ->
                             pending_or o (nth_error (promises v) p) ->
                             nth_error ps p = Some (Settled o))).
  { induction ls as [|l ls IH]; intros v; cbn [fold_left].
    - exists (promises v). split; [now destruct v|]. split; [auto|].
      intros p [].
    - destruct (PromiseRef_eqb (fst l) source) eqn:El.
      + rewrite then_resolve_catch_reject_promises.
        destruct (IH (with_promises
                        (fun _ => update_nth (snd l) (settle_state o)
                                    (promises v)) v)) as [ps [E [K1 K2]]].
        exists ps. split; [rewrite E; now destruct v|]. split.
        * intros p o' Hp. apply K1. cbn. now apply settle_only_settled.
        * intros p [Hl | Hin] Hp.
          -- subst l. apply K1. cbn. now apply settle_only_hit.
          -- apply K2; [assumption|]. cbn. now apply settle_only_pending_or.
      + destruct (IH v) as [ps [E [K1 K2]]].
        exists ps. split; [assumption|]. split; [assumption|].
        intros p [Hl | Hin] Hp; [|now apply K2].
        subst l. cbn in El.
        assert (PromiseRef_eqb source source = true)
          by now apply PromiseRef_eqb_eq.
        congruence. }
  apply G.
Qed.

(** [resolve] and [reject] only touch the promises; a promise that is
    settled stays as it is, and the pending promise they are called on is
    settled with the outcome, as are the pending promises linked to it. *)
Lemma settle_promises (p : nat) (o : Outcome) (w : World) :
  exists ps,
    settle p o w = (Normal tt, with_promises (fun _ => ps) w)
    /\ (forall q o', nth_error (promises w) q = Some (Settled o') ->
                     nth_error ps q = Some (Settled o'))
    /\ (nth_error (promises w) p = Some Pending ->
        nth_error ps p = Some (Settled o)
        /\ forall q, In (Own p, q) (links w) ->
                     nth_error (promises w) q = Some Pending ->
                     nth_error ps q = Some (Settled o)).
Proof.
  unfold settle. js_unfold. cbv beta.
  destruct (nth_error (promises w) p) as [[|o0]|] eqn:E.
  - destruct (run_reactions_promises (Own p) o (settle_only p o w))
      as [ps [R [K1 K2]]].
    exists ps. cbv beta iota. rewrite R. split; [|split].
    + now destruct w.
    + intros q o' Hq. apply K1. cbn. now apply settle_only_settled.
    + intros _. split.
      * apply K1. cbn. now apply settle_only_pending.
      * intros q Hin Hq. apply K2; [now destruct w|].
        cbn. apply settle_only_pending_or. now left.
  - exists (promises w). split; [|split]; [now destruct w | auto |].
    intros [=].
  - exists (promises w). split; [|split]; [now destruct w | auto |].
    intros [=].
Qed.

(** ** Firing the listeners of the lobby room *)

Lemma lobbyRoom_act_defined (a : nat -> Action) (w : World) (r : nat)
    (room : ChatRoom) :
  lobbyRoom w = Some r ->
  nth_error (rooms w) r = Some room ->
  lobbyRoom_act a w = (Normal tt, with_trace (fun t => t ++ [a r]) w).
Proof.
  intros Hr Hroom. js_unfold. cbv beta. now rewrite Hr, Hroom.
Qed.

Lemma fire_room (r : nat) (f : Fired) (w : World) (room : ChatRoom) :
  nth_error (rooms w) r = Some room ->
  fire r f w = for_each (fun h => run_handler h f) (listeners_of f room) w.
Proof.
  intros H. unfold fire. js_unfold. cbv beta. now rewrite H.
Qed.

(** What the [MUC_JOINED] listener of [joinLobbyRoom] does: the promise is
    resolved, and a non-moderator with a truthy e-mail puts it into the
    presence and sends the presence. *)
Lemma run_OnLobbyJoined (p : nat) (email : JsString) (moderator : bool)
    (w : World) (r : nat) (room : ChatRoom) :
  lobbyRoom w = Some r ->
  nth_error (rooms w) r = Some room ->
  exists ps,
    run_handler (OnLobbyJoined p email moderator) MucJoined w
    = (Normal tt,
       with_trace
         (fun t =>
            t ++ (if truthy email && negb moderator
                  then [RemoveFromPresence r EMAIL_COMMAND;
                        AddToPresence r EMAIL_COMMAND email [];
                        SendPresence r]
                  else []))
         (with_promises (fun _ => ps) w))
    /\ (forall q o, nth_error (promises w) q = Some (Settled o) ->
                    nth_error ps q = Some (Settled o))
    /\ (nth_error (promises w) p = Some Pending ->
        nth_error ps p = Some (Settled Fulfilled)
        /\ forall q, In (Own p, q) (links w) ->
                     nth_error (promises w) q = Some Pending ->
                     nth_error ps q = Some (Settled Fulfilled)).
Proof.
  intros Hr Hroom.
  destruct (settle_promises p Fulfilled w) as [ps [E [K1 K2]]].
  exists ps. split; [|split; [assumption|]].
  2: { intros Hpend. exact (K2 Hpend). }
  cbn [run_handler]. unfold resolve, bind at 1. rewrite E.
  destruct (truthy email && negb moderator); cbn [when].
  - unfold bind.
    rewrite (lobbyRoom_act_defined _ _ r room) by (destruct w; assumption).
    rewrite (lobbyRoom_act_defined _ _ r room) by (destruct w; assumption).
    rewrite (lobbyRoom_act_defined _ _ r room) by (destruct w; assumption).
    destruct w. world_unfold. cbn. now rewrite <- !app_assoc.
  - unfold ret. destruct w. world_unfold. cbn. now rewrite app_nil_r.
Qed.

Lemma for_each_one {A : Type} (f : A -> Js unit) (a : A) (w : World) :
  snd (for_each f [a] w) = snd (f a w).
Proof.
  cbn. unfold bind, ret. destruct (f a w) as [[u|e] w']; reflexivity.
Qed.

(** ** The listeners of a waiting participant *)

Lemma run_OnKicked_self (w : World) (r : nat) (room : ChatRoom) :
  lobbyRoom w = Some r ->
  nth_error (rooms w) r = Some room ->
  run_handler OnKicked (Kicked true) w
  = (Normal tt,
     with_trace (fun t => t ++ [Emit MUC_DENIED_ACCESS; Clean r]) w).
Proof.
  intros Hr Hroom. cbn [run_handler when]. unfold bind at 1, emit, act, modify.
  rewrite (lobbyRoom_act_defined _ _ r room) by (destruct w; assumption).
  destruct w. world_unfold. cbn. now rewrite <- app_assoc.
Qed.

Lemma run_OnKicked_other (w : World) :
  run_handler OnKicked (Kicked false) w = (Normal tt, w).
Proof. reflexivity. Qed.

Lemma run_OnInvite_main_room (from : string) (txt : JsString) (w : World)
    (r : nat) (room : ChatRoom) :
  lobbyRoom w = Some r ->
  nth_error (rooms w) r = Some room ->
  run_handler OnInvite (InviteMessageReceived (roomjid (mainRoom w)) from txt) w
  = (Normal tt,
     with_trace (fun t => t ++ [MainRoomJoin None; Leave r])
       (with_log
          (fun l => l ++ [approval_received (roomjid (mainRoom w)) from txt])
          w)).
Proof.
  intros Hr Hroom. cbn [run_handler]. unfold mainRoom_join. js_unfold.
  world_unfold. cbn. rewrite String.eqb_refl. cbn. rewrite Hr, Hroom.
  destruct w. cbn. now rewrite <- app_assoc.
Qed.

Lemma run_OnInvite_other_room (roomJid from : string) (txt : JsString)
    (w : World) :
  roomJid <> roomjid (mainRoom w) ->
  run_handler OnInvite (InviteMessageReceived roomJid from txt) w
  = (Normal tt,
     with_log (fun l => l ++ [approval_received roomJid from txt]) w).
Proof.
  intros H. cbn [run_handler]. js_unfold. cbn.
  destruct (String.eqb_spec roomJid (roomjid (mainRoom w))); [contradiction|].
  reflexivity.
Qed.

(** The chain on [lobbyRoom.leave()] ends fulfilled whatever the leave
    does, and its handlers leave the world alone. *)
Lemma leave_settled_swallows (o : Outcome) (w : World) :
  leave_settled o w = (Fulfilled, w).
Proof. destruct o; reflexivity. Qed.

(** ** What a turn of the event loop keeps *)

Section Respects.

Variable R : World -> World -> Prop.
Hypothesis R_refl : forall w, R w w.
Hypothesis R_trans : forall w1 w2 w3, R w1 w2 -> R w2 w3 -> R w1 w3.

Lemma respects_ret {A : Type} (a : A) : respects R (ret a).
Proof. intros w. apply R_refl. Qed.

Lemma respects_get : respects R get.
Proof. intros w. apply R_refl. Qed.

Lemma respects_throw {A : Type} (e : JsError) : respects R (@throw A e).
Proof. intros w. apply R_refl. Qed.

Lemma respects_modify (f : World -> World) :
  (forall w, R w (f w)) -> respects R (modify f).
Proof. intros H w. apply H. Qed.

Lemma respects_bind {A B : Type} (m : Js A) (k : A -> Js B) :
  respects R m -> (forall a, respects R (k a)) -> respects R (bind m k).
Proof.
  intros Hm Hk w. unfold bind.
  specialize (Hm w). destruct (m w) as [[a|e] w']; cbn in *.
  - eapply R_trans; [exact Hm | apply Hk].
  - exact Hm.
Qed.

Lemma respects_when (b : bool) (m : Js unit) :
  respects R m -> respects R (when b m).
Proof. intros H. destruct b; [exact H | apply respects_ret]. Qed.

Lemma respects_for_each {A : Type} (f : A -> Js unit) (l : list A) :
  (forall a, respects R (f a)) -> respects R (for_each f l).
Proof.
  intros H. induction l as [|a l IH]; cbn.
  - apply respects_ret.
  - apply respects_bind; [apply H | intros _; exact IH].
Qed.

(** What most computations do: a call other than [sendIQ], a line in the
    log, a change of the promises or of the links. *)
Hypothesis R_act :
  forall a w, (forall x, a <> SendIQ x) ->
              R w (with_trace (fun t => t ++ [a]) w).
Hypothesis R_log : forall f w, R w (with_log f w).
Hypothesis R_promises : forall f w, R w (with_promises f w).
Hypothesis R_links : forall f w, R w (with_links f w).

Lemma respects_act (a : Action) :
  (forall x, a <> SendIQ x) -> respects R (act a).
Proof. intros H. apply respects_modify. intros w. now apply R_act. Qed.

Lemma respects_lobbyRoom_act (a : nat -> Action) :
  (forall r x, a r <> SendIQ x) -> respects R (lobbyRoom_act a).
Proof.
  intros H.
  unfold lobbyRoom_act. apply respects_bind.
  - unfold this_lobbyRoom. apply respects_bind; [apply respects_get|].
    intros w. destruct (lobbyRoom w) as [r|]; [|apply respects_throw].
    destruct (nth_error (rooms w) r);
      [apply respects_ret | apply respects_throw].
  - intros r. apply respects_act. apply H.
Qed.

Lemma respects_logger_error (text : string) : respects R (logger_error text).
Proof. apply respects_modify. intros w. apply R_log. Qed.

Lemma respects_logger_debug (text : string) : respects R (logger_debug text).
Proof. apply respects_modify. intros w. apply R_log. Qed.

Lemma respects_mainRoom_join (password : JsString) :
  respects R (mainRoom_join password).
Proof.
  unfold mainRoom_join. apply respects_bind; [apply respects_get|].
  intros w. apply respects_bind; [now apply respects_act|].
  intros _. apply respects_ret.
Qed.

Lemma respects_settle (p : nat) (o : Outcome) : respects R (settle p o).
Proof.
  intros w. destruct (settle_promises p o w) as [ps [E _]].
  rewrite E. apply R_promises.
Qed.

Lemma respects_link (source : PromiseRef) (p : nat) :
  respects R (link source p).
Proof.
  unfold link. apply respects_bind; [apply respects_get|]. intros w.
  destruct source as [s|c].
  - destruct (nth_error (promises w) s) as [[|o]|];
      apply respects_modify; intros v;
      try rewrite then_resolve_catch_reject_promises;
      first [apply R_links | apply R_promises].
  - apply respects_modify. intros v. apply R_links.
Qed.

(** The listeners, given that [this.lobbyRoom] is only read. *)
Lemma respects_run_handler (h : Handler) (f : Fired) :
  respects R (run_handler h f).
Proof.
  destruct h, f; cbn [run_handler]; try apply respects_ret.
  - now apply respects_act.
  - now apply respects_act.
  - apply respects_when. apply respects_bind; [now apply respects_act|].
    intros _. now apply respects_lobbyRoom_act.
  - apply respects_bind; [apply respects_logger_debug|]. intros _.
    apply respects_bind; [apply respects_get|]. intros w.
    apply respects_when. apply respects_bind; [apply respects_mainRoom_join|].
    intros _. now apply respects_lobbyRoom_act.
  - apply respects_bind; [apply respects_settle|]. intros _.
    apply respects_when.
    repeat (apply respects_bind; [now apply respects_lobbyRoom_act|];
            intros _).
    now apply respects_lobbyRoom_act.
  - apply respects_settle.
  - apply respects_settle.
  - apply respects_settle.
Qed.

Lemma respects_fire (r : nat) (f : Fired) : respects R (fire r f).
Proof.
  unfold fire. apply respects_bind; [apply respects_get|]. intros w.
  destruct (nth_error (rooms w) r); [|apply respects_ret].
  apply respects_for_each. intros h. apply respects_run_handler.
Qed.

Lemma respects_fire_main (f : Fired) : respects R (fire_main f).
Proof.
  unfold fire_main. apply respects_bind; [apply respects_get|]. intros w.
  apply respects_for_each. intros h. apply respects_run_handler.
Qed.

End Respects.

Lemma nth_error_app_old {A : Type} (l l' : list A) (r : nat) (a : A) :
  nth_error l r = Some a -> nth_error (l ++ l') r = Some a.
Proof.
  intros H. rewrite nth_error_app1; [assumption|].
  apply nth_error_Some. congruence.
Qed.

(** *** The lobby room reference and the listeners of the rooms *)

Lemma keeps_same (w w' : World) :
  lobbyRoom w' = lobbyRoom w -> rooms w' = rooms w ->
  mainRoom w' = mainRoom w -> keeps w w'.
Proof.
  intros Hl Hr Hm. split; [|split; [|split]].
  - now rewrite Hl.
  - unfold lobbyRoom_valid. now rewrite Hl, Hr.
  - intros r room H. exists room. rewrite Hr. now split.
  - unfold main_room_kept, invite_listeners_only. rewrite Hm. auto.
Qed.

Lemma keeps_refl (w : World) : keeps w w.
Proof. now apply keeps_same. Qed.

Lemma keeps_trans (w1 w2 w3 : World) :
  keeps w1 w2 -> keeps w2 w3 -> keeps w1 w3.
Proof.
  intros [L1 [V1 [K1 [J1 [I1 N1]]]]] [L2 [V2 [K2 [J2 [I2 N2]]]]].
  split; [auto|]. split; [auto|]. split.
  - intros r room H.
    destruct (K1 r room H) as [room2 [H2 [E2 P2]]].
    destruct (K2 r room2 H2) as [room3 [H3 [E3 P3]]].
    exists room3. split; [assumption|]. split; congruence.
  - split; [congruence|]. split; [auto | lia].
Qed.

Lemma keeps_trace f w : keeps w (with_trace f w).
Proof. now apply keeps_same. Qed.

Lemma keeps_log f w : keeps w (with_log f w).
Proof. now apply keeps_same. Qed.

Lemma keeps_promises f w : keeps w (with_promises f w).
Proof. now apply keeps_same. Qed.

Lemma keeps_links f w : keeps w (with_links f w).
Proof. now apply keeps_same. Qed.

Lemma keeps_xmpp f w : keeps w (with_xmpp f w).
Proof. now apply keeps_same. Qed.

Lemma keeps_mainRoom_state (j m : bool) (w : World) :
  keeps w
    (with_mainRoom
       (fun r => mkMainRoom (roomjid r) j m (mainListeners r)) w).
Proof.
  split; [auto|]. split; [auto|]. split.
  - intros r room H. exists room. now split.
  - split; [reflexivity|]. split; [auto | reflexivity].
Qed.

Lemma keeps_act a w :
  (forall x, a <> SendIQ x) -> keeps w (with_trace (fun t => t ++ [a]) w).
Proof. intros _. apply keeps_trace. Qed.

Ltac keeps_frame lemma :=
  apply lemma;
  first [ exact keeps_refl | exact keeps_trans | exact keeps_act
        | exact keeps_log | exact keeps_promises | exact keeps_links
        | discriminate ].

Lemma keeps_joinLobbyRoom (displayName email password : JsString) :
  respects keeps (joinLobbyRoom displayName email password).
Proof.
  intros w.
  destruct (truthy password && negb (joined_moderator w)) eqn:E.
  - apply andb_true_iff in E. destruct E as [Hp Hm].
    apply negb_true_iff in Hm.
    rewrite (joinLobbyRoom_shared_password _ _ _ _ Hp Hm).
    apply keeps_trace.
  - rewrite (joinLobbyRoom_lobby _ _ _ _ E). cbn [snd].
    split; [|split; [|split]].
    + discriminate.
    + intros _ r [= <-]. cbn [rooms]. rewrite length_app. cbn. lia.
    + intros r room H. exists room. cbn [rooms]. split.
      * now apply nth_error_app_old.
      * now split.
    + unfold main_room_kept, invite_listeners_only. cbn [mainRoom].
      destruct (joined_moderator w); cbn [roomjid mainListeners];
        [auto|].
      split; [reflexivity|]. split.
      * intros H. apply Forall_app. split; [assumption|].
        now constructor.
      * rewrite length_app. lia.
Qed.

Lemma keeps_sendIQ (stanza : Builder.t) (cb : IqCallback) :
  respects keeps (sendIQ stanza cb).
Proof.
  unfold sendIQ. apply respects_bind; [exact keeps_trans| |intros _].
  - intros w. apply keeps_trace.
  - intros w. apply keeps_xmpp.
Qed.

Lemma keeps_take_callback (n : nat) : respects keeps (take_callback n).
Proof.
  intros w. unfold take_callback. js_unfold. cbv beta.
  destruct (nth_error (pendingIQ (xmpp w)) n) as [[cb|]|]; cbn [snd];
    first [apply keeps_xmpp | apply keeps_refl].
Qed.

Lemma keeps_on_success (cb : IqCallback) (res : Xml) :
  respects keeps (on_success cb res).
Proof.
  destruct cb as [p password|p|jid0]; cbn [on_success].
  - destruct (0 <? length (membersonly_fields res))%nat.
    + apply respects_bind; [exact keeps_trans|exact keeps_refl|intros w].
      apply keeps_sendIQ.
    + keeps_frame respects_settle.
  - apply respects_bind; [exact keeps_trans|apply keeps_joinLobbyRoom|].
    intros j. keeps_frame respects_link.
  - intros w. apply keeps_refl.
Qed.

Lemma keeps_on_error (cb : IqCallback) (e : JsError) :
  respects keeps (on_error cb e).
Proof.
  destruct cb; cbn [on_error];
    first [keeps_frame respects_settle | keeps_frame respects_logger_error].
Qed.

Lemma keeps_enableLobby (password : JsString) :
  respects keeps (enableLobby password).
Proof.
  intros w. unfold enableLobby. js_unfold. cbv beta.
  destruct (truthy (lobbyroomComponentAddress (xmpp w))); cbn [negb snd].
  - eapply keeps_trans; [apply keeps_promises|].
    eapply keeps_trans; [apply keeps_trace|]. apply keeps_xmpp.
  - apply keeps_promises.
Qed.

Lemma keeps_denyAccess (id : string) : respects keeps (denyAccess id).
Proof.
  unfold denyAccess, isLobbySupported.
  apply respects_bind; [exact keeps_trans| |intros supported].
  { apply respects_bind; [exact keeps_trans|exact keeps_refl|].
    intros w. exact keeps_refl. }
  apply respects_bind; [exact keeps_trans|exact keeps_refl|intros w].
  destruct (negb supported || negb (isModerator (mainRoom w)));
    [exact keeps_refl|].
  apply respects_bind; [exact keeps_trans| |intros r].
  - intros v. unfold this_lobbyRoom. js_unfold. cbv beta.
    destruct (lobbyRoom v) as [r|]; [|apply keeps_refl].
    destruct (nth_error (rooms v) r); apply keeps_refl.
  - destruct (truthy (find_member id (snd r))).
    + keeps_frame respects_act.
    + keeps_frame respects_logger_error.
Qed.

Lemma keeps_approveAccess (id : string) : respects keeps (approveAccess id).
Proof.
  unfold approveAccess, isLobbySupported.
  apply respects_bind; [exact keeps_trans| |intros supported].
  { apply respects_bind; [exact keeps_trans|exact keeps_refl|].
    intros w. exact keeps_refl. }
  apply respects_bind; [exact keeps_trans|exact keeps_refl|intros w].
  destruct (negb supported || negb (isModerator (mainRoom w)));
    [exact keeps_refl|].
  apply respects_bind; [exact keeps_trans| |intros r].
  - intros v. unfold this_lobbyRoom. js_unfold. cbv beta.
    destruct (lobbyRoom v) as [r|]; [|apply keeps_refl].
    destruct (nth_error (rooms v) r); apply keeps_refl.
  - destruct (truthy (find_member id (snd r))).
    + destruct (member_at _ _); [apply keeps_sendIQ | exact keeps_refl].
    + keeps_frame respects_logger_error.
Qed.

Lemma keeps_handle (i : Input) : respects keeps (handle i).
Proof.
  destruct i as [password|displayName email password|id|id|n res|n e
                |room f|f|o|call o|j m|room ms]; cbn [handle].
  - apply respects_bind; [exact keeps_trans|apply keeps_enableLobby|].
    intros _. exact keeps_refl.
  - apply respects_bind; [exact keeps_trans|apply keeps_joinLobbyRoom|].
    intros _. exact keeps_refl.
  - apply keeps_denyAccess.
  - apply keeps_approveAccess.
  - apply respects_bind; [exact keeps_trans|apply keeps_take_callback|].
    intros [cb|]; [apply keeps_on_success | exact keeps_refl].
  - apply respects_bind; [exact keeps_trans|apply keeps_take_callback|].
    intros [cb|]; [apply keeps_on_error | exact keeps_refl].
  - keeps_frame respects_fire.
  - keeps_frame respects_fire_main.
  - intros w. cbn. rewrite leave_settled_swallows. apply keeps_refl.
  - intros w. cbn.
    destruct (run_reactions_promises (MainJoin call) o w) as [ps [E _]].
    rewrite E. apply keeps_promises.
  - intros w. apply keeps_mainRoom_state.
  - intros w. cbn. split; [auto|]. split; [|split].
    + unfold lobbyRoom_valid. cbn. now rewrite update_nth_length.
    + intros r rm H. cbn [rooms with_rooms].
      rewrite nth_error_update_nth, H.
      destruct (r =? room)%nat; eexists; split; try reflexivity; now split.
    + split; [reflexivity|]. split; [auto | reflexivity].
Qed.

(** Over any inputs a controller that has a lobby room reference keeps
    one, and the rooms keep their listeners. *)
Lemma keeps_run (inputs : list Input) (w : World) : keeps w (run w inputs).
Proof.
  revert w. induction inputs as [|i inputs IH]; intros w; cbn.
  - apply keeps_refl.
  - eapply keeps_trans; [apply keeps_handle | apply IH].
Qed.

Lemma listeners_of_same (f : Fired) (room room' : ChatRoom) :
  same_listeners room room' -> listeners_of f room' = listeners_of f room.
Proof.
  intros [E P]. unfold listeners_of. now rewrite E, P.
Qed.

(** After [joinLobbyRoom] went through the lobby, and whatever comes next,
    the room of that call has the listeners of that call, and
    [this.lobbyRoom] is a room. *)
Lemma lobby_room_kept (displayName email password : JsString) (w v : World) :
  truthy password && negb (joined_moderator w) = false ->
  keeps (snd (joinLobbyRoom displayName email password w)) v ->
  (exists room, nth_error (rooms v) (length (rooms w)) = Some room
                /\ same_listeners (lobby_room_of w email) room)
  /\ (exists current room, lobbyRoom v = Some current
                           /\ nth_error (rooms v) current = Some room).
Proof.
  intros Hpath.
  rewrite (joinLobbyRoom_lobby _ _ _ _ Hpath). cbn [snd].
  intros [L [V [K _]]]. split.
  - apply K. apply nth_error_last.
  - assert (Hv : lobbyRoom_valid v).
    { apply V. intros r [= <-]. cbn. rewrite length_app. cbn. lia. }
    destruct (lobbyRoom v) as [current|] eqn:Hc.
    + specialize (Hv current Hc).
      destruct (nth_error (rooms v) current) as [room|] eqn:Hroom.
      * now exists current, room.
      * apply nth_error_None in Hroom. lia.
    + exfalso. apply L; [discriminate | reflexivity].
Qed.

Lemma lobby_room_later (displayName email password : JsString) (w : World)
    (inputs : list Input) :
  truthy password && negb (joined_moderator w) = false ->
  let w1 := snd (joinLobbyRoom displayName email password w) in
  let v := run w1 inputs in
  (exists room, nth_error (rooms v) (length (rooms w)) = Some room
                /\ same_listeners (lobby_room_of w email) room)
  /\ (exists current room, lobbyRoom v = Some current
                           /\ nth_error (rooms v) current = Some room).
Proof.
  intros Hpath w1 v.
  apply (lobby_room_kept displayName email password w v Hpath).
  apply keeps_run.
Qed.

(** The invite listeners of the main room, fired one after the other. *)
Lemma listening_invites (roomJid from : string) (txt : JsString)
    (ls : list (XMPPEvent * Handler)) :
  Forall (fun l => l = (INVITE_MESSAGE_RECEIVED, OnInvite)) ls ->
  listening (InviteMessageReceived roomJid from txt) ls
  = repeat OnInvite (length ls).
Proof.
  unfold listening. cbn [event_of].
  induction 1 as [|l ls Hl _ IH]; [reflexivity|].
  subst l. cbn. now rewrite IH.
Qed.

Lemma invites_for_main_room (n : nat) (roomJid from : string) (txt : JsString)
    (w : World) (r : nat) (room : ChatRoom) :
  roomJid = roomjid (mainRoom w) ->
  lobbyRoom w = Some r ->
  nth_error (rooms w) r = Some room ->
  for_each (fun h => run_handler h (InviteMessageReceived roomJid from txt))
    (repeat OnInvite n) w
  = (Normal tt,
     with_trace
       (fun t => t ++ concat (repeat [MainRoomJoin None; Leave r] n))
       (with_log
          (fun l => l ++ repeat (approval_received roomJid from txt) n) w)).
Proof.
  revert w. induction n as [|n IH]; intros w Hj Hr Hroom.
  - cbn. unfold ret. destruct w. world_unfold. cbn. now rewrite !app_nil_r.
  - cbn [repeat for_each]. unfold bind at 1. subst roomJid.
    rewrite (run_OnInvite_main_room from txt w r room Hr Hroom).
    rewrite IH by (destruct w; assumption || reflexivity).
    destruct w. world_unfold. cbn. now rewrite <- !app_assoc.
Qed.

Lemma invites_for_other_room (n : nat) (roomJid from : string)
    (txt : JsString) (w : World) :
  roomJid <> roomjid (mainRoom w) ->
  for_each (fun h => run_handler h (InviteMessageReceived roomJid from txt))
    (repeat OnInvite n) w
  = (Normal tt,
     with_log
       (fun l => l ++ repeat (approval_received roomJid from txt) n) w).
Proof.
  revert w. induction n as [|n IH]; intros w Hj.
  - cbn. unfold ret. destruct w. world_unfold. cbn. now rewrite app_nil_r.
  - cbn [repeat for_each]. unfold bind at 1.
    rewrite (run_OnInvite_other_room roomJid from txt w Hj).
    rewrite IH by (destruct w; assumption).
    destruct w. world_unfold. cbn. now rewrite <- !app_assoc.
Qed.

(** C6. A waiting participant's controller ([joinLobbyRoom] through the
    lobby, no moderator), at any later time, on [INVITE_MESSAGE_RECEIVED]
    of the main room.  An invite for the main room's own identifier makes
    every invite listener call [mainRoom.join()] and then
    [lobbyRoom.leave()]; there is one listener for each waiting
    [joinLobbyRoom] call made on the controller, so one when this call was
    the only one.  However the leave settles, nothing more happens and the
    chain on it ends fulfilled.  An invite for another identifier changes
    nothing but the debug log. *)
Theorem invite_received (displayName email password : JsString)
    (roomJid from : string) (txt : JsString) (w : World)
    (inputs : list Input) :
  joined_moderator w = false ->
  truthy password = false ->
  invite_listeners_only w ->
  let w1 := snd (joinLobbyRoom displayName email password w) in
  let v := run w1 inputs in
  let n := length (mainListeners (mainRoom v)) in
  let w2 := step v (MainFires (InviteMessageReceived roomJid from txt)) in
  length (mainListeners (mainRoom w1))
  = S (length (mainListeners (mainRoom w)))
  /\ 1 <= n
  /\ exists current,
       lobbyRoom v = Some current
       /\ (roomJid = roomjid (mainRoom w) ->
           w2 = with_trace
                  (fun t =>
                     t ++ concat (repeat [MainRoomJoin None; Leave current] n))
                  (with_log
                     (fun l =>
                        l ++ repeat (approval_received roomJid from txt) n)
                     v)
           /\ forall o, leave_settled o w2 = (Fulfilled, w2)
                        /\ step w2 (LeaveSettled o) = w2)
       /\ (roomJid <> roomjid (mainRoom w) ->
           w2 = with_log
                  (fun l =>
                     l ++ repeat (approval_received roomJid from txt) n)
                  v
           /\ same_but_log v w2).
Proof.
  intros Hm Hp Hl w1 v n w2.
  assert (Hpath : truthy password && negb (joined_moderator w) = false)
    by now rewrite Hp.
  pose proof (keeps_joinLobbyRoom displayName email password w) as K0.
  pose proof (keeps_run inputs w1) as K1.
  fold w1 in K0. fold v in K1.
  destruct K0 as [_ [_ [_ [J0 [I0 _]]]]].
  destruct K1 as [_ [_ [_ [J1 [I1 N1]]]]].
  assert (L1 : length (mainListeners (mainRoom w1))
               = S (length (mainListeners (mainRoom w)))).
  { unfold w1. rewrite (joinLobbyRoom_lobby _ _ _ _ Hpath), Hm.
    cbn. rewrite length_app. cbn. lia. }
  destruct (lobby_room_later displayName email password w inputs Hpath)
    as [_ [current [croom [Hc Hcroom]]]].
  fold w1 in Hc, Hcroom. fold v in Hc, Hcroom.
  assert (Hjid : roomjid (mainRoom v) = roomjid (mainRoom w)) by congruence.
  assert (Hfire : w2 = snd (for_each
                              (fun h => run_handler h
                                 (InviteMessageReceived roomJid from txt))
                              (repeat OnInvite n) v)).
  { unfold w2, step, handle, fire_main. js_unfold. cbv beta.
    now rewrite (listening_invites roomJid from txt _ (I1 (I0 Hl))). }
  split; [exact L1|]. split; [unfold n; lia|].
  exists current. split; [exact Hc|]. clearbody w2. split.
  - intros Hj. rewrite <- Hjid in Hj.
    rewrite (invites_for_main_room n roomJid from txt v current croom
               Hj Hc Hcroom) in Hfire.
    split; [exact Hfire|].
    intros o. split; [apply leave_settled_swallows|].
    unfold step, handle, modify. cbn [snd].
    now rewrite leave_settled_swallows.
  - intros Hne. rewrite <- Hjid in Hne.
    rewrite (invites_for_other_room n roomJid from txt v Hne) in Hfire.
    split; [exact Hfire|].
    rewrite Hfire. apply same_but_log_logged.
Qed.

(** The lobby room reference (C5, as the code has it).  A [joinLobbyRoom]
    call that goes through the lobby (a moderator's, or one without a
    truthy password) sets [this.lobbyRoom] at once, while the join is still
    pending, and from then on, whatever happens, the field refers to a
    room: nothing clears it.  For somebody who is not a moderator, a kick
    of the own presence in the room of the call emits [MUC_DENIED_ACCESS]
    once on the main room and cleans the lobby room, the field staying as
    it is; a kick of somebody else does nothing. *)
Theorem kicked_from_lobby (displayName email password : JsString) (w : World)
    (inputs : list Input) :
  truthy password && negb (joined_moderator w) = false ->
  let r := length (rooms w) in
  let w1 := snd (joinLobbyRoom displayName email password w) in
  let v := run w1 inputs in
  lobbyRoom w1 = Some r
  /\ state_of (Own (length (promises w))) w1 = Some Pending
  /\ exists current,
       lobbyRoom v = Some current
       /\ (joined_moderator w = false ->
           step v (Fires r (Kicked true))
           = with_trace
               (fun t => t ++ [Emit MUC_DENIED_ACCESS; Clean current]) v
           /\ lobbyRoom (step v (Fires r (Kicked true))) = Some current
           /\ step v (Fires r (Kicked false)) = v).
Proof.
  intros Hpath r w1 v.
  destruct (lobby_room_later displayName email password w inputs Hpath)
    as [[room [Hroom Hsame]] [current [croom [Hc Hcroom]]]].
  fold w1 in Hroom, Hc, Hcroom. fold v in Hroom, Hc, Hcroom. fold r in Hroom.
  assert (E1 : w1 = snd (joinLobbyRoom displayName email password w))
    by reflexivity.
  rewrite (joinLobbyRoom_lobby _ _ _ _ Hpath) in E1. cbn [snd] in E1.
  split; [now rewrite E1|].
  split; [rewrite E1; cbn; apply nth_error_last|].
  exists current. split; [assumption|]. intros Hm.
  assert (L : forall b, listeners_of (Kicked b) room = [OnKicked]).
  { intros b. rewrite (listeners_of_same _ _ _ Hsame).
    unfold lobby_room_of. rewrite Hm. reflexivity. }
  assert (F : forall b, step v (Fires r (Kicked b))
                        = snd (run_handler OnKicked (Kicked b) v)).
  { intros b. unfold step, handle. rewrite (fire_room _ _ _ _ Hroom), L.
    exact (for_each_one (fun h => run_handler h _) OnKicked v). }
  rewrite !F, (run_OnKicked_self v current croom Hc Hcroom),
    run_OnKicked_other. cbn [snd].
  repeat split. exact Hc.
Qed.




(** ** The outcome of the lobby join *)

(** [MUC_JOINED] on the room of a [joinLobbyRoom] call, at any later time:
    the promise of the call is resolved (if it is pending, and with it the
    pending promises linked to it), and a non-moderator's truthy e-mail goes
    into the presence of the current lobby room, which is sent. *)
Lemma lobby_joined_later (displayName email password : JsString)
    (w v : World) :
  truthy password && negb (joined_moderator w) = false ->
  keeps (snd (joinLobbyRoom displayName email password w)) v ->
  let r := length (rooms w) in
  let p := length (promises w) in
  exists current ps,
    lobbyRoom v = Some current
    /\ step v (Fires r MucJoined)
       = with_trace
           (fun t =>
              t ++ (if truthy email && negb (joined_moderator w)
                    then [RemoveFromPresence current EMAIL_COMMAND;
                          AddToPresence current EMAIL_COMMAND email [];
                          SendPresence current]
                    else []))
           (with_promises (fun _ => ps) v)
    /\ (forall q o, nth_error (promises v) q = Some (Settled o) ->
                    nth_error ps q = Some (Settled o))
    /\ (nth_error (promises v) p = Some Pending ->
        nth_error ps p = Some (Settled Fulfilled)
        /\ forall q, In (Own p, q) (links v) ->
                     nth_error (promises v) q = Some Pending ->
                     nth_error ps q = Some (Settled Fulfilled)).
Proof.
  intros Hpath Hk r p.
  destruct (lobby_room_kept displayName email password w v Hpath Hk)
    as [[room [Hroom Hsame]] [current [croom [Hc Hcroom]]]].
  fold r in Hroom.
  destruct (run_OnLobbyJoined p email (joined_moderator w) v current croom
              Hc Hcroom) as [ps [E K]].
  exists current, ps. split; [assumption|]. split; [|assumption].
  unfold step, handle. rewrite (fire_room _ _ _ _ Hroom).
  rewrite (listeners_of_same _ _ _ Hsame).
  assert (L : listeners_of MucJoined (lobby_room_of w email)
              = [OnLobbyJoined p email (joined_moderator w)]).
  { unfold lobby_room_of. destruct (joined_moderator w); reflexivity. }
  rewrite L, for_each_one, E. reflexivity.
Qed.

(** A join error on the room of a [joinLobbyRoom] call, at any later time:
    the promise of the call is rejected with the error (if it is pending,
    and with it the pending promises linked to it); nothing else changes. *)
Lemma lobby_join_failed_later (displayName email password : JsString)
    (w v : World) (f : Fired) (e : JsError) :
  truthy password && negb (joined_moderator w) = false ->
  keeps (snd (joinLobbyRoom displayName email password w)) v ->
  JoinFailure f e ->
  let r := length (rooms w) in
  let p := length (promises w) in
  exists ps,
    step v (Fires r f) = with_promises (fun _ => ps) v
    /\ (forall q o, nth_error (promises v) q = Some (Settled o) ->
                    nth_error ps q = Some (Settled o))
    /\ (nth_error (promises v) p = Some Pending ->
        nth_error ps p = Some (Settled (Rejected e))
        /\ forall q, In (Own p, q) (links v) ->
                     nth_error (promises v) q = Some Pending ->
                     nth_error ps q = Some (Settled (Rejected e))).
Proof.
  intros Hpath Hk Hf r p.
  destruct (lobby_room_kept displayName email password w v Hpath Hk)
    as [[room [Hroom Hsame]] _].
  fold r in Hroom.
  destruct (settle_promises p (Rejected e) v) as [ps [E K]].
  exists ps. split; [|assumption].
  unfold step, handle. rewrite (fire_room _ _ _ _ Hroom).
  rewrite (listeners_of_same _ _ _ Hsame).
  assert (L : listeners_of f (lobby_room_of w email) = [OnJoinFailed p]).
  { unfold lobby_room_of.
    destruct Hf, (joined_moderator w); reflexivity. }
  rewrite L, for_each_one.
  destruct Hf; cbn [run_handler]; unfold reject; now rewrite E.
Qed.

(** The second presence of a waiting participant (C8, as the code has it).
    A [joinLobbyRoom] call that goes through the lobby for somebody who is
    not a moderator returns a pending promise, which [MUC_JOINED] on the
    lobby room resolves.  Whenever that event comes, the e-mail is put into
    the presence of the lobby room and the presence is sent exactly when
    the e-mail is truthy (a string that is not empty); otherwise nothing is
    sent. *)
Theorem email_presence_after_join (displayName email password : JsString)
    (w : World) (inputs : list Input) :
  joined_moderator w = false ->
  truthy password = false ->
  let r := length (rooms w) in
  let p := length (promises w) in
  let w1 := snd (joinLobbyRoom displayName email password w) in
  let v := run w1 inputs in
  fst (joinLobbyRoom displayName email password w) = Normal (Own p)
  /\ state_of (Own p) w1 = Some Pending
  /\ state_of (Own p) (step w1 (Fires r MucJoined)) = Some (Settled Fulfilled)
  /\ exists current,
       lobbyRoom v = Some current
       /\ trace (step v (Fires r MucJoined))
          = trace v
            ++ (if truthy email
                then [RemoveFromPresence current EMAIL_COMMAND;
                      AddToPresence current EMAIL_COMMAND email [];
                      SendPresence current]
                else []).
Proof.
  intros Hm Hp r p w1 v.
  assert (Hpath : truthy password && negb (joined_moderator w) = false)
    by now rewrite Hp.
  assert (E1 : w1 = snd (joinLobbyRoom displayName email password w))
    by reflexivity.
  pose proof (joinLobbyRoom_lobby displayName email password w Hpath) as J.
  rewrite J in E1. cbn [snd] in E1.
  assert (Hpend : nth_error (promises w1) p = Some Pending)
    by (rewrite E1; apply nth_error_last).
  split; [now rewrite J|]. split; [exact Hpend|]. split.
  - destruct (lobby_joined_later displayName email password w w1 Hpath
                (keeps_refl w1)) as [current [ps [_ [E [_ K]]]]].
    fold r in E. fold p in K.
    rewrite E. exact (proj1 (K Hpend)).
  - destruct (lobby_joined_later displayName email password w v Hpath
                (keeps_run inputs w1)) as [current [ps [Hc [E _]]]].
    fold r in E.
    exists current. split; [assumption|].
    rewrite E, Hm, andb_true_r. reflexivity.
Qed.

(** The shared password (C4, as the code has it).  When [joinLobbyRoom]
    gets a truthy password (a string that is not empty) from somebody who
    is not a moderator, it calls [mainRoom.join(password)] and returns the
    very promise of that call; no room is made and [this.lobbyRoom] is as
    it was. *)
Theorem shared_password_skips_lobby (displayName email password : JsString)
    (w : World) :
  truthy password = true ->
  joined_moderator w = false ->
  let k := length (trace w) in
  let w1 := snd (joinLobbyRoom displayName email password w) in
  joinLobbyRoom displayName email password w
  = (Normal (MainJoin k),
     with_trace (fun t => t ++ [MainRoomJoin password]) w)
  /\ nth_error (trace w1) k = Some (MainRoomJoin password)
  /\ rooms w1 = rooms w
  /\ lobbyRoom w1 = lobbyRoom w.
Proof.
  intros Hp Hm k w1. subst w1.
  rewrite (joinLobbyRoom_shared_password _ _ _ _ Hp Hm). cbn.
  repeat split. apply nth_error_last.
Qed.

(** ** Enabling the lobby *)

Lemma config_query_tree (room : string) :
  Builder.tree (config_query room) = config_query_stanza room.
Proof. reflexivity. Qed.

Lemma formsubmit_tree (room : string) (password : JsString) :
  Builder.tree (formsubmit room password) = config_submission room password.
Proof.
  unfold formsubmit, config_submission.
  destruct (truthy password); reflexivity.
Qed.

Lemma invite_tree (room jid0 : string) :
  Builder.tree (invite room jid0) = invite_message room jid0.
Proof. reflexivity. Qed.

Lemma submission_fields (room : string) (password : JsString) :
  fields_named "muc#roomconfig_membersonly" (config_submission room password)
  = [field "muc#roomconfig_membersonly" "true"]
  /\ fields_named "muc#roomconfig_lobbypassword"
       (config_submission room password)
     = if truthy password
       then [field "muc#roomconfig_lobbypassword" (js_to_string password)]
       else [].
Proof.
  unfold config_submission. destruct (truthy password); split; reflexivity.
Qed.

Lemma enableLobby_supported (password : JsString) (w : World) :
  truthy (lobbyroomComponentAddress (xmpp w)) = true ->
  enableLobby password w
  = (Normal (Own (length (promises w))),
     mkWorld
       (mkXMPP (lobbyroomComponentAddress (xmpp w))
          (pendingIQ (xmpp w)
           ++ [Some (ConfigFormReply (length (promises w)) password)]))
       (mainRoom w) (lobbyRoom w) (rooms w) (promises w ++ [Pending])
       (links w)
       (trace w ++ [SendIQ (config_query_stanza (roomjid (mainRoom w)))])
       (log w)).
Proof.
  intros H. unfold enableLobby. js_unfold. cbv beta. rewrite H.
  reflexivity.
Qed.

(** The reply to the request sent last reaches its callback. *)
Lemma take_callback_last (w : World) (pending : list (option IqCallback))
    (cb : IqCallback) :
  pendingIQ (xmpp w) = pending ++ [Some cb] ->
  take_callback (length pending) w
  = (Normal (Some cb),
     with_xmpp
       (fun x => mkXMPP (lobbyroomComponentAddress x) (pending ++ [None])) w).
Proof.
  intros H. unfold take_callback. js_unfold. cbv beta.
  rewrite H, nth_error_last. cbn. unfold with_xmpp. cbn.
  now rewrite H, update_nth_last.
Qed.

(** *** Configuration submissions *)

Lemma quiet_same (w w' : World) :
  pendingIQ (xmpp w') = pendingIQ (xmpp w) ->
  submissions w' = submissions w ->
  quiet w w'.
Proof.
  intros Hp Hs H. split; [|assumption].
  unfold no_form_awaited. now rewrite Hp.
Qed.

Lemma quiet_refl (w : World) : quiet w w.
Proof. now apply quiet_same. Qed.

Lemma quiet_trans (w1 w2 w3 : World) :
  quiet w1 w2 -> quiet w2 w3 -> quiet w1 w3.
Proof.
  intros H12 H23 H1. destruct (H12 H1) as [H2 S2].
  destruct (H23 H2) as [H3 S3]. split; congruence.
Qed.

Lemma submissions_app (w : World) (l : list Action) :
  forallb (fun a => negb (is_submission a)) l = true ->
  filter is_submission (trace w ++ l) = submissions w.
Proof.
  intros H. unfold submissions. rewrite filter_app.
  replace (filter is_submission l) with (@nil Action);
    [apply app_nil_r|].
  induction l as [|a l IH]; [reflexivity|].
  cbn in *. apply andb_true_iff in H. destruct H as [Ha Hl].
  destruct (is_submission a); [discriminate | now apply IH].
Qed.

Lemma quiet_act a w :
  (forall x, a <> SendIQ x) -> quiet w (with_trace (fun t => t ++ [a]) w).
Proof.
  intros H. apply quiet_same; [reflexivity|].
  unfold submissions at 1. cbn. apply submissions_app.
  destruct a; try reflexivity. now destruct (H stanza).
Qed.

Lemma quiet_log f w : quiet w (with_log f w).
Proof. now apply quiet_same. Qed.

Lemma quiet_promises f w : quiet w (with_promises f w).
Proof. now apply quiet_same. Qed.

Lemma quiet_links f w : quiet w (with_links f w).
Proof. now apply quiet_same. Qed.

Lemma quiet_mainRoom f w : quiet w (with_mainRoom f w).
Proof. now apply quiet_same. Qed.

Lemma quiet_rooms f w : quiet w (with_rooms f w).
Proof. now apply quiet_same. Qed.

Ltac quiet_frame lemma :=
  apply lemma;
  first [ exact quiet_refl | exact quiet_trans | exact quiet_act
        | exact quiet_log | exact quiet_promises | exact quiet_links
        | discriminate ].

Lemma existsb_app_false {A : Type} (f : A -> bool) (l l' : list A) :
  existsb f l = false -> existsb f l' = false -> existsb f (l ++ l') = false.
Proof. intros H H'. now rewrite existsb_app, H, H'. Qed.

Lemma existsb_update_nth {A : Type} (f : A -> bool) (n : nat) (a : A)
    (l : list A) :
  existsb f l = false -> f a = false ->
  existsb f (update_nth n (fun _ => a) l) = false.
Proof.
  revert n. induction l as [|b l IH]; intros [|n] H Ha; cbn in *; auto.
  - apply orb_false_iff in H. destruct H as [_ H]. now rewrite Ha.
  - apply orb_false_iff in H. destruct H as [Hb H]. rewrite Hb. now apply IH.
Qed.

(** A request that is not a submission, with callbacks other than those of
    the configuration query. *)
Lemma quiet_sendIQ (stanza : Builder.t) (cb : IqCallback) :
  is_submission (SendIQ (Builder.tree stanza)) = false ->
  awaits_form (Some cb) = false ->
  respects quiet (sendIQ stanza cb).
Proof.
  intros Hs Hcb w H. unfold sendIQ. js_unfold. cbn. split.
  - unfold no_form_awaited. cbn [xmpp pendingIQ with_xmpp with_trace].
    apply existsb_app_false; [exact H|].
    cbn [existsb]. now rewrite Hcb.
  - unfold submissions at 1. cbn. apply submissions_app. cbn.
    cbn in Hs. now rewrite Hs.
Qed.

Lemma quiet_joinLobbyRoom (displayName email password : JsString) :
  respects quiet (joinLobbyRoom displayName email password).
Proof.
  intros w.
  destruct (truthy password && negb (joined_moderator w)) eqn:E.
  - apply andb_true_iff in E. destruct E as [Hp Hm].
    apply negb_true_iff in Hm.
    rewrite (joinLobbyRoom_shared_password _ _ _ _ Hp Hm).
    now apply quiet_act.
  - rewrite (joinLobbyRoom_lobby _ _ _ _ E). cbn [snd].
    apply quiet_same; [reflexivity|].
    unfold submissions at 1. cbn [trace]. apply submissions_app.
    unfold lobby_join_calls. now destruct (truthy displayName).
Qed.

Lemma quiet_take_callback (n : nat) : respects quiet (take_callback n).
Proof.
  intros w. unfold take_callback. js_unfold. cbv beta.
  destruct (nth_error (pendingIQ (xmpp w)) n) as [[cb|]|]; cbn [snd];
    try apply quiet_refl.
  intros H. split; [|reflexivity].
  unfold no_form_awaited. cbn. now apply existsb_update_nth.
Qed.

(** The callback taken is not the one of the configuration query when no
    form is awaited. *)
Lemma take_callback_no_form (n : nat) (w : World) (p : nat)
    (password : JsString) :
  no_form_awaited w ->
  fst (take_callback n w) <> Normal (Some (ConfigFormReply p password)).
Proof.
  intros H. unfold take_callback. js_unfold. cbv beta.
  destruct (nth_error (pendingIQ (xmpp w)) n) as [[cb|]|] eqn:E; cbn;
    try discriminate.
  intros [= ->]. apply nth_error_In in E.
  unfold no_form_awaited in H.
  assert (existsb awaits_form (pendingIQ (xmpp w)) = true).
  { apply existsb_exists. eexists. split; [exact E | reflexivity]. }
  congruence.
Qed.

Lemma quiet_on_success (cb : IqCallback) (res : Xml) :
  awaits_form (Some cb) = false -> respects quiet (on_success cb res).
Proof.
  destruct cb as [p password|p|jid0]; cbn [on_success awaits_form];
    intros H; [discriminate| |].
  - apply respects_bind; [exact quiet_trans|apply quiet_joinLobbyRoom|].
    intros j. quiet_frame respects_link.
  - intros w. apply quiet_refl.
Qed.

Lemma quiet_on_error (cb : IqCallback) (e : JsError) :
  respects quiet (on_error cb e).
Proof.
  destruct cb; cbn [on_error];
    first [quiet_frame respects_settle | quiet_frame respects_logger_error].
Qed.

Lemma quiet_this_lobbyRoom : respects quiet this_lobbyRoom.
Proof.
  intros v. unfold this_lobbyRoom. js_unfold. cbv beta.
  destruct (lobbyRoom v) as [r|]; [|apply quiet_refl].
  destruct (nth_error (rooms v) r); apply quiet_refl.
Qed.

Lemma quiet_denyAccess (id : string) : respects quiet (denyAccess id).
Proof.
  unfold denyAccess, isLobbySupported.
  apply respects_bind; [exact quiet_trans| |intros supported].
  { apply respects_bind; [exact quiet_trans|exact quiet_refl|].
    intros w. exact quiet_refl. }
  apply respects_bind; [exact quiet_trans|exact quiet_refl|intros w].
  destruct (negb supported || negb (isModerator (mainRoom w)));
    [exact quiet_refl|].
  apply respects_bind; [exact quiet_trans|apply quiet_this_lobbyRoom|].
  intros r. destruct (truthy (find_member id (snd r))).
  - quiet_frame respects_act.
  - quiet_frame respects_logger_error.
Qed.

Lemma quiet_approveAccess (id : string) : respects quiet (approveAccess id).
Proof.
  unfold approveAccess, isLobbySupported.
  apply respects_bind; [exact quiet_trans| |intros supported].
  { apply respects_bind; [exact quiet_trans|exact quiet_refl|].
    intros w. exact quiet_refl. }
  apply respects_bind; [exact quiet_trans|exact quiet_refl|intros w].
  destruct (negb supported || negb (isModerator (mainRoom w)));
    [exact quiet_refl|].
  apply respects_bind; [exact quiet_trans|apply quiet_this_lobbyRoom|].
  intros r. destruct (truthy (find_member id (snd r))).
  - destruct (member_at _ _); [|exact quiet_refl].
    apply quiet_sendIQ; reflexivity.
  - quiet_frame respects_logger_error.
Qed.

(** Only a call of [enableLobby] makes the controller await a
    configuration form, and only the reply to such a query makes it send a
    submission. *)
Lemma quiet_handle (i : Input) :
  is_enableLobby i = false -> respects quiet (handle i).
Proof.
  destruct i as [password|displayName email password|id|id|n res|n e
                |room f|f|o|call o|j m|room ms]; cbn [handle is_enableLobby];
    intros Hi; [discriminate|..].
  - apply respects_bind; [exact quiet_trans|apply quiet_joinLobbyRoom|].
    intros _. exact quiet_refl.
  - apply quiet_denyAccess.
  - apply quiet_approveAccess.
  - intros w H. unfold bind.
    pose proof (quiet_take_callback n w H) as T.
    pose proof (take_callback_no_form n w) as N.
    destruct (take_callback n w) as [[[cb|]|err] w']; cbn [fst snd] in *;
      try exact T.
    destruct T as [H' S'].
    destruct (quiet_on_success cb res) with (w := w') as [H'' S''];
      [|assumption|split; congruence].
    destruct cb as [p password| |]; try reflexivity.
    exfalso. now apply (N p password H).
  - apply respects_bind; [exact quiet_trans|apply quiet_take_callback|].
    intros [cb|]; [apply quiet_on_error | exact quiet_refl].
  - quiet_frame respects_fire.
  - quiet_frame respects_fire_main.
  - intros w. cbn. rewrite leave_settled_swallows. apply quiet_refl.
  - intros w. cbn.
    destruct (run_reactions_promises (MainJoin call) o w) as [ps [E _]].
    rewrite E. apply quiet_promises.
  - intros w. apply quiet_mainRoom.
  - intros w. apply quiet_rooms.
Qed.

Lemma quiet_run (inputs : list Input) (w : World) :
  forallb (fun i => negb (is_enableLobby i)) inputs = true ->
  quiet w (run w inputs).
Proof.
  revert w. induction inputs as [|i inputs IH]; intros w H; cbn.
  - apply quiet_refl.
  - cbn in H. apply andb_true_iff in H. destruct H as [Hi H].
    apply negb_true_iff in Hi.
    eapply quiet_trans; [exact (quiet_handle i Hi w) | now apply IH].
Qed.

(** The reply to the configuration query, on a form without the
    members-only field: the promise is rejected, nothing is sent. *)
Lemma form_without_membersonly (password : JsString) (res : Xml) (w : World) :
  truthy (lobbyroomComponentAddress (xmpp w)) = true ->
  membersonly_fields res = [] ->
  let w1 := snd (enableLobby password w) in
  exists ps,
    step w1 (IqResult (length (pendingIQ (xmpp w))) res)
    = mkWorld
        (mkXMPP (lobbyroomComponentAddress (xmpp w))
           (pendingIQ (xmpp w) ++ [None]))
        (mainRoom w) (lobbyRoom w) (rooms w) ps (links w)
        (trace w ++ [SendIQ (config_query_stanza (roomjid (mainRoom w)))])
        (log w)
    /\ nth_error ps (length (promises w))
       = Some (Settled (Rejected ConfigurationError)).
Proof.
  intros Hs Hres w1. subst w1. rewrite (enableLobby_supported _ _ Hs).
  cbn [snd]. set (w1 := mkWorld _ _ _ _ _ _ _ _).
  unfold step, handle, bind.
  rewrite (take_callback_last w1 (pendingIQ (xmpp w)) _ eq_refl).
  cbn [on_success]. rewrite Hres. cbn [length Nat.ltb Nat.leb].
  set (w1' := with_xmpp _ w1).
  destruct (settle_promises (length (promises w)) (Rejected ConfigurationError)
              w1') as [ps [E [_ K]]].
  assert (Hpend : nth_error (promises w1') (length (promises w))
                  = Some Pending)
    by (subst w1' w1; cbn; apply nth_error_last).
  exists ps. unfold reject, ConfigurationError in *. rewrite E. split.
  - reflexivity.
  - exact (proj1 (K Hpend)).
Qed.

(** C3. When the configuration form that comes back lacks the members-only
    field (the selector of the source finds none; it takes the element
    names in any case of their letters), the promise of [enableLobby] is
    rejected with the configuration error and the reply sends nothing: the
    trace holds the query only, the rooms are as they were, and as long as
    [enableLobby] is not called again no configuration submission is ever
    sent. *)
Theorem enableLobby_without_membersonly (password : JsString) (res : Xml)
    (w : World) (inputs : list Input) :
  truthy (lobbyroomComponentAddress (xmpp w)) = true ->
  membersonly_fields res = [] ->
  let p := length (promises w) in
  let n := length (pendingIQ (xmpp w)) in
  let w1 := snd (enableLobby password w) in
  let w2 := step w1 (IqResult n res) in
  fst (enableLobby password w) = Normal (Own p)
  /\ state_of (Own p) w1 = Some Pending
  /\ state_of (Own p) w2 = Some (Settled (Rejected ConfigurationError))
  /\ trace w2
     = trace w ++ [SendIQ (config_query_stanza (roomjid (mainRoom w)))]
  /\ mainRoom w2 = mainRoom w
  /\ rooms w2 = rooms w
  /\ lobbyRoom w2 = lobbyRoom w
  /\ (no_form_awaited w ->
      forallb (fun i => negb (is_enableLobby i)) inputs = true ->
      submissions (run w2 inputs) = submissions w).
Proof.
  intros Hs Hres p n w1 w2.
  destruct (form_without_membersonly password res w Hs Hres) as [ps [E K]].
  fold w1 in E. fold n in E. fold w2 in E.
  split; [now rewrite (enableLobby_supported _ _ Hs)|].
  split.
  { subst w1. rewrite (enableLobby_supported _ _ Hs). cbn.
    apply nth_error_last. }
  rewrite E. cbn [state_of promises trace mainRoom rooms lobbyRoom].
  repeat (split; [first [exact K | reflexivity]|]).
  intros Hw Hin.
  rewrite <- E.
  assert (H2 : no_form_awaited w2).
  { rewrite E. unfold no_form_awaited in *. cbn.
    now apply existsb_app_false. }
  destruct (quiet_run inputs w2 Hin H2) as [_ S].
  rewrite S, E. unfold submissions at 1. cbn [trace].
  now apply submissions_app.
Qed.

(** The reply to the configuration query, on a form with the members-only
    field: the submission is sent. *)
Lemma form_with_membersonly (password : JsString) (res : Xml) (w : World) :
  truthy (lobbyroomComponentAddress (xmpp w)) = true ->
  membersonly_fields res <> [] ->
  step (snd (enableLobby password w))
    (IqResult (length (pendingIQ (xmpp w))) res)
  = with_xmpp
      (fun x =>
         mkXMPP (lobbyroomComponentAddress x)
           ((pendingIQ (xmpp w) ++ [None])
            ++ [Some (ConfigSubmitReply (length (promises w)))]))
      (submitted password w).
Proof.
  intros Hs Hres. rewrite (enableLobby_supported _ _ Hs).
  cbn [snd]. set (w1 := mkWorld _ _ _ _ _ _ _ _).
  unfold step, handle, bind.
  rewrite (take_callback_last w1 (pendingIQ (xmpp w)) _ eq_refl).
  cbn [on_success].
  destruct (membersonly_fields res) as [|x xs]; [contradiction|].
  cbn [length Nat.ltb Nat.leb]. unfold sendIQ. js_unfold.
  cbv beta iota. rewrite formsubmit_tree. reflexivity.
Qed.

(** The reply to the submission: [joinLobbyRoom()] runs in the same turn,
    and its promise is chained to the one of [enableLobby]. *)
Lemma submission_acknowledged (password : JsString) (reply : Xml)
    (w : World) :
  let p := length (promises w) in
  let w2 :=
    with_xmpp
      (fun x =>
         mkXMPP (lobbyroomComponentAddress x)
           ((pendingIQ (xmpp w) ++ [None]) ++ [Some (ConfigSubmitReply p)]))
      (submitted password w) in
  step w2 (IqResult (S (length (pendingIQ (xmpp w)))) reply)
  = with_links (fun ls => ls ++ [(Own (S p), p)])
      (snd (joinLobbyRoom None None None (submitted password w))).
Proof.
  intros p w2.
  assert (Hn : S (length (pendingIQ (xmpp w)))
               = length (pendingIQ (xmpp w) ++ [None]))
    by (rewrite length_app; cbn; lia).
  rewrite Hn. unfold step, handle, bind.
  rewrite (take_callback_last w2 (pendingIQ (xmpp w) ++ [None]) _ eq_refl).
  cbn [on_success]. unfold bind.
  replace (with_xmpp _ w2) with (submitted password w) by reflexivity.
  rewrite (joinLobbyRoom_lobby None None None (submitted password w) eq_refl).
  unfold link. js_unfold. cbv beta iota.
  cbn [promises submitted].
  rewrite nth_error_last.
  replace (length (promises w ++ [Pending])) with (S p)
    by (rewrite length_app; cbn; lia).
  reflexivity.
Qed.

(** Enabling the lobby (C2, as the code has it).  With lobby support and a
    configuration form that has the members-only field, the reply to the
    query sends a submission that sets [muc#roomconfig_membersonly] to
    [true] and has a [muc#roomconfig_lobbypassword] field exactly when the
    password is truthy (a string that is not empty).  The reply to the
    submission runs [joinLobbyRoom()] in the same turn, and the promise of
    [enableLobby] is resolved when that join is, and rejected with the same
    error when that join is. *)
Theorem enableLobby_members_only (password : JsString) (res reply : Xml)
    (w : World) :
  truthy (lobbyroomComponentAddress (xmpp w)) = true ->
  membersonly_fields res <> [] ->
  let p := length (promises w) in
  let n := length (pendingIQ (xmpp w)) in
  let r := length (rooms w) in
  let room := roomjid (mainRoom w) in
  let w1 := snd (enableLobby password w) in
  let w2 := step w1 (IqResult n res) in
  let w3 := step w2 (IqResult (S n) reply) in
  fst (enableLobby password w) = Normal (Own p)
  /\ trace w2
     = trace w ++ [SendIQ (config_query_stanza room);
                   SendIQ (config_submission room password)]
  /\ fields_named "muc#roomconfig_membersonly"
       (config_submission room password)
     = [field "muc#roomconfig_membersonly" "true"]
  /\ fields_named "muc#roomconfig_lobbypassword"
       (config_submission room password)
     = (if truthy password
        then [field "muc#roomconfig_lobbypassword" (js_to_string password)]
        else [])
  /\ w3 = with_links (fun ls => ls ++ [(Own (S p), p)])
            (snd (joinLobbyRoom None None None (submitted password w)))
  /\ fst (joinLobbyRoom None None None (submitted password w))
     = Normal (Own (S p))
  /\ trace w3
     = trace w2
       ++ [CreateRoom (Strophe.getNodeFromJid room)
             (mkOptions true true (lobbyroomComponentAddress (xmpp w)));
           Join r]
  /\ lobbyRoom w3 = Some r
  /\ state_of (Own p) w3 = Some Pending
  /\ (let w4 := step w3 (Fires r MucJoined) in
      state_of (Own (S p)) w4 = Some (Settled Fulfilled)
      /\ state_of (Own p) w4 = Some (Settled Fulfilled))
  /\ (forall f e,
        JoinFailure f e ->
        let w4 := step w3 (Fires r f) in
        state_of (Own (S p)) w4 = Some (Settled (Rejected e))
        /\ state_of (Own p) w4 = Some (Settled (Rejected e))).
Proof.
  intros Hs Hres p n r room w1 w2 w3.
  assert (E2 : w2 = with_xmpp
                      (fun x =>
                         mkXMPP (lobbyroomComponentAddress x)
                           ((pendingIQ (xmpp w) ++ [None])
                            ++ [Some (ConfigSubmitReply p)]))
                      (submitted password w))
    by apply (form_with_membersonly password res w Hs Hres).
  assert (E3 : w3 = with_links (fun ls => ls ++ [(Own (S p), p)])
                      (snd (joinLobbyRoom None None None
                              (submitted password w)))).
  { unfold w3. rewrite E2. apply submission_acknowledged. }
  pose proof (joinLobbyRoom_lobby None None None (submitted password w)
                eq_refl) as J.
  assert (Hlen : length (promises (submitted password w)) = S p)
    by (cbn; rewrite length_app; cbn; lia).
  rewrite Hlen in J.
  assert (Hk : keeps (snd (joinLobbyRoom None None None
                             (submitted password w))) w3)
    by (rewrite E3; apply keeps_links).
  assert (P3 : promises w3 = (promises w ++ [Pending]) ++ [Pending])
    by (rewrite E3, J; reflexivity).
  assert (Hp : nth_error (promises w3) p = Some Pending).
  { rewrite P3. apply nth_error_app_old. apply nth_error_last. }
  assert (Hj : nth_error (promises w3) (S p) = Some Pending).
  { rewrite P3.
    replace (S p) with (length (promises w ++ [Pending]))
      by (rewrite length_app; cbn; lia).
    apply nth_error_last. }
  assert (Hlink : In (Own (S p), p) (links w3)).
  { rewrite E3, J. cbn. apply in_or_app. right. now left. }
  split; [now rewrite (enableLobby_supported _ _ Hs)|].
  split; [rewrite E2; cbn; now rewrite <- app_assoc|].
  split; [apply submission_fields|].
  split; [apply submission_fields|].
  split; [exact E3|].
  split; [now rewrite J|].
  split.
  { rewrite E3, J, E2. cbn. unfold lobby_join_calls. cbn.
    reflexivity. }
  split; [rewrite E3, J; reflexivity|].
  split; [exact Hp|].
  split.
  - destruct (lobby_joined_later None None None (submitted password w) w3
                eq_refl Hk) as [current [ps [_ [E [_ K]]]]].
    rewrite Hlen in K. cbn [rooms submitted] in E. fold r in E.
    destruct (K Hj) as [Kj Kp].
    cbv zeta. rewrite E. cbn [state_of promises with_trace with_promises].
    split; [exact Kj | now apply Kp].
  - intros f e Hf.
    destruct (lobby_join_failed_later None None None (submitted password w) w3
                f e eq_refl Hk Hf) as [ps [E [_ K]]].
    rewrite Hlen in K. cbn [rooms submitted] in E. fold r in E.
    destruct (K Hj) as [Kj Kp].
    cbv zeta. rewrite E. cbn [state_of promises with_promises].
    split; [exact Kj | now apply Kp].
Qed.

(** * The scenarios of the specification *)

Example scenario_enable :
  trace (run moderator
           [CallEnableLobby (Some "xyz789"); IqResult 0 members_only_form;
            IqResult 1 (Elem "iq" [("type", "result")] [])])
  = [SendIQ (config_query_stanza "room1@conference.example");
     SendIQ (config_submission "room1@conference.example" (Some "xyz789"));
     CreateRoom (Some "room1") lobby_options;
     Join 0].
Proof. reflexivity. Qed.

(** The selector finds the members-only field whatever the case of the
    element names is, and the submission follows. *)
Example scenario_enable_upper_case :
  membersonly_fields upper_case_form
  = [Elem "FIELD" [("var", "muc#roomconfig_membersonly")] []]
  /\ trace (run moderator
              [CallEnableLobby None; IqResult 0 upper_case_form])
     = [SendIQ (config_query_stanza "room1@conference.example");
        SendIQ (config_submission "room1@conference.example" None)].
Proof. split; reflexivity. Qed.

Example scenario_join :
  trace (run participant
           [CallJoinLobbyRoom (Some "Alice") None None; Fires 0 MucJoined])
  = [CreateRoom (Some "room1") lobby_options;
     RemoveFromPresence 0 "nick";
     AddToPresence 0 "nick" (Some "Alice")
       [("xmlns", "http://jabber.org/protocol/nick")];
     Join 0].
Proof. reflexivity. Qed.

Example scenario_approve :
  trace (step moderator_with_alice (CallApproveAccess "res123"))
  = trace moderator_with_alice
    ++ [SendIQ (invite_message "room1@conference.example"
                  "alice@example.com/res123")].
Proof. reflexivity. Qed.

(** * Witnesses and counterexamples *)

(** The moderator denies Alice, who waits in the lobby room. *)
Lemma deny_approve_access_witness :
  lobbyRoom moderator_with_alice = Some 0
  /\ nth_error (rooms moderator_with_alice) 0
     = Some (mkChatRoom (Some "room1") lobby_options [alice]
               (eventListeners (lobby_room_of moderator None))
               (presenceListeners (lobby_room_of moderator None)))
  /\ (exists j, In j (map fst [alice])
                /\ Strophe.getResourceFromJid j = Some "res123")
  /\ truthy (lobbyroomComponentAddress (xmpp moderator_with_alice)) = true
  /\ isModerator (mainRoom moderator_with_alice) = true
  /\ exists j member,
       In (j, member) [alice]
       /\ denyAccess "res123" moderator_with_alice
          = (Normal tt,
             with_trace (fun t => t ++ [Kick 0 j]) moderator_with_alice).
Proof.
  split; [reflexivity|]. split; [reflexivity|].
  assert (Hex : exists j, In j (map fst [alice])
                          /\ Strophe.getResourceFromJid j = Some "res123").
  { exists (fst alice). split; [now left | reflexivity]. }
  split; [exact Hex|]. split; [reflexivity|]. split; [reflexivity|].
  destruct (proj2 (proj2 (deny_approve_access "res123" moderator_with_alice)
                     0 _ eq_refl eq_refl) Hex eq_refl eq_refl)
    as [j [member [Hin [_ [Hd _]]]]].
  exists j, member. split; [exact Hin | exact Hd].
Defined.

(** A backend without a lobby component address. *)
Lemma unsupported_backend_witness :
  truthy (lobbyroomComponentAddress (xmpp unsupported)) = false
  /\ isLobbySupported unsupported = (Normal false, unsupported)
  /\ denyAccess "res123" unsupported = (Normal tt, unsupported).
Proof.
  split; [reflexivity|].
  destruct (unsupported_backend unsupported eq_refl) as [H1 [_ H3]].
  split; [exact H1 | exact (proj1 (H3 "res123"))].
Defined.

(** A moderator who has not joined the lobby room denies somebody. *)
Lemma access_without_lobby_room_throws_witness :
  truthy (lobbyroomComponentAddress (xmpp moderator)) = true
  /\ isModerator (mainRoom moderator) = true
  /\ lobbyRoom moderator = None
  /\ exists message,
       denyAccess "res123" moderator = (Throw (TypeError message), moderator).
Proof.
  split; [reflexivity|]. split; [reflexivity|]. split; [reflexivity|].
  exact (proj1 (access_without_lobby_room_throws "res123" moderator
                  eq_refl eq_refl eq_refl)).
Defined.

(** The moderator enables the lobby with the password xyz789. *)
Lemma enableLobby_members_only_witness :
  truthy (lobbyroomComponentAddress (xmpp moderator)) = true
  /\ membersonly_fields members_only_form <> []
  /\ trace (step (snd (enableLobby (Some "xyz789") moderator))
              (IqResult 0 members_only_form))
     = [SendIQ (config_query_stanza "room1@conference.example");
        SendIQ (config_submission "room1@conference.example" (Some "xyz789"))].
Proof.
  assert (H : membersonly_fields members_only_form <> []) by discriminate.
  split; [reflexivity|]. split; [exact H|].
  exact (proj1 (proj2 (enableLobby_members_only (Some "xyz789")
                         members_only_form (Text "") moderator eq_refl H))).
Defined.

(** The backend answers with a form that has no members-only field. *)
Lemma enableLobby_without_membersonly_witness :
  truthy (lobbyroomComponentAddress (xmpp moderator)) = true
  /\ membersonly_fields other_form = []
  /\ state_of (Own 0)
       (step (snd (enableLobby (Some "xyz789") moderator))
          (IqResult 0 other_form))
     = Some (Settled (Rejected ConfigurationError)).
Proof.
  split; [reflexivity|]. split; [reflexivity|].
  exact (proj1 (proj2 (proj2 (enableLobby_without_membersonly (Some "xyz789")
                                other_form moderator [] eq_refl eq_refl)))).
Defined.

(** A participant joins with the shared password. *)
Lemma shared_password_skips_lobby_witness :
  truthy (Some "secret") = true
  /\ joined_moderator participant = false
  /\ joinLobbyRoom (Some "Alice") None (Some "secret") participant
     = (Normal (MainJoin 0),
        with_trace (fun t => t ++ [MainRoomJoin (Some "secret")]) participant).
Proof.
  split; [reflexivity|]. split; [reflexivity|].
  exact (proj1 (shared_password_skips_lobby (Some "Alice") None
                  (Some "secret") participant eq_refl eq_refl)).
Defined.

(** Alice joins the lobby without a password. *)
Lemma kicked_from_lobby_witness :
  truthy None && negb (joined_moderator participant) = false
  /\ lobbyRoom (snd (joinLobbyRoom (Some "Alice") None None participant))
     = Some 0.
Proof.
  split; [reflexivity|].
  exact (proj1 (kicked_from_lobby (Some "Alice") None None participant
                  [Fires 0 MucJoined] eq_refl)).
Defined.

(** Alice waits in the lobby: one invite listener is on the main room. *)
Lemma invite_received_witness :
  joined_moderator participant = false
  /\ truthy None = false
  /\ invite_listeners_only participant
  /\ length (mainListeners
               (mainRoom (snd (joinLobbyRoom (Some "Alice") None None
                                 participant))))
     = 1.
Proof.
  split; [reflexivity|]. split; [reflexivity|].
  assert (H : invite_listeners_only participant) by constructor.
  split; [exact H|].
  exact (proj1 (invite_received (Some "Alice") None None
                  "room1@conference.example" "room1@conference.example" None
                  participant [] eq_refl eq_refl H)).
Defined.



(** Alice joins the lobby with an e-mail address. *)
Lemma email_presence_after_join_witness :
  joined_moderator participant = false
  /\ truthy None = false
  /\ (let r := length (rooms participant) in
      let p := length (promises participant) in
      let w1 := snd (joinLobbyRoom (Some "Alice") (Some "alice@example.com")
                       None participant) in
      state_of (Own p) (step w1 (Fires r MucJoined))
      = Some (Settled Fulfilled)).
Proof.
  split; [reflexivity|]. split; [reflexivity|].
  exact (proj1 (proj2 (proj2 (email_presence_after_join (Some "Alice")
                                (Some "alice@example.com") None participant []
                                eq_refl eq_refl)))).
Defined.

(** C2, as stated, fails on the empty string: [enableLobby("")] is given a
    password argument, and the submission has no
    [muc#roomconfig_lobbypassword] field. *)
Lemma empty_password_not_submitted :
  let w2 := run moderator
              [CallEnableLobby (Some ""); IqResult 0 members_only_form] in
  Some "" <> @None string
  /\ exists stanza,
       trace w2
       = [SendIQ (config_query_stanza "room1@conference.example");
          SendIQ stanza]
       /\ fields_named "muc#roomconfig_membersonly" stanza
          = [field "muc#roomconfig_membersonly" "true"]
       /\ fields_named "muc#roomconfig_lobbypassword" stanza = [].
Proof.
  split; [discriminate|]. eexists. split; [reflexivity|].
  split; reflexivity.
Qed.

(** C4, as stated, fails on the empty string: [joinLobbyRoom("Alice",
    undefined, "")] by somebody who is not a moderator is given a password,
    makes a lobby room and never calls [mainRoom.join]. *)
Lemma empty_shared_password_joins_lobby :
  let w1 := snd (joinLobbyRoom (Some "Alice") None (Some "") participant) in
  Some "" <> @None string
  /\ joined_moderator participant = false
  /\ isModerator (mainRoom participant) = false
  /\ trace w1
     = [CreateRoom (Some "room1") lobby_options;
        RemoveFromPresence 0 "nick";
        AddToPresence 0 "nick" (Some "Alice")
          [("xmlns", "http://jabber.org/protocol/nick")];
        Join 0]
  /\ length (rooms w1) = 1
  /\ lobbyRoom w1 = Some 0.
Proof.
  split; [discriminate|]. repeat split.
Qed.

(** C5, as stated, fails: the controller has a lobby room reference while
    the join is still pending, and it still has it after the kick of its
    own presence. *)
Lemma lobby_reference_kept_after_kick :
  let w1 := run participant [CallJoinLobbyRoom (Some "Alice") None None] in
  let w3 := run w1 [Fires 0 MucJoined; Fires 0 (Kicked true)] in
  state_of (Own 0) w1 = Some Pending
  /\ lobbyRoom w1 <> None
  /\ trace w3 = trace w1 ++ [Emit MUC_DENIED_ACCESS; Clean 0]
  /\ lobbyRoom w3 = Some 0
  /\ lobbyRoom w3 <> None.
Proof.
  cbn. repeat split; discriminate.
Qed.

(** C8, as stated, fails on the empty string: [joinLobbyRoom("Alice", "")]
    is given an e-mail argument, and no second presence is sent once the
    lobby room is joined. *)
Lemma empty_email_not_sent :
  let w1 := run participant [CallJoinLobbyRoom (Some "Alice") (Some "") None] in
  let w2 := step w1 (Fires 0 MucJoined) in
  Some "" <> @None string
  /\ joined_moderator participant = false
  /\ state_of (Own 0) w2 = Some (Settled Fulfilled)
  /\ trace w2 = trace w1.
Proof.
  split; [discriminate|]. repeat split.
Qed.

(** * Further properties of the controller *)

(** ** Transport errors of [enableLobby] *)

(** X1. When the configuration query of [enableLobby] fails, the promise
    is rejected with the error the connection hands over; nothing but the
    query has been sent, no room is made, and as long as [enableLobby] is
    not called again no configuration submission follows. *)
Theorem enableLobby_query_fails (password : JsString) (e : JsError)
    (w : World) (inputs : list Input) :
  truthy (lobbyroomComponentAddress (xmpp w)) = true ->
  let p := length (promises w) in
  let n := length (pendingIQ (xmpp w)) in
  let w1 := snd (enableLobby password w) in
  let w2 := step w1 (IqError n e) in
  state_of (Own p) w2 = Some (Settled (Rejected e))
  /\ trace w2
     = trace w ++ [SendIQ (config_query_stanza (roomjid (mainRoom w)))]
  /\ rooms w2 = rooms w
  /\ lobbyRoom w2 = lobbyRoom w
  /\ (no_form_awaited w ->
      forallb (fun i => negb (is_enableLobby i)) inputs = true ->
      submissions (run w2 inputs) = submissions w).
Proof.
  intros Hs p n w1 w2.
  assert (E1 : w1 = snd (enableLobby password w)) by reflexivity.
  rewrite (enableLobby_supported _ _ Hs) in E1. cbn [snd] in E1.
  assert (Hpending : pendingIQ (xmpp w1)
                     = pendingIQ (xmpp w) ++ [Some (ConfigFormReply p password)])
    by now rewrite E1.
  set (w1' := with_xmpp
                (fun x => mkXMPP (lobbyroomComponentAddress x)
                            (pendingIQ (xmpp w) ++ [None])) w1).
  destruct (settle_promises p (Rejected e) w1') as [ps [E [_ K]]].
  assert (Hpend : nth_error (promises w1') p = Some Pending)
    by (subst w1'; rewrite E1; cbn; apply nth_error_last).
  assert (E2 : w2 = with_promises (fun _ => ps) w1').
  { unfold w2, step, handle, bind, n.
    rewrite (take_callback_last w1 (pendingIQ (xmpp w)) _ Hpending).
    cbn [on_error]. unfold reject. fold w1'. now rewrite E. }
  clearbody w2. subst w2 w1'. rewrite E1.
  cbn [state_of promises trace rooms lobbyRoom with_promises with_xmpp].
  split; [exact (proj1 (K Hpend))|].
  repeat (split; [reflexivity|]).
  intros Hw Hin.
  match goal with |- submissions (run ?v inputs) = _ => set (w2 := v) end.
  assert (H2 : no_form_awaited w2).
  { unfold no_form_awaited in *. subst w2. cbn.
    now apply existsb_app_false. }
  destruct (quiet_run inputs w2 Hin H2) as [_ S].
  rewrite S. unfold submissions at 1. subst w2. cbn [trace].
  now apply submissions_app.
Qed.

(** X2. When the configuration submission of [enableLobby] fails, the
    promise is rejected with the error the connection hands over and
    [joinLobbyRoom] is not run: the two requests are all that was sent, no
    room is made and [this.lobbyRoom] is as it was. *)
Theorem enableLobby_submission_fails (password : JsString) (res : Xml)
    (e : JsError) (w : World) :
  truthy (lobbyroomComponentAddress (xmpp w)) = true ->
  membersonly_fields res <> [] ->
  let p := length (promises w) in
  let n := length (pendingIQ (xmpp w)) in
  let room := roomjid (mainRoom w) in
  let w1 := snd (enableLobby password w) in
  let w2 := step w1 (IqResult n res) in
  let w3 := step w2 (IqError (S n) e) in
  state_of (Own p) w2 = Some Pending
  /\ state_of (Own p) w3 = Some (Settled (Rejected e))
  /\ trace w3
     = trace w ++ [SendIQ (config_query_stanza room);
                   SendIQ (config_submission room password)]
  /\ rooms w3 = rooms w
  /\ lobbyRoom w3 = lobbyRoom w
  /\ mainRoom w3 = mainRoom w.
Proof.
  intros Hs Hres p n room w1 w2 w3.
  assert (E2 : w2 = with_xmpp
                      (fun x =>
                         mkXMPP (lobbyroomComponentAddress x)
                           ((pendingIQ (xmpp w) ++ [None])
                            ++ [Some (ConfigSubmitReply p)]))
                      (submitted password w))
    by apply (form_with_membersonly password res w Hs Hres).
  assert (Hn : S n = length (pendingIQ (xmpp w) ++ [None]))
    by (unfold n; rewrite length_app; cbn; lia).
  destruct (settle_promises p (Rejected e) (submitted password w))
    as [ps [E [_ K]]].
  assert (Hpend : nth_error (promises (submitted password w)) p
                  = Some Pending)
    by (cbn; apply nth_error_last).
  assert (E3 : w3 = with_promises (fun _ => ps) (submitted password w)).
  { unfold w3, step, handle, bind. rewrite Hn.
    rewrite (take_callback_last w2 (pendingIQ (xmpp w) ++ [None])
               (ConfigSubmitReply p)) by now rewrite E2.
    cbn [on_error]. unfold reject.
    replace (with_xmpp _ w2) with (submitted password w)
      by now rewrite E2.
    now rewrite E. }
  clearbody w3 w2. subst w3 w2.
  cbn [state_of promises trace rooms lobbyRoom mainRoom with_promises
         with_xmpp submitted].
  split; [apply nth_error_last|].
  split; [exact (proj1 (K Hpend))|].
  split; [now rewrite <- app_assoc|].
  repeat split.
Qed.

(** ** Relations that every turn of the event loop respects *)

Section Turns.

Variable R : World -> World -> Prop.
Hypothesis R_refl : forall w, R w w.
Hypothesis R_trans : forall w1 w2 w3, R w1 w2 -> R w2 w3 -> R w1 w3.
Hypothesis R_act :
  forall a w, (forall x, a <> SendIQ x) ->
              R w (with_trace (fun t => t ++ [a]) w).
Hypothesis R_log : forall f w, R w (with_log f w).
Hypothesis R_settle : forall p o, respects R (settle p o).
Hypothesis R_link : forall source p, respects R (link source p).
Hypothesis R_reactions : forall source o w, R w (run_reactions source o w).
Hypothesis R_sendIQ : forall stanza cb, respects R (sendIQ stanza cb).
Hypothesis R_take_callback : forall n, respects R (take_callback n).
Hypothesis R_joinLobbyRoom :
  forall displayName email password,
    respects R (joinLobbyRoom displayName email password).
Hypothesis R_enableLobby : forall password, respects R (enableLobby password).
Hypothesis R_mainRoom_state :
  forall j m w,
    R w (with_mainRoom
           (fun r => mkMainRoom (roomjid r) j m (mainListeners r)) w).
Hypothesis R_members :
  forall r ms w,
    R w (with_rooms
           (update_nth r (fun room =>
              mkChatRoom (roomName room) (options room) ms
                (eventListeners room) (presenceListeners room))) w).

Lemma turn_this_lobbyRoom : respects R this_lobbyRoom.
Proof.
  intros v. unfold this_lobbyRoom. js_unfold. cbv beta.
  destruct (lobbyRoom v) as [r|]; [|apply R_refl].
  destruct (nth_error (rooms v) r); apply R_refl.
Qed.

Lemma turn_lobbyRoom_act (a : nat -> Action) :
  (forall r x, a r <> SendIQ x) -> respects R (lobbyRoom_act a).
Proof.
  intros H. unfold lobbyRoom_act.
  apply respects_bind; [exact R_trans|apply turn_this_lobbyRoom|].
  intros r w. apply R_act. apply H.
Qed.

Lemma turn_run_handler (h : Handler) (f : Fired) :
  respects R (run_handler h f).
Proof.
  destruct h, f; cbn [run_handler]; try (intros w; apply R_refl).
  - intros w. now apply R_act.
  - intros w. now apply R_act.
  - apply respects_when; [exact R_refl|].
    apply respects_bind; [exact R_trans| |intros _].
    + intros w. now apply R_act.
    + now apply turn_lobbyRoom_act.
  - apply respects_bind; [exact R_trans| |intros _].
    { intros w. apply R_log. }
    apply respects_bind; [exact R_trans|exact R_refl|intros w].
    apply respects_when; [exact R_refl|].
    apply respects_bind; [exact R_trans| |intros _].
    + unfold mainRoom_join.
      apply respects_bind; [exact R_trans|exact R_refl|intros v].
      apply respects_bind; [exact R_trans| |intros _; exact R_refl].
      intros u. now apply R_act.
    + now apply turn_lobbyRoom_act.
  - apply respects_bind; [exact R_trans|apply R_settle|intros _].
    apply respects_when; [exact R_refl|].
    repeat (apply respects_bind;
            [exact R_trans|now apply turn_lobbyRoom_act|intros _]).
    now apply turn_lobbyRoom_act.
  - apply R_settle.
  - apply R_settle.
  - apply R_settle.
Qed.

Lemma turn_access (id : string) :
  respects R (denyAccess id) /\ respects R (approveAccess id).
Proof.
  split.
  - unfold denyAccess, isLobbySupported.
    apply respects_bind; [exact R_trans| |intros supported].
    { apply respects_bind; [exact R_trans|exact R_refl|].
      intros w. exact R_refl. }
    apply respects_bind; [exact R_trans|exact R_refl|intros w].
    destruct (negb supported || negb (isModerator (mainRoom w)));
      [exact R_refl|].
    apply respects_bind; [exact R_trans|apply turn_this_lobbyRoom|].
    intros r. destruct (truthy (find_member id (snd r))).
    + intros v. now apply R_act.
    + intros v. apply R_log.
  - unfold approveAccess, isLobbySupported.
    apply respects_bind; [exact R_trans| |intros supported].
    { apply respects_bind; [exact R_trans|exact R_refl|].
      intros w. exact R_refl. }
    apply respects_bind; [exact R_trans|exact R_refl|intros w].
    destruct (negb supported || negb (isModerator (mainRoom w)));
      [exact R_refl|].
    apply respects_bind; [exact R_trans|apply turn_this_lobbyRoom|].
    intros r. destruct (truthy (find_member id (snd r))).
    + destruct (member_at _ _); [apply R_sendIQ | exact R_refl].
    + intros v. apply R_log.
Qed.

Lemma turn_handle (i : Input) : respects R (handle i).
Proof.
  destruct i as [password|displayName email password|id|id|n res|n e
                |room f|f|o|call o|j m|room ms]; cbn [handle].
  - apply respects_bind; [exact R_trans|apply R_enableLobby|].
    intros _. exact R_refl.
  - apply respects_bind; [exact R_trans|apply R_joinLobbyRoom|].
    intros _. exact R_refl.
  - apply turn_access.
  - apply turn_access.
  - apply respects_bind; [exact R_trans|apply R_take_callback|].
    intros [[p password|p|jid0]|]; cbn [on_success]; try exact R_refl.
    + destruct (0 <? length (membersonly_fields res))%nat.
      * apply respects_bind; [exact R_trans|exact R_refl|intros w].
        apply R_sendIQ.
      * apply R_settle.
    + apply respects_bind; [exact R_trans|apply R_joinLobbyRoom|].
      intros j. apply R_link.
  - apply respects_bind; [exact R_trans|apply R_take_callback|].
    intros [[p password|p|jid0]|]; cbn [on_error]; try exact R_refl;
      try apply R_settle.
    intros w. apply R_log.
  - unfold fire. apply respects_bind; [exact R_trans|exact R_refl|intros w].
    destruct (nth_error (rooms w) room); [|exact R_refl].
    apply respects_for_each; [exact R_refl|exact R_trans|].
    intros h. apply turn_run_handler.
  - unfold fire_main.
    apply respects_bind; [exact R_trans|exact R_refl|intros w].
    apply respects_for_each; [exact R_refl|exact R_trans|].
    intros h. apply turn_run_handler.
  - intros w. cbn. rewrite leave_settled_swallows. apply R_refl.
  - intros w. apply R_reactions.
  - intros w. apply R_mainRoom_state.
  - intros w. apply R_members.
Qed.

Lemma turn_run (inputs : list Input) (w : World) : R w (run w inputs).
Proof.
  revert w. induction inputs as [|i inputs IH]; intros w; cbn.
  - apply R_refl.
  - eapply R_trans; [apply turn_handle | apply IH].
Qed.

End Turns.

(** ** Settled promises *)

Lemma settled_same (w w' : World) :
  promises w' = promises w -> settled_kept w w'.
Proof. intros H p o. now rewrite H. Qed.

Lemma settled_trans (w1 w2 w3 : World) :
  settled_kept w1 w2 -> settled_kept w2 w3 -> settled_kept w1 w3.
Proof. intros H12 H23 p o H. apply H23, H12, H. Qed.

Lemma settled_settle (p : nat) (o : Outcome) :
  respects settled_kept (settle p o).
Proof.
  intros w. destruct (settle_promises p o w) as [ps [E [K _]]].
  rewrite E. cbn. exact K.
Qed.

Lemma settled_reactions (source : PromiseRef) (o : Outcome) (w : World) :
  settled_kept w (run_reactions source o w).
Proof.
  destruct (run_reactions_promises source o w) as [ps [E [K _]]].
  rewrite E. exact K.
Qed.

Lemma settled_link (source : PromiseRef) (p : nat) :
  respects settled_kept (link source p).
Proof.
  intros w. unfold link. js_unfold. cbv beta.
  destruct source as [s|c]; [|now apply settled_same].
  destruct (nth_error (promises w) s) as [[|o]|]; cbn [snd];
    try now apply settled_same.
  rewrite then_resolve_catch_reject_promises.
  intros q o' Hq. cbn. now apply settle_only_settled.
Qed.

Lemma settled_joinLobbyRoom (displayName email password : JsString) :
  respects settled_kept (joinLobbyRoom displayName email password).
Proof.
  intros w.
  destruct (truthy password && negb (joined_moderator w)) eqn:E.
  - apply andb_true_iff in E. destruct E as [Hp Hm].
    apply negb_true_iff in Hm.
    rewrite (joinLobbyRoom_shared_password _ _ _ _ Hp Hm).
    now apply settled_same.
  - rewrite (joinLobbyRoom_lobby _ _ _ _ E). cbn [snd].
    intros p o H. cbn. now apply nth_error_app_old.
Qed.

Lemma settled_enableLobby (password : JsString) :
  respects settled_kept (enableLobby password).
Proof.
  intros w. unfold enableLobby. js_unfold. cbv beta.
  destruct (truthy (lobbyroomComponentAddress (xmpp w))); cbn [negb snd];
    intros p o H; cbn; now apply nth_error_app_old.
Qed.

Lemma settled_take_callback (n : nat) :
  respects settled_kept (take_callback n).
Proof.
  intros w. unfold take_callback. js_unfold. cbv beta.
  destruct (nth_error (pendingIQ (xmpp w)) n) as [[cb|]|];
    now apply settled_same.
Qed.

Lemma settled_run (inputs : list Input) (w : World) :
  settled_kept w (run w inputs).
Proof.
  apply turn_run.
  - intros v. now apply settled_same.
  - exact settled_trans.
  - intros a v _. now apply settled_same.
  - intros f v. now apply settled_same.
  - exact settled_settle.
  - exact settled_link.
  - exact settled_reactions.
  - intros stanza cb v. now apply settled_same.
  - exact settled_take_callback.
  - exact settled_joinLobbyRoom.
  - exact settled_enableLobby.
  - intros j m v. now apply settled_same.
  - intros r ms v. now apply settled_same.
Qed.

(** X4. The lobby join settles with its first outcome.  After a
    [joinLobbyRoom] call through the lobby, once [MUC_JOINED] has resolved
    the promise no join error that comes later rejects it, and once a join
    error has rejected it with its error no [MUC_JOINED] that comes later
    resolves it. *)
Theorem lobby_join_first_outcome (displayName email password : JsString)
    (w : World) (f : Fired) (e : JsError) (inputs : list Input) :
  truthy password && negb (joined_moderator w) = false ->
  JoinFailure f e ->
  let r := length (rooms w) in
  let p := length (promises w) in
  let w1 := snd (joinLobbyRoom displayName email password w) in
  state_of (Own p) (run (step w1 (Fires r MucJoined)) (Fires r f :: inputs))
  = Some (Settled Fulfilled)
  /\ state_of (Own p) (run (step w1 (Fires r f)) (Fires r MucJoined :: inputs))
     = Some (Settled (Rejected e)).
Proof.
  intros Hpath Hf r p w1.
  assert (Hpend : nth_error (promises w1) p = Some Pending).
  { unfold w1. rewrite (joinLobbyRoom_lobby _ _ _ _ Hpath). cbn.
    apply nth_error_last. }
  split.
  - destruct (lobby_joined_later displayName email password w w1 Hpath
                (keeps_refl w1)) as [current [ps [_ [E [_ K]]]]].
    fold r in E. fold p in K.
    apply settled_run. rewrite E. exact (proj1 (K Hpend)).
  - destruct (lobby_join_failed_later displayName email password w w1 f e
                Hpath (keeps_refl w1) Hf) as [ps [E [_ K]]].
    fold r in E. fold p in K.
    apply settled_run. rewrite E. exact (proj1 (K Hpend)).
Qed.

(** ** The lobby room reference is the room made last *)

Lemma latest_same (w w' : World) :
  lobbyRoom w' = lobbyRoom w ->
  length (rooms w') = length (rooms w) ->
  latest_kept w w'.
Proof.
  unfold latest_kept, latest_room. intros Hl Hr. rewrite Hl, Hr.
  destruct (lobbyRoom w); [auto|].
  intros H. rewrite H in Hr. now apply length_zero_iff_nil.
Qed.

Lemma latest_joinLobbyRoom (displayName email password : JsString) :
  respects latest_kept (joinLobbyRoom displayName email password).
Proof.
  intros w.
  destruct (truthy password && negb (joined_moderator w)) eqn:E.
  - apply andb_true_iff in E. destruct E as [Hp Hm].
    apply negb_true_iff in Hm.
    rewrite (joinLobbyRoom_shared_password _ _ _ _ Hp Hm).
    now apply latest_same.
  - rewrite (joinLobbyRoom_lobby _ _ _ _ E). cbn [snd].
    intros _. unfold latest_room. cbn. rewrite length_app. cbn. lia.
Qed.

Lemma latest_run (inputs : list Input) (w : World) :
  latest_kept w (run w inputs).
Proof.
  apply turn_run.
  - intros v. now apply latest_same.
  - intros w1 w2 w3 H12 H23 H. auto.
  - intros a v _. now apply latest_same.
  - intros f v. now apply latest_same.
  - intros p o v. destruct (settle_promises p o v) as [ps [E _]].
    rewrite E. now apply latest_same.
  - intros source p v. unfold link. js_unfold. cbv beta.
    destruct source as [s|c]; [|now apply latest_same].
    destruct (nth_error (promises v) s) as [[|o]|]; cbn [snd];
      try rewrite then_resolve_catch_reject_promises; now apply latest_same.
  - intros source o v.
    destruct (run_reactions_promises source o v) as [ps [E _]].
    rewrite E. now apply latest_same.
  - intros stanza cb v. now apply latest_same.
  - intros n v. unfold take_callback. js_unfold. cbv beta.
    destruct (nth_error (pendingIQ (xmpp v)) n) as [[cb|]|];
      now apply latest_same.
  - exact latest_joinLobbyRoom.
  - intros password v. unfold enableLobby. js_unfold. cbv beta.
    destruct (truthy (lobbyroomComponentAddress (xmpp v)));
      now apply latest_same.
  - intros j m v. now apply latest_same.
  - intros r ms v. apply latest_same; [reflexivity|].
    cbn. apply update_nth_length.
Qed.

(** X5. Whatever is done with a controller made by [new Lobby(room)],
    [this.lobbyRoom] is [undefined] exactly as long as the controller has
    made no room, and afterwards it is always the room the controller made
    last. *)
Theorem lobbyRoom_is_latest (x : XMPP) (room : MainRoom)
    (inputs : list Input) :
  let v := run (constructor x room) inputs in
  (lobbyRoom v = None <-> rooms v = [])
  /\ (forall r, lobbyRoom v = Some r -> S r = length (rooms v)).
Proof.
  intros v.
  assert (H : latest_room v) by (apply latest_run; reflexivity).
  unfold latest_room in H. destruct (lobbyRoom v) as [r|]; split.
  - split; [discriminate|]. intros E. rewrite E in H. discriminate.
  - intros r' [= <-]. exact H.
  - split; auto.
  - discriminate.
Qed.

(** ** Joining the lobby again *)

(** Two [joinLobbyRoom] calls through the lobby by somebody who is not a
    moderator, one after the other. *)
Lemma joinLobbyRoom_again (displayName1 email1 password1 : JsString)
    (displayName2 email2 password2 : JsString) (w : World) :
  joined_moderator w = false ->
  truthy password1 = false ->
  truthy password2 = false ->
  let r1 := length (rooms w) in
  let w1 := snd (joinLobbyRoom displayName1 email1 password1 w) in
  let w2 := snd (joinLobbyRoom displayName2 email2 password2 w1) in
  lobbyRoom w2 = Some (S r1)
  /\ mainListeners (mainRoom w2)
     = mainListeners (mainRoom w)
       ++ [(INVITE_MESSAGE_RECEIVED, OnInvite);
           (INVITE_MESSAGE_RECEIVED, OnInvite)]
  /\ roomjid (mainRoom w2) = roomjid (mainRoom w)
  /\ (exists room, nth_error (rooms w2) r1 = Some room
                   /\ same_listeners (lobby_room_of w email1) room)
  /\ nth_error (rooms w2) (S r1) = Some (lobby_room_of w1 email2)
  /\ joined_moderator w1 = false.
Proof.
  intros Hm Hp1 Hp2 r1 w1 w2.
  assert (Hpath1 : truthy password1 && negb (joined_moderator w) = false)
    by now rewrite Hp1.
  assert (E1 : w1 = snd (joinLobbyRoom displayName1 email1 password1 w))
    by reflexivity.
  rewrite (joinLobbyRoom_lobby _ _ _ _ Hpath1), Hm in E1. cbn [snd] in E1.
  assert (Hm1 : joined_moderator w1 = false)
    by (rewrite E1; exact Hm).
  assert (Hpath2 : truthy password2 && negb (joined_moderator w1) = false)
    by now rewrite Hp2.
  assert (Hlen : length (rooms w1) = S r1)
    by (rewrite E1; cbn; rewrite length_app; cbn; lia).
  assert (E2 : w2 = snd (joinLobbyRoom displayName2 email2 password2 w1))
    by reflexivity.
  rewrite (joinLobbyRoom_lobby _ _ _ _ Hpath2), Hm1 in E2. cbn [snd] in E2.
  split; [now rewrite E2, Hlen|].
  split; [rewrite E2, E1; cbn; now rewrite <- app_assoc|].
  split; [now rewrite E2, E1|].
  split.
  - exists (lobby_room_of w email1). split; [|now split].
    rewrite E2. cbn [rooms]. apply nth_error_app_old.
    rewrite E1. apply nth_error_last.
  - split; [|exact Hm1]. rewrite E2. cbn [rooms]. rewrite <- Hlen.
    apply nth_error_last.
Qed.

(** X6. The kick listener works on the lobby room that is current, not on
    the room it was registered on: after somebody who is not a moderator
    has joined the lobby twice, a kick of the own presence seen in the
    first room emits [MUC_DENIED_ACCESS] and cleans the second room, as a
    kick seen in the second room does; the first room is not cleaned. *)
Theorem kick_after_joining_again (displayName1 email1 password1 : JsString)
    (displayName2 email2 password2 : JsString) (w : World) :
  joined_moderator w = false ->
  truthy password1 = false ->
  truthy password2 = false ->
  let r1 := length (rooms w) in
  let w1 := snd (joinLobbyRoom displayName1 email1 password1 w) in
  let w2 := snd (joinLobbyRoom displayName2 email2 password2 w1) in
  lobbyRoom w1 = Some r1
  /\ lobbyRoom w2 = Some (S r1)
  /\ step w2 (Fires r1 (Kicked true))
     = with_trace (fun t => t ++ [Emit MUC_DENIED_ACCESS; Clean (S r1)]) w2
  /\ step w2 (Fires (S r1) (Kicked true))
     = with_trace (fun t => t ++ [Emit MUC_DENIED_ACCESS; Clean (S r1)]) w2.
Proof.
  intros Hm Hp1 Hp2 r1 w1 w2.
  destruct (joinLobbyRoom_again displayName1 email1 password1 displayName2
              email2 password2 w Hm Hp1 Hp2)
    as [Hc [_ [_ [[room [Hroom Hsame]] [Hroom2 Hm1]]]]].
  fold r1 in Hc, Hroom, Hroom2. fold w1 in Hc, Hroom, Hroom2, Hm1.
  fold w2 in Hc, Hroom, Hroom2.
  split.
  { unfold w1. rewrite joinLobbyRoom_lobby by now rewrite Hp1.
    reflexivity. }
  split; [exact Hc|].
  split.
  - unfold step, handle. rewrite (fire_room _ _ _ _ Hroom).
    rewrite (listeners_of_same _ _ _ Hsame).
    unfold lobby_room_of at 1. rewrite Hm.
    cbn [listeners_of listening event_of eventListeners app filter map fst
           snd XMPPEvent_eqb join_listeners].
    rewrite for_each_one.
    now rewrite (run_OnKicked_self w2 (S r1) _ Hc Hroom2).
  - unfold step, handle. rewrite (fire_room _ _ _ _ Hroom2).
    unfold lobby_room_of at 1. rewrite Hm1.
    cbn [listeners_of listening event_of eventListeners app filter map fst
           snd XMPPEvent_eqb join_listeners].
    rewrite for_each_one.
    now rewrite (run_OnKicked_self w2 (S r1) _ Hc Hroom2).
Qed.

(** X7. The invite listener is added by every waiting [joinLobbyRoom] call
    and never removed: after somebody who is not a moderator has joined
    the lobby twice on a controller without earlier listeners, one invite
    for the main room makes the controller call [mainRoom.join()] twice
    and [leave()] twice, both times on the second lobby room. *)
Theorem invite_after_joining_again (displayName1 email1 password1 : JsString)
    (displayName2 email2 password2 : JsString) (from : string)
    (txt : JsString) (w : World) :
  joined_moderator w = false ->
  truthy password1 = false ->
  truthy password2 = false ->
  mainListeners (mainRoom w) = [] ->
  let r1 := length (rooms w) in
  let room := roomjid (mainRoom w) in
  let w1 := snd (joinLobbyRoom displayName1 email1 password1 w) in
  let w2 := snd (joinLobbyRoom displayName2 email2 password2 w1) in
  step w2 (MainFires (InviteMessageReceived room from txt))
  = with_trace
      (fun t =>
         t ++ [MainRoomJoin None; Leave (S r1);
               MainRoomJoin None; Leave (S r1)])
      (with_log
         (fun l =>
            l ++ [approval_received room from txt;
                  approval_received room from txt])
         w2).
Proof.
  intros Hm Hp1 Hp2 Hl r1 room w1 w2.
  destruct (joinLobbyRoom_again displayName1 email1 password1 displayName2
              email2 password2 w Hm Hp1 Hp2)
    as [Hc [Hls [Hjid [_ [Hroom2 _]]]]].
  fold r1 in Hc, Hroom2. fold w1 in Hc, Hls, Hjid, Hroom2.
  fold w2 in Hc, Hls, Hjid, Hroom2. rewrite Hl in Hls. cbn [app] in Hls.
  unfold step, handle, fire_main. js_unfold. cbv beta. rewrite Hls.
  cbn [listening event_of filter map fst snd XMPPEvent_eqb].
  change [OnInvite; OnInvite] with (repeat OnInvite 2).
  rewrite (invites_for_main_room 2 room from txt w2 (S r1) _
             (eq_sym Hjid) Hc Hroom2).
  reflexivity.
Qed.

(** ** What each role's listeners leave alone *)

Lemma step_without_listeners (r : nat) (f : Fired) (v : World)
    (room : ChatRoom) :
  nth_error (rooms v) r = Some room ->
  listeners_of f room = [] ->
  step v (Fires r f) = v.
Proof.
  intros Hroom Hl. unfold step, handle.
  now rewrite (fire_room _ _ _ _ Hroom), Hl.
Qed.

(** X8. A moderator (joined to the main room and a moderator of it) always
    goes through the lobby, with or without a password: [joinLobbyRoom]
    never calls [mainRoom.join] and adds no listener to the main room, and
    since no kick listener is registered for a moderator, a kick in the
    lobby room changes nothing, at any later time. *)
Theorem moderator_join_ignores_password
    (displayName email password : JsString) (w : World)
    (inputs : list Input) :
  joined_moderator w = true ->
  let r := length (rooms w) in
  let w1 := snd (joinLobbyRoom displayName email password w) in
  let v := run w1 inputs in
  trace w1
  = trace w
    ++ [CreateRoom (Strophe.getNodeFromJid (roomjid (mainRoom w)))
          (mkOptions true true (lobbyroomComponentAddress (xmpp w)))]
    ++ (if truthy displayName
        then [RemoveFromPresence r "nick";
              AddToPresence r "nick" displayName
                [("xmlns", "http://jabber.org/protocol/nick")]]
        else [])
    ++ [Join r]
  /\ mainRoom w1 = mainRoom w
  /\ lobbyRoom w1 = Some r
  /\ (forall isSelfPresence, step v (Fires r (Kicked isSelfPresence)) = v).
Proof.
  intros Hm r w1 v.
  assert (Hpath : truthy password && negb (joined_moderator w) = false)
    by (rewrite Hm; apply andb_false_r).
  destruct (lobby_room_later displayName email password w inputs Hpath)
    as [[room [Hroom Hsame]] _].
  fold w1 in Hroom. fold v in Hroom. fold r in Hroom.
  assert (E1 : w1 = snd (joinLobbyRoom displayName email password w))
    by reflexivity.
  rewrite (joinLobbyRoom_lobby _ _ _ _ Hpath), Hm in E1. cbn [snd] in E1.
  split; [now rewrite E1|]. split; [now rewrite E1|].
  split; [now rewrite E1|].
  intros b. apply (step_without_listeners r _ v room Hroom).
  rewrite (listeners_of_same _ _ _ Hsame).
  unfold lobby_room_of. rewrite Hm. reflexivity.
Qed.

(** X9. A waiting participant (not a moderator, through the lobby) is told
    nothing about the others in the lobby room: no listener is registered
    for [MUC_MEMBER_JOINED] or for any presence command, so such events of
    the lobby room change nothing, at any later time. *)
Theorem waiting_participant_not_notified
    (displayName email password : JsString) (w : World)
    (inputs : list Input) :
  joined_moderator w = false ->
  truthy password = false ->
  let r := length (rooms w) in
  let v := run (snd (joinLobbyRoom displayName email password w)) inputs in
  (forall from nick role isHiddenDomain statsID status identity,
     step v (Fires r (MemberJoined from nick role isHiddenDomain statsID
                        status identity)) = v)
  /\ (forall node from, step v (Fires r (Presence node from)) = v).
Proof.
  intros Hm Hp r v.
  assert (Hpath : truthy password && negb (joined_moderator w) = false)
    by now rewrite Hp.
  destruct (lobby_room_later displayName email password w inputs Hpath)
    as [[room [Hroom Hsame]] _].
  fold v in Hroom. fold r in Hroom.
  split.
  - intros from nick role isHiddenDomain statsID status identity.
    apply (step_without_listeners r _ v room Hroom).
    rewrite (listeners_of_same _ _ _ Hsame).
    unfold lobby_room_of. rewrite Hm. reflexivity.
  - intros node from.
    apply (step_without_listeners r _ v room Hroom).
    rewrite (listeners_of_same _ _ _ Hsame).
    unfold lobby_room_of. rewrite Hm. reflexivity.
Qed.

(** X10. The display name goes into the presence before the join is
    issued: a [joinLobbyRoom] call through the lobby makes the room with
    the node of the main room's identifier as its name and the lobby
    component as its domain, then, for a truthy display name only, removes
    the nickname from the presence and adds the new one, and calls [join]
    last; an empty display name is treated like none. *)
Theorem display_name_before_join (displayName email password : JsString)
    (w : World) :
  truthy password && negb (joined_moderator w) = false ->
  let r := length (rooms w) in
  let w1 := snd (joinLobbyRoom displayName email password w) in
  let made :=
    CreateRoom (Strophe.getNodeFromJid (roomjid (mainRoom w)))
      (mkOptions true true (lobbyroomComponentAddress (xmpp w))) in
  (truthy displayName = true ->
   trace w1
   = trace w
     ++ [made;
         RemoveFromPresence r "nick";
         AddToPresence r "nick" displayName
           [("xmlns", "http://jabber.org/protocol/nick")];
         Join r])
  /\ (truthy displayName = false -> trace w1 = trace w ++ [made; Join r]).
Proof.
  intros Hpath r w1 made. unfold w1.
  rewrite (joinLobbyRoom_lobby _ _ _ _ Hpath). cbn [snd trace rooms].
  unfold lobby_join_calls. fold r. fold made.
  split; intros ->; reflexivity.
Qed.

(** ** Which member the moderator actions take *)

Lemma find_first {A : Type} (f : A -> bool) (pre post : list A) (x : A) :
  (forall y, In y pre -> f y = false) ->
  f x = true ->
  find f (pre ++ x :: post) = Some x.
Proof.
  intros Hpre Hx. induction pre as [|y pre IH]; cbn.
  - now rewrite Hx.
  - rewrite (Hpre y) by now left.
    apply IH. intros z Hz. apply Hpre. now right.
Qed.

(** The member that the lookup yields: the first entry, in key order, whose
    key has the resource [id]. *)
Lemma first_member (id : string) (room : ChatRoom)
    (pre post : list (string * Member)) (j : string) (member : Member) :
  members room = pre ++ (j, member) :: post ->
  (forall k, In k (map fst pre) -> Strophe.getResourceFromJid k <> Some id) ->
  Strophe.getResourceFromJid j = Some id ->
  find_member id room = Some j /\ member_at j room = Some member.
Proof.
  intros Hms Hpre Hj. unfold find_member, member_at. rewrite Hms. split.
  - rewrite map_app. cbn [map fst].
    apply find_first.
    + intros k Hk. specialize (Hpre k Hk).
      destruct (option_string_eqb (Strophe.getResourceFromJid k) id) eqn:E;
        [|reflexivity].
      apply option_string_eqb_eq in E. contradiction.
    + now apply option_string_eqb_eq.
  - rewrite (find_first (fun kv => fst kv =? j) pre post (j, member)).
    + reflexivity.
    + intros [k m] Hk. cbn [fst].
      destruct (String.eqb_spec k j) as [->|]; [|reflexivity].
      exfalso. apply (Hpre j); [|exact Hj].
      apply in_map_iff. now exists (j, m).
    + cbn. apply String.eqb_refl.
Qed.

(** X11. When several members of the lobby room have the resource [id],
    [denyAccess] and [approveAccess] take the first of them in the key
    order of the membership map: that one is kicked, and the invite names
    the [jid] of that one. *)
Theorem access_takes_first_member (id : string) (w : World) (r : nat)
    (room : ChatRoom) (pre post : list (string * Member)) (j : string)
    (member : Member) :
  truthy (lobbyroomComponentAddress (xmpp w)) = true ->
  isModerator (mainRoom w) = true ->
  lobbyRoom w = Some r ->
  nth_error (rooms w) r = Some room ->
  members room = pre ++ (j, member) :: post ->
  (forall k, In k (map fst pre) -> Strophe.getResourceFromJid k <> Some id) ->
  Strophe.getResourceFromJid j = Some id ->
  trace (step w (CallDenyAccess id)) = trace w ++ [Kick r j]
  /\ trace (step w (CallApproveAccess id))
     = trace w ++ [SendIQ (invite_message (roomjid (mainRoom w))
                             (jid member))].
Proof.
  intros Hs Hm Hr Hroom Hms Hpre Hj.
  destruct (first_member id room pre post j member Hms Hpre Hj) as [Hf Ha].
  unfold step, handle.
  rewrite (denyAccess_moderator id w r room Hs Hm Hr Hroom).
  rewrite (approveAccess_moderator id w r room Hs Hm Hr Hroom).
  rewrite Hf, Ha. split; reflexivity.
Qed.

(** X12. The moderator actions do not touch the membership map, so they
    compose: after [denyAccess(id)] an [approveAccess(id)] still finds the
    member and sends the invite, and the other way round the kick is still
    sent; both stanzas go out, in the order of the calls. *)
Theorem deny_and_approve_compose (id : string) (w : World) (r : nat)
    (room : ChatRoom) (pre post : list (string * Member)) (j : string)
    (member : Member) :
  truthy (lobbyroomComponentAddress (xmpp w)) = true ->
  isModerator (mainRoom w) = true ->
  lobbyRoom w = Some r ->
  nth_error (rooms w) r = Some room ->
  members room = pre ++ (j, member) :: post ->
  (forall k, In k (map fst pre) -> Strophe.getResourceFromJid k <> Some id) ->
  Strophe.getResourceFromJid j = Some id ->
  let invitation :=
    SendIQ (invite_message (roomjid (mainRoom w)) (jid member)) in
  trace (run w [CallDenyAccess id; CallApproveAccess id])
  = trace w ++ [Kick r j; invitation]
  /\ trace (run w [CallApproveAccess id; CallDenyAccess id])
     = trace w ++ [invitation; Kick r j]
  /\ rooms (run w [CallDenyAccess id; CallApproveAccess id]) = rooms w.
Proof.
  intros Hs Hm Hr Hroom Hms Hpre Hj invitation.
  destruct (first_member id room pre post j member Hms Hpre Hj) as [Hf Ha].
  cbn [run fold_left]. unfold step, handle.
  rewrite (denyAccess_moderator id w r room Hs Hm Hr Hroom), Hf.
  rewrite (approveAccess_moderator id w r room Hs Hm Hr Hroom), Hf, Ha.
  cbn [snd].
  rewrite (approveAccess_moderator id _ r room) by (destruct w; assumption).
  rewrite (denyAccess_moderator id _ r room) by (destruct w; assumption).
  rewrite Hf, Ha. cbn [snd].
  destruct w. cbn. now rewrite <- !app_assoc.
Qed.

(** X13. The reply to the invite of [approveAccess] is of no consequence:
    on success nothing happens, and on an error only a line is written to
    the log; in both cases nothing is sent, no promise and no room is
    touched, and the request is not awaited any more. *)
Theorem invite_reply (id : string) (w : World) (r : nat) (room : ChatRoom)
    (pre post : list (string * Member)) (j : string) (member : Member)
    (res : Xml) (e : JsError) :
  truthy (lobbyroomComponentAddress (xmpp w)) = true ->
  isModerator (mainRoom w) = true ->
  lobbyRoom w = Some r ->
  nth_error (rooms w) r = Some room ->
  members room = pre ++ (j, member) :: post ->
  (forall k, In k (map fst pre) -> Strophe.getResourceFromJid k <> Some id) ->
  Strophe.getResourceFromJid j = Some id ->
  let n := length (pendingIQ (xmpp w)) in
  let w1 := step w (CallApproveAccess id) in
  let answered :=
    with_xmpp
      (fun x => mkXMPP (lobbyroomComponentAddress x)
                  (pendingIQ (xmpp w) ++ [None])) w1 in
  step w1 (IqResult n res) = answered
  /\ step w1 (IqError n e)
     = with_log
         (fun l => l ++ [LogError ("Error sending invite for " ++ jid member)])
         answered.
Proof.
  intros Hs Hm Hr Hroom Hms Hpre Hj n w1 answered.
  destruct (first_member id room pre post j member Hms Hpre Hj) as [Hf Ha].
  assert (E1 : w1 = step w (CallApproveAccess id)) by reflexivity.
  unfold step, handle in E1.
  rewrite (approveAccess_moderator id w r room Hs Hm Hr Hroom), Hf, Ha in E1.
  cbn [snd] in E1.
  assert (Hpending : pendingIQ (xmpp w1)
                     = pendingIQ (xmpp w) ++ [Some (InviteReply (jid member))])
    by now rewrite E1.
  unfold step, handle, bind, n.
  rewrite (take_callback_last w1 (pendingIQ (xmpp w)) _ Hpending).
  split; reflexivity.
Qed.

(** X18. When no member of the lobby room has the resource [id], the
    moderator actions write one line to the log and do nothing else, and
    the line does not name the [id] that was asked for: the lookup has
    yielded [undefined], and that is what the line is made from. *)
Theorem member_not_found (id : string) (w : World) (r : nat)
    (room : ChatRoom) :
  truthy (lobbyroomComponentAddress (xmpp w)) = true ->
  isModerator (mainRoom w) = true ->
  lobbyRoom w = Some r ->
  nth_error (rooms w) r = Some room ->
  (forall j, In j (map fst (members room)) ->
             Strophe.getResourceFromJid j <> Some id) ->
  let line := LogError "Not found member for undefined in lobby room." in
  handle (CallDenyAccess id) w
  = (Normal tt, with_log (fun l => l ++ [line]) w)
  /\ handle (CallApproveAccess id) w
     = (Normal tt, with_log (fun l => l ++ [line]) w).
Proof.
  intros Hs Hm Hr Hroom Hnone line.
  apply find_member_none in Hnone.
  cbn [handle].
  rewrite (denyAccess_moderator id w r room Hs Hm Hr Hroom).
  rewrite (approveAccess_moderator id w r room Hs Hm Hr Hroom).
  rewrite Hnone. split; reflexivity.
Qed.

(** ** Where the controller can throw *)

Lemma lobby_defined_same (w w' : World) :
  lobbyRoom w' = lobbyRoom w -> rooms w' = rooms w ->
  lobby_defined w -> lobby_defined w'.
Proof.
  unfold lobby_defined. intros Hl Hr. now rewrite Hl, Hr.
Qed.

Lemma latest_room_defined (w : World) :
  latest_room w -> lobbyRoom w <> None -> lobby_defined w.
Proof.
  unfold latest_room, lobby_defined. intros H Hn.
  destruct (lobbyRoom w) as [r|]; [|contradiction].
  destruct (nth_error (rooms w) r) as [room|] eqn:E.
  - now exists r, room.
  - apply nth_error_None in E. lia.
Qed.

(** With a lobby room, a listener returns. *)
Lemma run_handler_returns (h : Handler) (f : Fired) (w : World) :
  lobby_defined w ->
  exists w', run_handler h f w = (Normal tt, w') /\ lobby_defined w'.
Proof.
  intros Hd. pose proof Hd as [r [room [Hr Hroom]]].
  destruct h as [| | | |p email moderator|p],
           f as [node from|from nick role hidden statsID status identity
                |isSelfPresence|roomJid from txt| |e|e|e];
    try (exists w; split; [reflexivity | exact Hd]).
  - eexists. split; [reflexivity|]. now apply (lobby_defined_same w).
  - eexists. split; [reflexivity|]. now apply (lobby_defined_same w).
  - destruct isSelfPresence.
    + rewrite (run_OnKicked_self w r room Hr Hroom).
      eexists. split; [reflexivity|]. now apply (lobby_defined_same w).
    + exists w. split; [reflexivity | exact Hd].
  - destruct (String.eqb_spec roomJid (roomjid (mainRoom w))) as [->|Hne].
    + rewrite (run_OnInvite_main_room from txt w r room Hr Hroom).
      eexists. split; [reflexivity|]. now apply (lobby_defined_same w).
    + rewrite (run_OnInvite_other_room roomJid from txt w Hne).
      eexists. split; [reflexivity|]. now apply (lobby_defined_same w).
  - destruct (run_OnLobbyJoined p email moderator w r room Hr Hroom)
      as [ps [E _]].
    rewrite E. eexists. split; [reflexivity|].
    now apply (lobby_defined_same w).
  - destruct (settle_promises p (Rejected e) w) as [ps [E _]].
    cbn [run_handler]. unfold reject. rewrite E.
    eexists. split; [reflexivity|]. now apply (lobby_defined_same w).
  - destruct (settle_promises p (Rejected e) w) as [ps [E _]].
    cbn [run_handler]. unfold reject. rewrite E.
    eexists. split; [reflexivity|]. now apply (lobby_defined_same w).
  - destruct (settle_promises p (Rejected e) w) as [ps [E _]].
    cbn [run_handler]. unfold reject. rewrite E.
    eexists. split; [reflexivity|]. now apply (lobby_defined_same w).
Qed.

Lemma for_each_handler_returns (f : Fired) (hs : list Handler) (w : World) :
  lobby_defined w ->
  fst (for_each (fun h => run_handler h f) hs w) = Normal tt.
Proof.
  revert w. induction hs as [|h hs IH]; intros w Hd; [reflexivity|].
  cbn [for_each]. unfold bind.
  destruct (run_handler_returns h f w Hd) as [w' [E Hd']].
  rewrite E. now apply IH.
Qed.

Lemma joinLobbyRoom_returns (displayName email password : JsString)
    (w : World) :
  exists p, fst (joinLobbyRoom displayName email password w) = Normal p.
Proof.
  destruct (truthy password && negb (joined_moderator w)) eqn:E.
  - apply andb_true_iff in E. destruct E as [Hp Hm].
    apply negb_true_iff in Hm.
    rewrite (joinLobbyRoom_shared_password _ _ _ _ Hp Hm). now eexists.
  - rewrite (joinLobbyRoom_lobby _ _ _ _ E). now eexists.
Qed.

Lemma link_returns (source : PromiseRef) (p : nat) (w : World) :
  fst (link source p w) = Normal tt.
Proof.
  unfold link. js_unfold. cbv beta.
  destruct source as [s|c]; [|reflexivity].
  destruct (nth_error (promises w) s) as [[|o]|]; reflexivity.
Qed.

Lemma settle_returns (p : nat) (o : Outcome) (w : World) :
  fst (settle p o w) = Normal tt.
Proof.
  destruct (settle_promises p o w) as [ps [E _]]. now rewrite E.
Qed.

Lemma take_callback_returns (n : nat) (w : World) :
  exists cb, fst (take_callback n w) = Normal cb.
Proof.
  unfold take_callback. js_unfold. cbv beta.
  destruct (nth_error (pendingIQ (xmpp w)) n) as [[cb|]|]; now eexists.
Qed.

Lemma listeners_same (w w' : World) :
  lobbyRoom w' = lobbyRoom w ->
  mainListeners (mainRoom w') = mainListeners (mainRoom w) ->
  listeners_kept w w'.
Proof.
  unfold listeners_kept, listeners_have_lobby. intros Hl Hm.
  now rewrite Hl, Hm.
Qed.

Lemma listeners_run (inputs : list Input) (w : World) :
  listeners_kept w (run w inputs).
Proof.
  apply turn_run.
  - intros v. now apply listeners_same.
  - intros w1 w2 w3 H12 H23 H. auto.
  - intros a v _. now apply listeners_same.
  - intros f v. now apply listeners_same.
  - intros p o v. destruct (settle_promises p o v) as [ps [E _]].
    rewrite E. now apply listeners_same.
  - intros source p v. unfold link. js_unfold. cbv beta.
    destruct source as [s|c]; [|now apply listeners_same].
    destruct (nth_error (promises v) s) as [[|o]|]; cbn [snd];
      try rewrite then_resolve_catch_reject_promises;
      now apply listeners_same.
  - intros source o v.
    destruct (run_reactions_promises source o v) as [ps [E _]].
    rewrite E. now apply listeners_same.
  - intros stanza cb v. now apply listeners_same.
  - intros n v. unfold take_callback. js_unfold. cbv beta.
    destruct (nth_error (pendingIQ (xmpp v)) n) as [[cb|]|];
      now apply listeners_same.
  - intros displayName email password v.
    destruct (truthy password && negb (joined_moderator v)) eqn:E.
    + apply andb_true_iff in E. destruct E as [Hp Hm].
      apply negb_true_iff in Hm.
      rewrite (joinLobbyRoom_shared_password _ _ _ _ Hp Hm).
      now apply listeners_same.
    + rewrite (joinLobbyRoom_lobby _ _ _ _ E). cbn [snd].
      intros _ _. discriminate.
  - intros password v. unfold enableLobby. js_unfold. cbv beta.
    destruct (truthy (lobbyroomComponentAddress (xmpp v)));
      now apply listeners_same.
  - intros j m v. now apply listeners_same.
  - intros r ms v. now apply listeners_same.
Qed.

Lemma on_success_returns (cb : IqCallback) (res : Xml) (w : World) :
  fst (on_success cb res w) = Normal tt.
Proof.
  destruct cb as [p password|p|jid0]; cbn [on_success].
  - destruct (0 <? length (membersonly_fields res))%nat.
    + reflexivity.
    + apply settle_returns.
  - unfold bind.
    destruct (joinLobbyRoom_returns None None None w) as [j Hj].
    destruct (joinLobbyRoom None None None w) as [[j'|e] w'];
      cbn [fst] in Hj; [|discriminate].
    apply link_returns.
  - reflexivity.
Qed.

Lemma on_error_returns (cb : IqCallback) (e : JsError) (w : World) :
  fst (on_error cb e w) = Normal tt.
Proof.
  destruct cb; cbn [on_error]; first [apply settle_returns | reflexivity].
Qed.

Lemma access_returns (id : string) (w : World) :
  lobby_defined w ->
  fst (denyAccess id w) = Normal tt /\ fst (approveAccess id w) = Normal tt.
Proof.
  intros [r [room [Hr Hroom]]].
  destruct (truthy (lobbyroomComponentAddress (xmpp w))) eqn:Hs.
  - destruct (isModerator (mainRoom w)) eqn:Hm.
    + rewrite (denyAccess_moderator id w r room Hs Hm Hr Hroom).
      rewrite (approveAccess_moderator id w r room Hs Hm Hr Hroom).
      destruct (find_member id room) as [j|] eqn:E; [|now split].
      destruct (find_member_some _ _ _ E) as [Hin _].
      destruct (member_at_key j room Hin) as [member [Ha _]].
      rewrite Ha. now split.
    + rewrite (denyAccess_not_moderator id w Hm).
      rewrite (approveAccess_not_moderator id w Hm). now split.
  - rewrite (denyAccess_unsupported id w Hs).
    rewrite (approveAccess_unsupported id w Hs). now split.
Qed.

(** A turn of the event loop that starts with a lobby room, or that is not
    a moderator action and starts from a world where the rooms and the
    listeners of the main room come with a lobby room, returns. *)
Lemma handle_returns (i : Input) (v : World) :
  latest_room v ->
  listeners_have_lobby v ->
  is_access i = false \/ lobbyRoom v <> None ->
  fst (handle i v) = Normal tt.
Proof.
  intros Hlatest Hlisteners Hi.
  destruct i as [password|displayName email password|id|id|n res|n e
                |room f|f|o|call o|j m|room ms]; cbn [handle];
    try reflexivity.
  - unfold enableLobby. js_unfold. cbv beta.
    now destruct (truthy (lobbyroomComponentAddress (xmpp v))).
  - unfold bind.
    destruct (joinLobbyRoom_returns displayName email password v) as [p Hp].
    destruct (joinLobbyRoom displayName email password v) as [[p'|e] w'];
      cbn [fst] in Hp; [reflexivity | discriminate].
  - destruct Hi as [Hi|Hi]; [discriminate|].
    apply access_returns. now apply latest_room_defined.
  - destruct Hi as [Hi|Hi]; [discriminate|].
    apply access_returns. now apply latest_room_defined.
  - unfold bind. destruct (take_callback_returns n v) as [cb Hcb].
    destruct (take_callback n v) as [[cb'|e] w'];
      cbn [fst] in Hcb; [|discriminate].
    destruct cb'; [apply on_success_returns | reflexivity].
  - unfold bind. destruct (take_callback_returns n v) as [cb Hcb].
    destruct (take_callback n v) as [[cb'|e'] w'];
      cbn [fst] in Hcb; [|discriminate].
    destruct cb'; [apply on_error_returns | reflexivity].
  - unfold fire. js_unfold. cbv beta.
    destruct (nth_error (rooms v) room) as [rm|] eqn:E; [|reflexivity].
    apply for_each_handler_returns. apply latest_room_defined; [assumption|].
    intros Hn. unfold latest_room in Hlatest. rewrite Hn in Hlatest.
    rewrite Hlatest in E. now destruct room.
  - unfold fire_main. js_unfold. cbv beta.
    destruct (mainListeners (mainRoom v)) as [|l ls] eqn:E.
    + unfold listening. now destruct (event_of f).
    + apply for_each_handler_returns.
      apply latest_room_defined; [assumption|].
      apply Hlisteners. now rewrite E.
Qed.

(** X14. The only place where a controller made by [new Lobby(room)] (on
    a main room without listeners of the controller yet) can throw is a
    moderator action before there is a lobby room: every other call, every
    reply and every event returns, whatever happened before, and with a
    lobby room [denyAccess] and [approveAccess] return as well.  (The
    calls into the connection and the rooms are taken to return.) *)
Theorem only_access_can_throw (x : XMPP) (room : MainRoom)
    (inputs : list Input) (i : Input) :
  mainListeners room = [] ->
  let v := run (constructor x room) inputs in
  (is_access i = false -> fst (handle i v) = Normal tt)
  /\ (lobbyRoom v <> None -> fst (handle i v) = Normal tt).
Proof.
  intros Hl v.
  assert (Hlatest : latest_room v) by (apply latest_run; reflexivity).
  assert (Hlisteners : listeners_have_lobby v).
  { apply listeners_run. intros H. cbn in H. contradiction. }
  split; intros H; apply handle_returns; auto.
Qed.

(** ** More on enabling the lobby *)

Lemma step_enableLobby (password : JsString) (w : World) :
  step w (CallEnableLobby password) = snd (enableLobby password w).
Proof.
  unfold step, handle, bind, ret.
  now destruct (enableLobby password w) as [[p|e] w'].
Qed.

(** X15. [enableLobby] does not look at the caller's role: whether the
    caller has joined the main room or is a moderator of it changes neither
    the query nor the submission that follows a form with the members-only
    field, so a change of the role commutes with them. *)
Theorem enableLobby_ignores_role (password : JsString) (res : Xml)
    (j m : bool) (w : World) :
  truthy (lobbyroomComponentAddress (xmpp w)) = true ->
  membersonly_fields res <> [] ->
  let n := length (pendingIQ (xmpp w)) in
  run w [MainRoomState j m; CallEnableLobby password; IqResult n res]
  = run w [CallEnableLobby password; IqResult n res; MainRoomState j m].
Proof.
  intros Hs Hres n. cbn [run fold_left].
  set (wc := step w (MainRoomState j m)).
  assert (Hc : truthy (lobbyroomComponentAddress (xmpp wc)) = true)
    by exact Hs.
  rewrite !step_enableLobby.
  change n with (length (pendingIQ (xmpp wc))) at 1.
  rewrite (form_with_membersonly password res wc Hc Hres).
  unfold n. rewrite (form_with_membersonly password res w Hs Hres).
  subst wc. destruct w as [x [jid0 j0 m0 ls] lr rs ps lks t lg].
  reflexivity.
Qed.

(** X16. A moderator who enables the lobby is subscribed to the lobby
    room: once the submission is acknowledged, and whatever comes next,
    every [MUC_MEMBER_JOINED] and every e-mail presence command of the new
    lobby room is passed on to the main room as [MUC_LOBBY_MEMBER_JOINED]
    and [MUC_LOBBY_MEMBER_UPDATED], and a kick there changes nothing. *)
Theorem enabling_moderator_is_notified (password : JsString)
    (res reply : Xml) (w : World) (inputs : list Input) :
  truthy (lobbyroomComponentAddress (xmpp w)) = true ->
  membersonly_fields res <> [] ->
  joined_moderator w = true ->
  let n := length (pendingIQ (xmpp w)) in
  let r := length (rooms w) in
  let w3 := run w [CallEnableLobby password; IqResult n res;
                   IqResult (S n) reply] in
  let v := run w3 inputs in
  (forall from nick role isHiddenDomain statsID status identity,
     step v (Fires r (MemberJoined from nick role isHiddenDomain statsID
                        status identity))
     = with_trace
         (fun t =>
            t ++ [Emit (MUC_LOBBY_MEMBER_JOINED
                          (Strophe.getResourceFromJid from) nick
                          (match identity with
                           | Some i => avatar i
                           | None => None
                           end))])
         v)
  /\ (forall val from,
        step v (Fires r (Presence (mkNode EMAIL_COMMAND val) from))
        = with_trace
            (fun t => t ++ [Emit (MUC_LOBBY_MEMBER_UPDATED from val)]) v)
  /\ (forall isSelfPresence, step v (Fires r (Kicked isSelfPresence)) = v).
Proof.
  intros Hs Hres Hm n r w3 v.
  set (ws := submitted password w).
  assert (E3 : w3 = with_links
                      (fun ls => ls ++ [(Own (S (length (promises w))),
                                         length (promises w))])
                      (snd (joinLobbyRoom None None None ws))).
  { unfold w3. cbn [run fold_left]. rewrite step_enableLobby.
    unfold n. rewrite (form_with_membersonly password res w Hs Hres).
    apply submission_acknowledged. }
  assert (Hk : keeps (snd (joinLobbyRoom None None None ws)) v).
  { eapply keeps_trans; [|apply (keeps_run inputs w3)].
    rewrite E3. apply keeps_links. }
  destruct (lobby_room_kept None None None ws v eq_refl Hk)
    as [[room [Hroom Hsame]] _].
  change (length (rooms ws)) with r in Hroom.
  assert (Hms : joined_moderator ws = true) by exact Hm.
  split; [|split].
  - intros from nick role isHiddenDomain statsID status identity.
    unfold step, handle. rewrite (fire_room _ _ _ _ Hroom).
    rewrite (listeners_of_same _ _ _ Hsame).
    unfold lobby_room_of. rewrite Hms.
    exact (for_each_one (fun h => run_handler h _) OnMemberJoined v).
  - intros val from.
    unfold step, handle. rewrite (fire_room _ _ _ _ Hroom).
    rewrite (listeners_of_same _ _ _ Hsame).
    unfold lobby_room_of. rewrite Hms.
    exact (for_each_one (fun h => run_handler h _) OnEmailCommand v).
  - intros b. apply (step_without_listeners r _ v room Hroom).
    rewrite (listeners_of_same _ _ _ Hsame).
    unfold lobby_room_of. rewrite Hms. reflexivity.
Qed.

(** X3. The promise of [enableLobby] keeps the first outcome of the lobby
    join it is chained to.  After the form with the members-only field and
    the acknowledgement of the submission the promise is pending; when
    [MUC_JOINED] comes first it is resolved, and a join error that comes
    later does not reject it; when a join error comes first it is rejected
    with that error, and a [MUC_JOINED] that comes later does not resolve
    it; and so it stays, whatever comes next. *)
Theorem enableLobby_first_outcome (password : JsString) (res reply : Xml)
    (w : World) (f : Fired) (e : JsError) (inputs : list Input) :
  truthy (lobbyroomComponentAddress (xmpp w)) = true ->
  membersonly_fields res <> [] ->
  JoinFailure f e ->
  let p := length (promises w) in
  let n := length (pendingIQ (xmpp w)) in
  let r := length (rooms w) in
  let w3 := run w [CallEnableLobby password; IqResult n res;
                   IqResult (S n) reply] in
  state_of (Own p) w3 = Some Pending
  /\ state_of (Own p) (step w3 (Fires r MucJoined))
     = Some (Settled Fulfilled)
  /\ state_of (Own p) (run w3 (Fires r MucJoined :: Fires r f :: inputs))
     = Some (Settled Fulfilled)
  /\ state_of (Own p) (step w3 (Fires r f)) = Some (Settled (Rejected e))
  /\ state_of (Own p) (run w3 (Fires r f :: Fires r MucJoined :: inputs))
     = Some (Settled (Rejected e)).
Proof.
  intros Hs Hres Hf p n r w3.
  set (ws := submitted password w).
  assert (E3 : w3 = with_links (fun ls => ls ++ [(Own (S p), p)])
                      (snd (joinLobbyRoom None None None ws))).
  { unfold w3. cbn [run fold_left]. rewrite step_enableLobby.
    unfold n. rewrite (form_with_membersonly password res w Hs Hres).
    apply submission_acknowledged. }
  pose proof (joinLobbyRoom_lobby None None None ws eq_refl) as J.
  assert (Hlen : length (promises ws) = S p)
    by (cbn; rewrite length_app; cbn; lia).
  rewrite Hlen in J.
  assert (Hk : keeps (snd (joinLobbyRoom None None None ws)) w3)
    by (rewrite E3; apply keeps_links).
  assert (P3 : promises w3 = (promises w ++ [Pending]) ++ [Pending])
    by (rewrite E3, J; reflexivity).
  assert (Hp : nth_error (promises w3) p = Some Pending).
  { rewrite P3. apply nth_error_app_old. apply nth_error_last. }
  assert (Hj : nth_error (promises w3) (S p) = Some Pending).
  { rewrite P3.
    replace (S p) with (length (promises w ++ [Pending]))
      by (rewrite length_app; cbn; lia).
    apply nth_error_last. }
  assert (Hlink : In (Own (S p), p) (links w3)).
  { rewrite E3, J. cbn. apply in_or_app. right. now left. }
  assert (Hjoined : state_of (Own p) (step w3 (Fires r MucJoined))
                    = Some (Settled Fulfilled)).
  { destruct (lobby_joined_later None None None ws w3 eq_refl Hk)
      as [current [ps [_ [E [_ K]]]]].
    rewrite Hlen in K. cbn [rooms submitted ws] in E. fold r in E.
    destruct (K Hj) as [_ Kp].
    rewrite E. cbn [state_of promises with_trace with_promises].
    now apply Kp. }
  assert (Hfailed : state_of (Own p) (step w3 (Fires r f))
                    = Some (Settled (Rejected e))).
  { destruct (lobby_join_failed_later None None None ws w3 f e eq_refl Hk Hf)
      as [ps [E [_ K]]].
    rewrite Hlen in K. cbn [rooms submitted ws] in E. fold r in E.
    destruct (K Hj) as [_ Kp].
    rewrite E. cbn [state_of promises with_promises].
    now apply Kp. }
  split; [exact Hp|].
  split; [exact Hjoined|].
  split; [exact (settled_run (Fires r f :: inputs) _ p _ Hjoined)|].
  split; [exact Hfailed|].
  exact (settled_run (Fires r MucJoined :: inputs) _ p _ Hfailed).
Qed.

Lemma nth_error_middle {A : Type} (pre post : list A) (a : A) :
  nth_error (pre ++ a :: post) (length pre) = Some a.
Proof.
  induction pre as [|b pre IH]; [reflexivity | exact IH].
Qed.

Lemma update_nth_middle {A : Type} (f : A -> A) (pre post : list A) (a : A) :
  update_nth (length pre) f (pre ++ a :: post) = pre ++ f a :: post.
Proof.
  induction pre as [|b pre IH]; cbn; [reflexivity | now rewrite IH].
Qed.

(** The reply to any request that is still awaited reaches its callback. *)
Lemma take_callback_at (w : World) (pre post : list (option IqCallback))
    (cb : IqCallback) :
  pendingIQ (xmpp w) = pre ++ Some cb :: post ->
  take_callback (length pre) w
  = (Normal (Some cb),
     with_xmpp
       (fun x => mkXMPP (lobbyroomComponentAddress x) (pre ++ None :: post))
       w).
Proof.
  intros H. unfold take_callback. js_unfold. cbv beta.
  rewrite H, nth_error_middle. cbn. unfold with_xmpp. cbn.
  now rewrite H, update_nth_middle.
Qed.

(** The reply to a configuration query that is still awaited, on a form
    with the members-only field: the submission of that call is sent. *)
Lemma form_reply_at (w : World) (pre post : list (option IqCallback))
    (p : nat) (password : JsString) (res : Xml) :
  pendingIQ (xmpp w) = pre ++ Some (ConfigFormReply p password) :: post ->
  membersonly_fields res <> [] ->
  step w (IqResult (length pre) res)
  = mkWorld
      (mkXMPP (lobbyroomComponentAddress (xmpp w))
         ((pre ++ None :: post) ++ [Some (ConfigSubmitReply p)]))
      (mainRoom w) (lobbyRoom w) (rooms w) (promises w) (links w)
      (trace w ++ [SendIQ (config_submission (roomjid (mainRoom w)) password)])
      (log w).
Proof.
  intros Hpending Hres. unfold step, handle, bind.
  rewrite (take_callback_at w pre post _ Hpending).
  cbn [on_success].
  destruct (membersonly_fields res) as [|x xs]; [contradiction|].
  cbn [length Nat.ltb Nat.leb]. unfold sendIQ. js_unfold.
  cbv beta iota. rewrite formsubmit_tree. reflexivity.
Qed.

(** X17. Two [enableLobby] calls that are under way at the same time do
    not mix: when the form of the second call comes back before the form
    of the first, each submission carries the password of its own call, and
    each is awaited for the promise of its own call. *)
Theorem enableLobby_replies_in_any_order (password1 password2 : JsString)
    (res1 res2 : Xml) (w : World) :
  truthy (lobbyroomComponentAddress (xmpp w)) = true ->
  membersonly_fields res1 <> [] ->
  membersonly_fields res2 <> [] ->
  let n := length (pendingIQ (xmpp w)) in
  let p := length (promises w) in
  let room := roomjid (mainRoom w) in
  let v := run w [CallEnableLobby password1; CallEnableLobby password2;
                  IqResult (S n) res2; IqResult n res1] in
  trace v
  = trace w ++ [SendIQ (config_query_stanza room);
                SendIQ (config_query_stanza room);
                SendIQ (config_submission room password2);
                SendIQ (config_submission room password1)]
  /\ pendingIQ (xmpp v)
     = pendingIQ (xmpp w)
       ++ [None; None; Some (ConfigSubmitReply (S p));
           Some (ConfigSubmitReply p)].
Proof.
  intros Hs H1 H2 n p room v.
  set (cb1 := Some (ConfigFormReply p password1)).
  set (w1 := snd (enableLobby password1 w)).
  assert (E1 : w1 = snd (enableLobby password1 w)) by reflexivity.
  rewrite (enableLobby_supported _ _ Hs) in E1. cbn [snd] in E1.
  assert (Hs1 : truthy (lobbyroomComponentAddress (xmpp w1)) = true)
    by now rewrite E1.
  set (w2 := snd (enableLobby password2 w1)).
  assert (E2 : w2 = snd (enableLobby password2 w1)) by reflexivity.
  rewrite (enableLobby_supported _ _ Hs1) in E2. cbn [snd] in E2.
  assert (Hp : length (promises w1) = S p)
    by (rewrite E1; cbn; rewrite length_app; cbn; unfold p; lia).
  rewrite Hp in E2.
  assert (Hn : S n = length (pendingIQ (xmpp w) ++ [cb1]))
    by (unfold n; rewrite length_app; cbn; lia).
  set (w3 := step w2 (IqResult (S n) res2)).
  assert (E3 : w3 = step w2 (IqResult (S n) res2)) by reflexivity.
  rewrite Hn in E3.
  rewrite (form_reply_at w2 (pendingIQ (xmpp w) ++ [cb1]) [] (S p) password2)
    in E3 by (first [assumption | rewrite E2, E1; reflexivity]).
  set (w4 := step w3 (IqResult n res1)).
  assert (E4 : w4 = step w3 (IqResult n res1)) by reflexivity.
  unfold n in E4.
  rewrite (form_reply_at w3 (pendingIQ (xmpp w))
             [None; Some (ConfigSubmitReply (S p))] p password1) in E4.
  2: { rewrite E3. cbn [xmpp pendingIQ]. subst cb1.
       now rewrite <- !app_assoc. }
  2: assumption.
  assert (Ev : v = w4).
  { unfold v. cbn [run fold_left]. now rewrite !step_enableLobby. }
  rewrite Ev, E4. cbn [trace xmpp pendingIQ].
  rewrite E3. cbn [trace mainRoom roomjid].
  rewrite E2. cbn [trace mainRoom roomjid].
  rewrite E1. cbn [trace mainRoom roomjid].
  split; now rewrite <- !app_assoc.
Qed.

(** * Witnesses of the further properties *)

(** The configuration query of the moderator times out. *)
Lemma enableLobby_query_fails_witness :
  truthy (lobbyroomComponentAddress (xmpp moderator)) = true
  /\ state_of (Own (length (promises moderator)))
       (step (snd (enableLobby (Some "xyz789") moderator))
          (IqError (length (pendingIQ (xmpp moderator))) (ErrorStanza None)))
     = Some (Settled (Rejected (ErrorStanza None))).
Proof.
  split; [reflexivity|].
  exact (proj1 (enableLobby_query_fails (Some "xyz789") (ErrorStanza None)
                  moderator [] eq_refl)).
Defined.

(** The configuration submission of the moderator is refused. *)
Lemma enableLobby_submission_fails_witness :
  truthy (lobbyroomComponentAddress (xmpp moderator)) = true
  /\ membersonly_fields members_only_form <> []
  /\ state_of (Own (length (promises moderator)))
       (step (snd (enableLobby (Some "xyz789") moderator))
          (IqResult (length (pendingIQ (xmpp moderator))) members_only_form))
     = Some Pending.
Proof.
  assert (H : membersonly_fields members_only_form <> []) by discriminate.
  split; [reflexivity|]. split; [exact H|].
  exact (proj1 (enableLobby_submission_fails (Some "xyz789")
                  members_only_form (ErrorStanza None) moderator eq_refl H)).
Defined.

(** The moderator enables the lobby; the lobby join fails and is then
    answered by [MUC_JOINED] all the same. *)
Lemma enableLobby_first_outcome_witness :
  truthy (lobbyroomComponentAddress (xmpp moderator)) = true
  /\ membersonly_fields members_only_form <> []
  /\ JoinFailure (RoomConnectError (ErrorStanza None)) (ErrorStanza None)
  /\ (let p := length (promises moderator) in
      let n := length (pendingIQ (xmpp moderator)) in
      let r := length (rooms moderator) in
      let w3 := run moderator
                  [CallEnableLobby (Some "xyz789");
                   IqResult n members_only_form; IqResult (S n) (Text "")] in
      state_of (Own p)
        (run w3 (Fires r (RoomConnectError (ErrorStanza None))
                 :: Fires r MucJoined :: []))
      = Some (Settled (Rejected (ErrorStanza None)))).
Proof.
  assert (H : membersonly_fields members_only_form <> []) by discriminate.
  split; [reflexivity|]. split; [exact H|]. split; [constructor|].
  exact (proj2 (proj2 (proj2 (proj2
           (enableLobby_first_outcome (Some "xyz789") members_only_form
              (Text "") moderator (RoomConnectError (ErrorStanza None))
              (ErrorStanza None) [] eq_refl H
              (connect_error (ErrorStanza None))))))).
Defined.

(** Alice's join is answered by a join error and by [MUC_JOINED]. *)
Lemma lobby_join_first_outcome_witness :
  truthy None && negb (joined_moderator participant) = false
  /\ JoinFailure (RoomJoinError (ErrorStanza None)) (ErrorStanza None)
  /\ (let r := length (rooms participant) in
      let p := length (promises participant) in
      let w1 := snd (joinLobbyRoom (Some "Alice") None None participant) in
      state_of (Own p)
        (run (step w1 (Fires r MucJoined))
           [Fires r (RoomJoinError (ErrorStanza None))])
      = Some (Settled Fulfilled)).
Proof.
  split; [reflexivity|]. split; [constructor|].
  exact (proj1 (lobby_join_first_outcome (Some "Alice") None None participant
                  (RoomJoinError (ErrorStanza None)) (ErrorStanza None) []
                  eq_refl (join_error (ErrorStanza None)))).
Defined.

(** Alice joins the lobby a second time. *)
Lemma kick_after_joining_again_witness :
  joined_moderator participant = false
  /\ truthy None = false
  /\ lobbyRoom
       (snd (joinLobbyRoom (Some "Alice") None None
               (snd (joinLobbyRoom (Some "Alice") None None participant))))
     = Some (S (length (rooms participant))).
Proof.
  split; [reflexivity|]. split; [reflexivity|].
  exact (proj1 (proj2 (kick_after_joining_again (Some "Alice") None None
                         (Some "Alice") None None participant
                         eq_refl eq_refl eq_refl))).
Defined.

Lemma invite_after_joining_again_witness :
  joined_moderator participant = false
  /\ truthy None = false
  /\ mainListeners (mainRoom participant) = []
  /\ (let r1 := length (rooms participant) in
      let room := roomjid (mainRoom participant) in
      let w1 := snd (joinLobbyRoom (Some "Alice") None None participant) in
      let w2 := snd (joinLobbyRoom (Some "Alice") None None w1) in
      step w2 (MainFires (InviteMessageReceived room "moderator" None))
      = with_trace
          (fun t =>
             t ++ [MainRoomJoin None; Leave (S r1);
                   MainRoomJoin None; Leave (S r1)])
          (with_log
             (fun l =>
                l ++ [approval_received room "moderator" None;
                      approval_received room "moderator" None])
             w2)).
Proof.
  split; [reflexivity|]. split; [reflexivity|]. split; [reflexivity|].
  exact (invite_after_joining_again (Some "Alice") None None (Some "Alice")
           None None "moderator" None participant
           eq_refl eq_refl eq_refl eq_refl).
Defined.

(** The moderator joins the lobby and passes a password. *)
Lemma moderator_join_ignores_password_witness :
  joined_moderator moderator = true
  /\ lobbyRoom (snd (joinLobbyRoom None None (Some "secret") moderator))
     = Some (length (rooms moderator)).
Proof.
  split; [reflexivity|].
  exact (proj1 (proj2 (proj2 (moderator_join_ignores_password None None
                                (Some "secret") moderator [] eq_refl)))).
Defined.

Lemma waiting_participant_not_notified_witness :
  joined_moderator participant = false
  /\ truthy None = false
  /\ (let r := length (rooms participant) in
      let v := run (snd (joinLobbyRoom (Some "Alice") None None participant))
                 [] in
      forall node from, step v (Fires r (Presence node from)) = v).
Proof.
  split; [reflexivity|]. split; [reflexivity|].
  exact (proj2 (waiting_participant_not_notified (Some "Alice") None None
                  participant [] eq_refl eq_refl)).
Defined.

Lemma display_name_before_join_witness :
  truthy None && negb (joined_moderator participant) = false
  /\ truthy (Some "") = false
  /\ (let r := length (rooms participant) in
      let w1 := snd (joinLobbyRoom (Some "") None None participant) in
      let made :=
        CreateRoom (Strophe.getNodeFromJid (roomjid (mainRoom participant)))
          (mkOptions true true
             (lobbyroomComponentAddress (xmpp participant))) in
      trace w1 = trace participant ++ [made; Join r]).
Proof.
  split; [reflexivity|]. split; [reflexivity|].
  exact (proj2 (display_name_before_join (Some "") None None participant
                  eq_refl) eq_refl).
Defined.

Lemma bob_is_not_res123 :
  forall k, In k (map fst [bob]) ->
            Strophe.getResourceFromJid k <> Some "res123".
Proof.
  intros k [<-|[]]. discriminate.
Qed.

(** The moderator denies res123 in the crowded lobby: Alice comes first. *)
Lemma access_takes_first_member_witness :
  truthy (lobbyroomComponentAddress (xmpp crowded_lobby)) = true
  /\ isModerator (mainRoom crowded_lobby) = true
  /\ lobbyRoom crowded_lobby = Some 0
  /\ nth_error (rooms crowded_lobby) 0 = Some crowded_room
  /\ members crowded_room = [bob] ++ alice :: [mallory]
  /\ Strophe.getResourceFromJid (fst alice) = Some "res123"
  /\ trace (step crowded_lobby (CallDenyAccess "res123"))
     = trace crowded_lobby ++ [Kick 0 (fst alice)].
Proof.
  repeat (split; [reflexivity|]).
  exact (proj1 (access_takes_first_member "res123" crowded_lobby 0
                  crowded_room [bob] [mallory] (fst alice) (snd alice)
                  eq_refl eq_refl eq_refl eq_refl eq_refl bob_is_not_res123
                  eq_refl)).
Defined.

Lemma deny_and_approve_compose_witness :
  truthy (lobbyroomComponentAddress (xmpp crowded_lobby)) = true
  /\ isModerator (mainRoom crowded_lobby) = true
  /\ lobbyRoom crowded_lobby = Some 0
  /\ nth_error (rooms crowded_lobby) 0 = Some crowded_room
  /\ members crowded_room = [bob] ++ alice :: [mallory]
  /\ Strophe.getResourceFromJid (fst alice) = Some "res123"
  /\ rooms (run crowded_lobby
              [CallDenyAccess "res123"; CallApproveAccess "res123"])
     = rooms crowded_lobby.
Proof.
  repeat (split; [reflexivity|]).
  exact (proj2 (proj2 (deny_and_approve_compose "res123" crowded_lobby 0
                         crowded_room [bob] [mallory] (fst alice) (snd alice)
                         eq_refl eq_refl eq_refl eq_refl eq_refl
                         bob_is_not_res123 eq_refl))).
Defined.

Lemma invite_reply_witness :
  truthy (lobbyroomComponentAddress (xmpp crowded_lobby)) = true
  /\ isModerator (mainRoom crowded_lobby) = true
  /\ lobbyRoom crowded_lobby = Some 0
  /\ nth_error (rooms crowded_lobby) 0 = Some crowded_room
  /\ members crowded_room = [bob] ++ alice :: [mallory]
  /\ Strophe.getResourceFromJid (fst alice) = Some "res123"
  /\ (let n := length (pendingIQ (xmpp crowded_lobby)) in
      let w1 := step crowded_lobby (CallApproveAccess "res123") in
      step w1 (IqResult n (Text ""))
      = with_xmpp
          (fun x => mkXMPP (lobbyroomComponentAddress x)
                      (pendingIQ (xmpp crowded_lobby) ++ [None])) w1).
Proof.
  repeat (split; [reflexivity|]).
  exact (proj1 (invite_reply "res123" crowded_lobby 0 crowded_room [bob]
                  [mallory] (fst alice) (snd alice) (Text "")
                  (ErrorStanza None) eq_refl eq_refl eq_refl eq_refl eq_refl
                  bob_is_not_res123 eq_refl)).
Defined.

(** A kick reaches the controller of Alice, who waits in the lobby. *)
Lemma only_access_can_throw_witness :
  mainListeners (mkMainRoom "room1@conference.example" false false []) = []
  /\ (let v := run (constructor backend
                      (mkMainRoom "room1@conference.example" false false []))
                 [CallJoinLobbyRoom (Some "Alice") None None] in
      is_access (Fires 0 (Kicked true)) = false ->
      fst (handle (Fires 0 (Kicked true)) v) = Normal tt).
Proof.
  split; [reflexivity|].
  exact (proj1 (only_access_can_throw backend
                  (mkMainRoom "room1@conference.example" false false [])
                  [CallJoinLobbyRoom (Some "Alice") None None]
                  (Fires 0 (Kicked true)) eq_refl)).
Defined.

(** The moderator enables the lobby; roles and replies vary. *)
Lemma enableLobby_ignores_role_witness :
  truthy (lobbyroomComponentAddress (xmpp moderator)) = true
  /\ membersonly_fields members_only_form <> []
  /\ (let n := length (pendingIQ (xmpp moderator)) in
      run moderator
        [MainRoomState false false; CallEnableLobby (Some "xyz789");
         IqResult n members_only_form]
      = run moderator
          [CallEnableLobby (Some "xyz789"); IqResult n members_only_form;
           MainRoomState false false]).
Proof.
  assert (H : membersonly_fields members_only_form <> []) by discriminate.
  split; [reflexivity|]. split; [exact H|].
  exact (enableLobby_ignores_role (Some "xyz789") members_only_form false
           false moderator eq_refl H).
Defined.

Lemma enabling_moderator_is_notified_witness :
  truthy (lobbyroomComponentAddress (xmpp moderator)) = true
  /\ membersonly_fields members_only_form <> []
  /\ joined_moderator moderator = true
  /\ (let n := length (pendingIQ (xmpp moderator)) in
      let r := length (rooms moderator) in
      let w3 := run moderator
                  [CallEnableLobby (Some "xyz789");
                   IqResult n members_only_form; IqResult (S n) (Text "")] in
      let v := run w3 [] in
      forall isSelfPresence, step v (Fires r (Kicked isSelfPresence)) = v).
Proof.
  assert (H : membersonly_fields members_only_form <> []) by discriminate.
  split; [reflexivity|]. split; [exact H|]. split; [reflexivity|].
  exact (proj2 (proj2 (enabling_moderator_is_notified (Some "xyz789")
                         members_only_form (Text "") moderator [] eq_refl H
                         eq_refl))).
Defined.

Lemma enableLobby_replies_in_any_order_witness :
  truthy (lobbyroomComponentAddress (xmpp moderator)) = true
  /\ membersonly_fields members_only_form <> []
  /\ (let n := length (pendingIQ (xmpp moderator)) in
      let p := length (promises moderator) in
      let v := run moderator
                 [CallEnableLobby (Some "one"); CallEnableLobby (Some "two");
                  IqResult (S n) members_only_form;
                  IqResult n members_only_form] in
      pendingIQ (xmpp v)
      = pendingIQ (xmpp moderator)
        ++ [None; None; Some (ConfigSubmitReply (S p));
            Some (ConfigSubmitReply p)]).
Proof.
  assert (H : membersonly_fields members_only_form <> []) by discriminate.
  split; [reflexivity|]. split; [exact H|].
  exact (proj2 (enableLobby_replies_in_any_order (Some "one") (Some "two")
                  members_only_form members_only_form moderator eq_refl H H)).
Defined.

Lemma nobody_is_res999 :
  forall k, In k (map fst (members crowded_room)) ->
            Strophe.getResourceFromJid k <> Some "res999".
Proof.
  intros k [<-|[<-|[<-|[]]]]; discriminate.
Qed.

(** Nobody in the crowded lobby has the resource res999. *)
Lemma member_not_found_witness :
  truthy (lobbyroomComponentAddress (xmpp crowded_lobby)) = true
  /\ isModerator (mainRoom crowded_lobby) = true
  /\ lobbyRoom crowded_lobby = Some 0
  /\ nth_error (rooms crowded_lobby) 0 = Some crowded_room
  /\ handle (CallDenyAccess "res999") crowded_lobby
     = (Normal tt,
        with_log
          (fun l =>
             l ++ [LogError "Not found member for undefined in lobby room."])
          crowded_lobby).
Proof.
  repeat (split; [reflexivity|]).
  exact (proj1 (member_not_found "res999" crowded_lobby 0 crowded_room
                  eq_refl eq_refl eq_refl eq_refl nobody_is_res999)).
Defined.
